(** * Placement portal: the decision logic of [server/src/index.js]

    A shallow embedding of the request handlers that carry decision logic
    (eligibility listing, applying to a drive, mentorship slots and
    bookings, the FAQ matcher and the analytics aggregations), with the
    in-memory tables threaded explicitly as a [Store].

    Conventions of the embedding:
    - a JS number that holds an identifier or a counter is a [Z]; a number
      that holds a grade (CGPA) is a rational [Q] (the handlers replace
      [NaN] by [0] before storing, see [orZero]; an infinite grade, which
      [parseFloat] can produce, is left out); the ratios of the analytics
      are computed in IEEE 754 doubles, as JS computes them;
    - a string is a [string] of ASCII characters: [toLowerCase],
      [toUpperCase] and the [\s] class are those of JS on such text, and a
      property that depends on them is stated for [asciiText];
    - [new Date().toISOString()] is an argument [now] of the handler;
    - a table ([const xs = []]) is a list in insertion order, [xs.find] is
      [List.find], [xs.push] is [++ [_]];
    - a response is the HTTP status together with the JSON body. *)

From Stdlib Require Import ZArith QArith Qround Lia String Ascii List Permutation Sorted.
From Stdlib Require Import SpecFloat.
From stdpp Require Import base option list strings pretty gmap.

Import ListNotations.
Local Open Scope string_scope.
Local Open Scope list_scope.
Local Open Scope Z_scope.

(** ** Responses *)

(** [res.status(c).json(body)]; an error body is [{ message }]. *)
Inductive Response (A : Type) : Type :=
| Json (status : Z) (body : A)
| Failure (status : Z) (message : string).
Arguments Json {A} status body.
Arguments Failure {A} status message.

Definition OK : Z := 200.
Definition Created : Z := 201.
Definition Validation : Z := 400.
Definition NotFound : Z := 404.
Definition Conflict : Z := 409.
Definition InternalError : Z := 500.

Definition statusOf {A} (r : Response A) : Z :=
  match r with Json c _ => c | Failure c _ => c end.

(** ** Numbers *)

(** [x < y] on finite numbers. *)
Definition Qltb (x y : Q) : bool :=
  (Qnum x * QDen y <? Qnum y * QDen x)%Z.

(** [parseFloat(v) || 0] and [parseInt(v) || 0]: the parse is an option
    ([None] for [NaN]); [NaN] and [0] are falsy. *)
Definition orZero (v : option Z) : Z := default 0 v.
Definition orZeroQ (v : option Q) : Q := default 0%Q v.

(** [parseInt(v) || 1] *)
Definition orOne (v : option Z) : Z :=
  match v with
  | None => 1
  | Some n => if n =? 0 then 1 else n
  end.

(** ** Tables *)

Inductive Role := TPO | STUDENT | ALUMNI.

Record User := {
  user_id : Z;
  name : string;
  email : string;
  phone : string;
  role : Role
}.

Record StudentProfile := {
  userId : Z;
  branch : string;
  cgpa : Q;
  currentBacklogs : Z;
  skills : list string;
  experience : string;
  projects : string;
  education : list string;
  personalInfo : list (string * string)
}.

Inductive DriveStatus := ACTIVE | CLOSED.

Record Drive := {
  drive_id : Z;
  companyName : string;
  roleTitle : string;
  minCgpa : Q;
  maxBacklogs : Z;
  allowedBranches : list string;
  applicationDeadline : option string;
  createdBy : Z;
  drive_status : DriveStatus
}.

Inductive ApplicationStatus := APPLIED | INTERVIEW_SCHEDULED | SELECTED | REJECTED.

Record Application := {
  app_id : Z;
  driveId : Z;
  studentId : Z;
  app_status : ApplicationStatus;
  appliedAt : string;
  updatedAt : string
}.

Inductive SlotStatus := AVAILABLE | FULL.

Record MentorshipSlot := {
  slot_id : Z;
  alumniUserId : Z;
  slotStart : string;
  slotEnd : string;
  maxStudents : Z;
  currentBookings : Z;
  description : string;
  slot_status : SlotStatus
}.

Inductive BookingStatus := CONFIRMED.

Record MentorshipBooking := {
  booking_id : Z;
  slotId : Z;
  booking_studentId : Z;
  bookedAt : string;
  booking_status : BookingStatus
}.

Record FAQ := {
  faq_id : Z;
  question : string;
  answer : string;
  tags : list string;
  category : string
}.

#[global] Instance DriveStatus_eq_dec : EqDecision DriveStatus.
Proof. solve_decision. Defined.
#[global] Instance ApplicationStatus_eq_dec : EqDecision ApplicationStatus.
Proof. solve_decision. Defined.
#[global] Instance SlotStatus_eq_dec : EqDecision SlotStatus.
Proof. solve_decision. Defined.

(** The module-level tables and counters. *)
Record Store := {
  users : list User;
  studentProfiles : list StudentProfile;
  drives : list Drive;
  nextDriveId : Z;
  applications : list Application;
  nextApplicationId : Z;
  mentorshipSlots : list MentorshipSlot;
  nextSlotId : Z;
  mentorshipBookings : list MentorshipBooking;
  nextBookingId : Z
}.

(** [arr.includes(x)] on an array of strings. *)
Definition includes (arr : list string) (x : string) : bool :=
  existsb (String.eqb x) arr.

(** ** Eligibility (GET /api/tpo/drives/:driveId/eligible-students and
       GET /api/students/eligible-drives) *)

(** The callback of [studentProfiles.filter] in the TPO listing. *)
Definition eligibleStudentsFilter (drive : Drive) (profile : StudentProfile) : bool :=
  if Qltb (cgpa profile) (minCgpa drive) then false
  else if maxBacklogs drive <? currentBacklogs profile then false
  else if (0 <? length (allowedBranches drive))%nat
          && negb (includes (allowedBranches drive) (branch profile)) then false
  else true.

(** The callback of [drives.filter] in the student listing: the same three
    checks, then [return drive.status === 'ACTIVE']. *)
Definition eligibleDrivesFilter (profile : StudentProfile) (drive : Drive) : bool :=
  if Qltb (cgpa profile) (minCgpa drive) then false
  else if maxBacklogs drive <? currentBacklogs profile then false
  else if (0 <? length (allowedBranches drive))%nat
          && negb (includes (allowedBranches drive) (branch profile)) then false
  else bool_decide (drive_status drive = ACTIVE).

Record EligibleStudent := {
  es_userId : Z;
  es_name : string;
  es_email : string;
  es_branch : string;
  es_cgpa : Q;
  es_currentBacklogs : Z
}.

Record EligibleStudents := {
  r_driveId : Z;
  r_companyName : string;
  eligibleCount : nat;
  eligibleStudents : list EligibleStudent
}.

Definition eligibleStudentsFor (st : Store) (id : Z) : Response EligibleStudents :=
  match find (fun d => drive_id d =? id) (drives st) with
  | None => Failure NotFound "Drive not found"
  | Some drive =>
      let eligible :=
        map (fun profile =>
               let user := find (fun u => user_id u =? userId profile) (users st) in
               {| es_userId := userId profile;
                  es_name := from_option name "" user;
                  es_email := from_option email "" user;
                  es_branch := branch profile;
                  es_cgpa := cgpa profile;
                  es_currentBacklogs := currentBacklogs profile |})
            (List.filter (eligibleStudentsFilter drive) (studentProfiles st)) in
      Json OK {| r_driveId := drive_id drive;
                 r_companyName := companyName drive;
                 eligibleCount := length eligible;
                 eligibleStudents := eligible |}
  end.

Record EligibleDrive := {
  ed_drive : Drive;
  hasApplied : bool;
  applicationStatus : option ApplicationStatus
}.

(** The body is [{ message?, drives }]. *)
Definition eligibleDrivesFor (st : Store) (uid : Z)
  : Response (option string * list EligibleDrive) :=
  match find (fun p => userId p =? uid) (studentProfiles st) with
  | None => Json OK (Some "Please complete your profile first", [])
  | Some profile =>
      if String.eqb (branch profile) ""
      then Json OK (Some "Please complete your profile first", [])
      else
        Json OK (None,
          map (fun drive =>
                 let application :=
                   find (fun a => (driveId a =? drive_id drive) && (studentId a =? uid))
                        (applications st) in
                 {| ed_drive := drive;
                    hasApplied := bool_decide (is_Some application);
                    applicationStatus := app_status <$> application |})
              (List.filter (eligibleDrivesFilter profile) (drives st)))
  end.

(** ** Applying to a drive (POST /api/students/drives/:driveId/apply) *)

Definition pushApplication (st : Store) (a : Application) : Store :=
  {| users := users st;
     studentProfiles := studentProfiles st;
     drives := drives st;
     nextDriveId := nextDriveId st;
     applications := applications st ++ [a];
     nextApplicationId := nextApplicationId st + 1;
     mentorshipSlots := mentorshipSlots st;
     nextSlotId := nextSlotId st;
     mentorshipBookings := mentorshipBookings st;
     nextBookingId := nextBookingId st |}.

(** [req.user.id] is [uid], [parseInt(req.params.driveId)] is [id]. *)
Definition applyToDrive (st : Store) (uid id : Z) (now : string)
  : Store * Response Application :=
  match find (fun d => drive_id d =? id) (drives st) with
  | None => (st, Failure NotFound "Drive not found")
  | Some drive =>
      match find (fun a => (driveId a =? id) && (studentId a =? uid)) (applications st) with
      | Some existing => (st, Failure Conflict "You have already applied to this drive")
      | None =>
          let application :=
            {| app_id := nextApplicationId st;
               driveId := id;
               studentId := uid;
               app_status := APPLIED;
               appliedAt := now;
               updatedAt := now |} in
          (pushApplication st application, Json Created application)
      end
  end.

(** The applications of one (student, drive) pair. *)
Definition applicationsOf (st : Store) (uid id : Z) : list Application :=
  List.filter (fun a => (driveId a =? id) && (studentId a =? uid)) (applications st).

(** ** Mentorship slots (POST /api/alumni/mentorship-slots and
       POST /api/mentorship/slots/:slotId/book) *)

Definition pushSlot (st : Store) (s : MentorshipSlot) : Store :=
  {| users := users st;
     studentProfiles := studentProfiles st;
     drives := drives st;
     nextDriveId := nextDriveId st;
     applications := applications st;
     nextApplicationId := nextApplicationId st;
     mentorshipSlots := mentorshipSlots st ++ [s];
     nextSlotId := nextSlotId st + 1;
     mentorshipBookings := mentorshipBookings st;
     nextBookingId := nextBookingId st |}.

(** [!slotStart || !slotEnd] rejects a missing or empty time; [maxStudents]
    is the result of [parseInt(maxStudents)], a number or [NaN] (a value
    that [parseInt] cannot convert is the case that [postSlot] adds). *)
Definition createSlot (st : Store) (uid : Z) (start finish : string)
    (maxStudentsParsed : option Z) (descr : string) : Store * Response MentorshipSlot :=
  if String.eqb start "" || String.eqb finish ""
  then (st, Failure Validation "Slot start and end times are required")
  else
    let slot :=
      {| slot_id := nextSlotId st;
         alumniUserId := uid;
         slotStart := start;
         slotEnd := finish;
         maxStudents := orOne maxStudentsParsed;
         currentBookings := 0;
         description := descr;
         slot_status := AVAILABLE |} in
    (pushSlot st slot, Json Created slot).

(** [slot.currentBookings++] followed by
    [if (slot.currentBookings >= slot.maxStudents) slot.status = 'FULL']. *)
Definition bookedSlot (slot : MentorshipSlot) : MentorshipSlot :=
  let n := currentBookings slot + 1 in
  {| slot_id := slot_id slot;
     alumniUserId := alumniUserId slot;
     slotStart := slotStart slot;
     slotEnd := slotEnd slot;
     maxStudents := maxStudents slot;
     currentBookings := n;
     description := description slot;
     slot_status := if maxStudents slot <=? n then FULL else slot_status slot |}.

(** The slot object found by [mentorshipSlots.find] is mutated in place:
    the first slot with that id changes, the table keeps its order. *)
Fixpoint updateSlot (id : Z) (f : MentorshipSlot -> MentorshipSlot)
    (slots : list MentorshipSlot) : list MentorshipSlot :=
  match slots with
  | [] => []
  | s :: rest => if slot_id s =? id then f s :: rest else s :: updateSlot id f rest
  end.

Definition pushBooking (st : Store) (b : MentorshipBooking) : Store :=
  {| users := users st;
     studentProfiles := studentProfiles st;
     drives := drives st;
     nextDriveId := nextDriveId st;
     applications := applications st;
     nextApplicationId := nextApplicationId st;
     mentorshipSlots := updateSlot (slotId b) bookedSlot (mentorshipSlots st);
     nextSlotId := nextSlotId st;
     mentorshipBookings := mentorshipBookings st ++ [b];
     nextBookingId := nextBookingId st + 1 |}.

Definition bookSlot (st : Store) (uid id : Z) (now : string)
  : Store * Response MentorshipBooking :=
  match find (fun s => slot_id s =? id) (mentorshipSlots st) with
  | None => (st, Failure NotFound "Mentorship slot not found")
  | Some slot =>
      if negb (bool_decide (slot_status slot = AVAILABLE))
         || (maxStudents slot <=? currentBookings slot)
      then (st, Failure Validation "Slot is no longer available")
      else
        match find (fun b => (slotId b =? id) && (booking_studentId b =? uid))
                   (mentorshipBookings st) with
        | Some existing => (st, Failure Conflict "You have already booked this slot")
        | None =>
            let booking :=
              {| booking_id := nextBookingId st;
                 slotId := id;
                 booking_studentId := uid;
                 bookedAt := now;
                 booking_status := CONFIRMED |} in
            (pushBooking st booking, Json Created booking)
        end
  end.

(** The two write operations of the scheduler, as requests. *)
Inductive SlotRequest :=
| CreateSlot (uid : Z) (start finish : string) (maxStudentsParsed : option Z) (descr : string)
| BookSlot (uid id : Z) (now : string).

Definition serve (st : Store) (rq : SlotRequest) : Store :=
  match rq with
  | CreateSlot uid start finish m descr => fst (createSlot st uid start finish m descr)
  | BookSlot uid id now => fst (bookSlot st uid id now)
  end.

Definition serveAll (st : Store) (rqs : list SlotRequest) : Store :=
  fold_left serve rqs st.

(** The slot invariant of the data model, as two parts: the capacity part
    and the constraint on the times. *)
Definition capacityInvariant (s : MentorshipSlot) : Prop :=
  1 <= maxStudents s /\
  0 <= currentBookings s <= maxStudents s /\
  (slot_status s = FULL <-> currentBookings s = maxStudents s).

Definition timesOrdered (s : MentorshipSlot) : Prop :=
  String.ltb (slotStart s) (slotEnd s) = true.

Definition slotInvariant (s : MentorshipSlot) : Prop :=
  capacityInvariant s /\ timesOrdered s.

(** ** Strings and sorting *)

(** [c.toLowerCase()] on an ASCII letter. *)
Definition lowerAscii (c : ascii) : ascii :=
  let n := nat_of_ascii c in
  if ((65 <=? n) && (n <=? 90))%nat then ascii_of_nat (n + 32) else c.

Fixpoint toLowerCase (s : string) : string :=
  match s with
  | EmptyString => EmptyString
  | String c s' => String (lowerAscii c) (toLowerCase s')
  end.

(** [s.includes(sub)]: [sub] occurs in [s] at some offset. *)
Fixpoint strIncludes (s sub : string) : bool :=
  String.prefix sub s ||
  match s with
  | EmptyString => false
  | String _ s' => strIncludes s' sub
  end.

(** The class [\s] on ASCII: tab, line feed, vertical tab, form feed,
    carriage return and space. *)
Definition isSpace (c : ascii) : bool :=
  let n := nat_of_ascii c in
  ((9 <=? n) && (n <=? 13) || (n =? 32))%nat.

(** [s.split(/\s+/)]: the pieces between maximal runs of white space; a
    leading or trailing run leaves an empty piece. [cur] is the piece being
    read, [sep] says that the previous character was white space. *)
Fixpoint splitGo (cur : string) (sep : bool) (s : string) : list string :=
  match s with
  | EmptyString => [cur]
  | String c s' =>
      if isSpace c
      then if sep then splitGo cur true s' else cur :: splitGo EmptyString true s'
      else splitGo (cur ++ String c EmptyString) false s'
  end.

Definition splitWhitespace (s : string) : list string := splitGo EmptyString false s.

(** [arr.sort(cmp)] for a comparator whose sign orders the elements: the
    sort is stable, so it is the insertion of every element, from the last
    to the first, in front of the first element that must not precede it. *)
Section Sort.
Context {A : Type} (cmp : A -> A -> Z).

Fixpoint insertSorted (x : A) (l : list A) : list A :=
  match l with
  | [] => [x]
  | y :: l' => if 0 <? cmp x y then y :: insertSorted x l' else x :: l
  end.

Definition sortWith (l : list A) : list A := fold_right insertSorted [] l.
End Sort.

(** The comparator [(a, b) => key(b) - key(a)] of both sorts, and the
    order it produces. *)
Definition byKeyDesc {A} (key : A -> Z) (a b : A) : Z := key b - key a.

Definition descending {A} (key : A -> Z) (l : list A) : Prop :=
  StronglySorted (fun a b => key b <= key a) l.

(** [arr.slice(from, to)] for [0 <= from <= to]. *)
Definition slice {A} (from to : nat) (l : list A) : list A :=
  firstn (to - from) (skipn from l).

(** ** PlacementBot (POST /api/bot/ask) *)

Definition faqs : list FAQ :=
  [ {| faq_id := 1;
       question := "What is the minimum CGPA requirement?";
       answer := "The minimum CGPA requirement varies by company. Most companies require a minimum of 7.0 CGPA, but some may accept lower. Check individual drive details for specific requirements.";
       tags := ["cgpa"; "requirement"; "eligibility"];
       category := "eligibility" |};
    {| faq_id := 2;
       question := "Can I apply with backlogs?";
       answer := "Some companies allow applications with backlogs, typically up to 2-3 active backlogs. Check the drive details for the maximum allowed backlogs.";
       tags := ["backlogs"; "eligibility"];
       category := "eligibility" |};
    {| faq_id := 3;
       question := "When is the interview scheduled?";
       answer := "Interview dates are typically communicated via email/SMS after you apply. Check your Application Tracker for the latest status and interview schedule.";
       tags := ["interview"; "schedule"; "date"];
       category := "application" |};
    {| faq_id := 4;
       question := "Where will the interview be conducted?";
       answer := "Interview venues are usually communicated along with the interview schedule. Most interviews are conducted on campus, but some companies may conduct online interviews. Check your application details for venue information.";
       tags := ["venue"; "location"; "interview"];
       category := "application" |};
    {| faq_id := 5;
       question := "How do I check my application status?";
       answer := "You can check your application status in the Application Tracker section of your dashboard. It will show whether your application is Applied, Interview Scheduled, Selected, or Rejected.";
       tags := ["status"; "application"; "tracker"];
       category := "application" |} ].

(** The score of one FAQ: the two [forEach] loops of the [map] callback. *)
Definition tagScore (query : string) (faq : FAQ) : Z :=
  fold_left (fun score tag =>
               if strIncludes query (toLowerCase tag) then score + 2 else score)
            (tags faq) 0.

Definition wordScore (query : string) (faq : FAQ) (score0 : Z) : Z :=
  fold_left (fun score word =>
               if strIncludes (toLowerCase (question faq)) word then score + 1 else score)
            (splitWhitespace query) score0.

Definition faqScore (query : string) (faq : FAQ) : Z :=
  wordScore query faq (tagScore query faq).

(** [{ ...faq, score }] *)
Definition Scored : Type := FAQ * Z.

Definition matchedFAQs (corpus : list FAQ) (query : string) : list Scored :=
  sortWith (byKeyDesc snd)
    (List.filter (fun f => 0 <? snd f)
       (map (fun faq => (faq, faqScore query faq)) corpus)).

Definition fallbackAnswer : string :=
  "I couldn't find a specific answer to your question. Please contact the Placement Office for assistance.".

(** [relatedFAQs] holds whole FAQs in the fallback reply and
    [{ question, answer }] pairs otherwise. *)
Inductive Related :=
| WholeFAQs (fs : list FAQ)
| QuestionsAndAnswers (qas : list (string * string)).

Record BotReply := {
  bot_answer : string;
  relatedFAQs : Related
}.

(** The handler over a corpus; the served one is [ask faqs]. *)
Definition ask (corpus : list FAQ) (q : string) : Response BotReply :=
  if String.eqb q "" then Failure Validation "Question is required"
  else
    let query := toLowerCase q in
    let matched := matchedFAQs corpus query in
    match matched with
    | [] => Json OK {| bot_answer := fallbackAnswer;
                       relatedFAQs := WholeFAQs (slice 0 3 corpus) |}
    | bestMatch :: _ =>
        Json OK {| bot_answer := answer (fst bestMatch);
                   relatedFAQs :=
                     QuestionsAndAnswers
                       (map (fun f => (question (fst f), answer (fst f)))
                            (slice 1 4 matched)) |}
    end.

(** ** Analytics (GET /api/analytics/stats and GET /api/analytics/skill-gap) *)

(** A JS number in arithmetic: a double, with the operations of IEEE 754
    binary64 (53 bits of precision, round to nearest even). *)
Definition double : Type := spec_float.

(** The double of an integer (exact below [2^53]). *)
Definition toDouble (z : Z) : double := binary_normalize 53 1024 z 0 false.

Definition divide (x y : double) : double := SFdiv 53 1024 x y.

Definition times (x y : double) : double := SFmul 53 1024 x y.

(** The value [m * 2^e] of a finite double. *)
Definition magnitude (m : positive) (e : Z) : Q :=
  if 0 <=? e then inject_Z (Zpos m * 2 ^ e) else Zpos m # Z.to_pos (2 ^ (- e)).

(** The nearest integer to [x], the larger one at a tie. *)
Definition roundHalfUp (x : Q) : Z := Qfloor (x + (1 # 2)).

Fixpoint padStart (width : nat) (s : string) : string :=
  match width with
  | O => s
  | S w => if (String.length s <? width)%nat then padStart w ("0" ++ s) else s
  end.

(** The integer [n >= 0] of tenths, hundredths, ... written with [digits]
    decimals. *)
Definition decimal (digits : nat) (n : Z) : string :=
  match digits with
  | O => pretty n
  | _ =>
      let scale := 10 ^ Z.of_nat digits in
      pretty (n / scale) ++ "." ++ padStart digits (pretty (n mod scale))
  end.

(** [x.toFixed(digits)] for a double below [10^21]: the decimal with
    [digits] decimals that is nearest to the value of the double, the
    larger one at a tie. *)
Definition toFixed (digits : nat) (x : double) : string :=
  match x with
  | S754_nan => "NaN"
  | S754_infinity negative => if negative then "-Infinity" else "Infinity"
  | S754_zero _ => decimal digits 0
  | S754_finite negative m e =>
      (if negative then "-" else "")
      ++ decimal digits (roundHalfUp (magnitude m e * inject_Z (10 ^ Z.of_nat digits)))
  end.

(** [count / all * 100] *)
Definition percent (count all : Z) : double :=
  times (divide (toDouble count) (toDouble all)) (toDouble 100).

Record BranchStat := {
  total : Z;
  placed : Z
}.

Definition isSelected (a : Application) : bool :=
  bool_decide (app_status a = SELECTED).

(** The body of [studentProfiles.forEach] in the stats handler; the object
    [branchStats] is a finite map from branch names to counters (branch
    names are taken not to collide with the members every JS object
    inherits, such as [constructor]: see [ownName]). *)
Definition countProfile (apps : list Application)
    (branchStats : gmap string BranchStat) (profile : StudentProfile)
  : gmap string BranchStat :=
  let branch := if String.eqb (branch profile) "" then "Unknown" else branch profile in
  let created :=
    match branchStats !! branch with
    | None => <[branch := {| total := 0; placed := 0 |}]> branchStats
    | Some _ => branchStats
    end in
  let counted :=
    alter (fun b => {| total := total b + 1; placed := placed b |}) branch created in
  let studentApps :=
    List.filter (fun a => (studentId a =? userId profile) && isSelected a) apps in
  if (0 <? length studentApps)%nat
  then alter (fun b => {| total := total b; placed := placed b + 1 |}) branch counted
  else counted.

Definition branchStatsOf (st : Store) : gmap string BranchStat :=
  fold_left (countProfile (applications st)) (studentProfiles st) ∅.

(** [placementRate] is the string that [toFixed(2)] returns, or the number
    [0] when there is no student. *)
Inductive Rate :=
| RateText (text : string)
| RateZero.

Record Stats := {
  totalStudents : nat;
  totalDrives : nat;
  totalApplications : nat;
  selectedCount : nat;
  placementRate : Rate;
  branchStats : gmap string BranchStat
}.

Definition stats (st : Store) : Response Stats :=
  let totalStudents := length (studentProfiles st) in
  let selectedCount := length (List.filter isSelected (applications st)) in
  Json OK {| totalStudents := totalStudents;
             totalDrives := length (drives st);
             totalApplications := length (applications st);
             selectedCount := selectedCount;
             placementRate :=
               if (0 <? totalStudents)%nat
               then RateText (toFixed 2 (percent (Z.of_nat selectedCount)
                                                 (Z.of_nat totalStudents)))
               else RateZero;
             branchStats := branchStatsOf st |}.

(** [applications.filter(SELECTED).map(a => profile of a.studentId).filter(p => p)]:
    one entry per SELECTED application whose student has a profile. *)
Definition placedStudents (st : Store) : list StudentProfile :=
  omap (fun a => find (fun p => userId p =? studentId a) (studentProfiles st))
       (List.filter isSelected (applications st)).

(** [freq[k] = (freq[k] || 0) + 1] on an object whose entries are listed in
    insertion order (keys that read as array indices, which JS lists first,
    are not told apart), for a key [k] that is [ownName]. *)
Fixpoint bump (k : string) (freq : list (string * Z)) : list (string * Z) :=
  match freq with
  | [] => [(k, 1)]
  | (k', n) :: rest =>
      if String.eqb k k' then (k', n + 1) :: rest else (k', n) :: bump k rest
  end.

Definition countSkills (freq : list (string * Z)) (student : StudentProfile)
  : list (string * Z) :=
  fold_left (fun freq skill => bump (toLowerCase skill) freq) (skills student) freq.

Definition skillFrequency (placedList : list StudentProfile) : list (string * Z) :=
  fold_left countSkills placedList [].

(** [percentage] is the string that [toFixed(1)] returns. *)
Record Recommendation := {
  skill : string;
  frequency : Z;
  percentage : string;
  recommendation : string
}.

(** [(count / placedStudents.length) * 100] *)
Definition share (count : Z) (placedCount : nat) : double :=
  percent count (Z.of_nat placedCount).

Definition recommend (placedCount : nat) (entry : string * Z) : Recommendation :=
  let '(skill, count) := entry in
  {| skill := skill;
     frequency := count;
     percentage := toFixed 1 (share count placedCount);
     recommendation :=
       toFixed 0 (share count placedCount)
       ++ "% of placed students have " ++ skill ++ ". Consider learning this skill." |}.

Definition skillGap (st : Store) (uid : Z) : Response (list Recommendation) :=
  match find (fun p => userId p =? uid) (studentProfiles st) with
  | None => Json OK []
  | Some profile =>
      let placedList := placedStudents st in
      let studentSkills := map toLowerCase (skills profile) in
      Json OK
        (map (recommend (length placedList))
           (slice 0 5
              (sortWith (byKeyDesc snd)
                 (List.filter (fun e => negb (includes studentSkills (fst e)))
                    (skillFrequency placedList)))))
  end.


(** ** Student profile (GET and PUT /api/students/profile) *)

(** The outcome of evaluating an expression: a value, or a thrown error. *)
Inductive Completion (A : Type) : Type :=
| Normal (a : A)
| Throw (err : string).
Arguments Normal {A} a.
Arguments Throw {A} err.

Definition bind {A B} (c : Completion A) (k : A -> Completion B) : Completion B :=
  match c with
  | Normal a => k a
  | Throw e => Throw e
  end.

Notation "'let*' x := c 'in' k" := (bind c (fun x => k))
  (at level 10, x name, c at level 100, k at level 200, only parsing).

(** The request body of the PUT, after the conversions the handler applies
    to each field it reads: [parseFloat(cgpa)], [parseInt(currentBacklogs)]
    ([None] for [NaN]), [Array.isArray] ([None] when it is false), and for
    [projects] a string, an array of lines, or neither. *)
Record ProfileBody := {
  body_branch : string;
  body_cgpa : option Q;
  body_currentBacklogs : option Z;
  body_skills : option (list string);
  body_experience : string;
  body_projects : option (string + list string);
  body_education : option (list string);
  body_personalInfo : option (list (string * string))
}.

(** The names bound where the profile object is built: the destructuring
    [const { branch, cgpa, currentBacklogs, skills, projects, education,
    personalInfo } = req.body], the handler's own bindings, and the
    bindings of the module. *)
Definition destructured : list string :=
  ["branch"; "cgpa"; "currentBacklogs"; "skills"; "projects"; "education";
   "personalInfo"].

Definition putProfileScope : list string :=
  destructured ++ ["req"; "res"; "existingIndex"] ++
  ["express"; "cors"; "bcrypt"; "jwt"; "JWT_SECRET"; "PORT"; "ALLOWED_ORIGINS";
   "authRequired"; "requireRole"; "app"; "users"; "nextUserId";
   "studentProfiles"; "drives"; "nextDriveId"; "applications";
   "nextApplicationId"; "alumniJobs"; "nextJobId"; "mentorshipSlots";
   "nextSlotId"; "mentorshipBookings"; "nextBookingId"; "faqs";
   "generateToken"].

(** Reading the identifier [x]: its value when a binding is in scope, a
    ReferenceError otherwise. *)
Definition readVar {A} (x : string) (v : A) : Completion A :=
  if includes putProfileScope x then Normal v
  else Throw ("ReferenceError: " ++ x ++ " is not defined").

(** [lines.join('\n')] *)
Definition joinLines (lines : list string) : string :=
  match lines with
  | [] => ""
  | l :: ls => fold_left (fun acc x => (acc ++ String "010"%char x)%string) ls l
  end.

(** The object literal [const profile = { ... }], field by field in source
    order (the time stamps are left out of [StudentProfile]). *)
Definition buildProfile (uid : Z) (body : ProfileBody) : Completion StudentProfile :=
  let* branch := readVar "branch" (body_branch body) in
  let* cgpa := readVar "cgpa" (body_cgpa body) in
  let* currentBacklogs := readVar "currentBacklogs" (body_currentBacklogs body) in
  let* skills := readVar "skills" (body_skills body) in
  let* experience := readVar "experience" (body_experience body) in
  let* projects := readVar "projects" (body_projects body) in
  let* education := readVar "education" (body_education body) in
  let* personalInfo := readVar "personalInfo" (body_personalInfo body) in
  Normal {| userId := uid;
            branch := branch;
            cgpa := orZeroQ cgpa;
            currentBacklogs := orZero currentBacklogs;
            skills := default [] skills;
            experience := experience;
            projects := match projects with
                        | Some (inl text) => text
                        | Some (inr lines) => joinLines lines
                        | None => ""
                        end;
            education := default [] education;
            personalInfo := default [] personalInfo |}.

Definition setProfiles (st : Store) (ps : list StudentProfile) : Store :=
  {| users := users st;
     studentProfiles := ps;
     drives := drives st;
     nextDriveId := nextDriveId st;
     applications := applications st;
     nextApplicationId := nextApplicationId st;
     mentorshipSlots := mentorshipSlots st;
     nextSlotId := nextSlotId st;
     mentorshipBookings := mentorshipBookings st;
     nextBookingId := nextBookingId st |}.

(** [studentProfiles.findIndex(p => p.userId === uid)] *)
Fixpoint findIndex (uid : Z) (ps : list StudentProfile) : option nat :=
  match ps with
  | [] => None
  | p :: rest => if userId p =? uid then Some 0%nat else S <$> findIndex uid rest
  end.

(** The PUT handler: everything happens inside [try], and the [catch]
    answers 500 without touching the table. *)
Definition putProfile (st : Store) (uid : Z) (body : ProfileBody)
  : Store * Response StudentProfile :=
  let existingIndex := findIndex uid (studentProfiles st) in
  match buildProfile uid body with
  | Throw _ => (st, Failure InternalError "Internal server error")
  | Normal profile =>
      match existingIndex with
      | Some i => (setProfiles st (<[i := profile]> (studentProfiles st)), Json OK profile)
      | None => (setProfiles st (studentProfiles st ++ [profile]), Json OK profile)
      end
  end.

(** The GET handler answers the stored profile, or an empty one that it
    does not store. *)
Definition getProfile (st : Store) (uid : Z) : Store * Response StudentProfile :=
  match find (fun p => userId p =? uid) (studentProfiles st) with
  | None =>
      (st, Json OK {| userId := uid; branch := ""; cgpa := 0%Q; currentBacklogs := 0;
                      skills := []; experience := ""; projects := "";
                      education := [];
                      personalInfo := [("address", ""); ("linkedin", ""); ("github", "")] |})
  | Some profile => (st, Json OK profile)
  end.

(** The three criteria of a drive, as the specification words them. *)
Definition meetsCriteria (profile : StudentProfile) (drive : Drive) : Prop :=
  (minCgpa drive <= cgpa profile)%Q /\
  currentBacklogs profile <= maxBacklogs drive /\
  (allowedBranches drive = [] \/ In (branch profile) (allowedBranches drive)).

(** ** Sample data: the scenario of the specification and small stores *)

Definition csDrive : Drive :=
  {| drive_id := 1; companyName := "Acme"; roleTitle := "SDE";
     minCgpa := 7%Q; maxBacklogs := 0; allowedBranches := ["CS"];
     applicationDeadline := Some "2020-01-01"; createdBy := 900;
     drive_status := ACTIVE |}.

Definition closedDrive : Drive :=
  {| drive_id := 2; companyName := "Globex"; roleTitle := "Analyst";
     minCgpa := 9.5%Q; maxBacklogs := 0; allowedBranches := ["Electronics"];
     applicationDeadline := Some "2020-01-01"; createdBy := 900;
     drive_status := CLOSED |}.

Definition csStudent : StudentProfile :=
  {| userId := 7; branch := "CS"; cgpa := 7.5%Q; currentBacklogs := 0;
     skills := ["JavaScript"; "React"]; experience := "Academic projects";
     projects := "Built a demo application"; education := []; personalInfo := [] |}.

Definition emptyStore : Store :=
  {| users := []; studentProfiles := []; drives := []; nextDriveId := 1;
     applications := []; nextApplicationId := 1;
     mentorshipSlots := []; nextSlotId := 1;
     mentorshipBookings := []; nextBookingId := 1 |}.

Definition drivesStore : Store :=
  {| users := []; studentProfiles := [csStudent]; drives := [csDrive; closedDrive];
     nextDriveId := 3; applications := []; nextApplicationId := 1;
     mentorshipSlots := []; nextSlotId := 1;
     mentorshipBookings := []; nextBookingId := 1 |}.

(** Wording of the application claims: a drive with that id exists; the
    student already has an application for the drive. *)
Definition driveExists (st : Store) (id : Z) : Prop :=
  exists d, In d (drives st) /\ drive_id d = id.

Definition alreadyApplied (st : Store) (uid id : Z) : Prop :=
  exists a, In a (applications st) /\ driveId a = id /\ studentId a = uid.

Definition withDeadline (d : Drive) (deadline : option string) : Drive :=
  {| drive_id := drive_id d; companyName := companyName d; roleTitle := roleTitle d;
     minCgpa := minCgpa d; maxBacklogs := maxBacklogs d;
     allowedBranches := allowedBranches d; applicationDeadline := deadline;
     createdBy := createdBy d; drive_status := drive_status d |}.

(** Wording of the booking claims: the student holds a booking on the slot. *)
Definition holdsBooking (st : Store) (uid id : Z) : Prop :=
  exists b, In b (mentorshipBookings st) /\ slotId b = id /\ booking_studentId b = uid.

(** A slot request whose [maxStudents], when it parses, is not negative. *)
Definition capacityNotNegative (rq : SlotRequest) : Prop :=
  match rq with
  | CreateSlot _ _ _ (Some m) _ => 0 <= m
  | _ => True
  end.

(** A slot for two students, one for a single student, and a slot whose
    end precedes its start. *)
Definition pairSlotRequests : list SlotRequest :=
  [ CreateSlot 900 "2026-01-10T10:00" "2026-01-10T11:00" (Some 2) "Mock interview";
    BookSlot 7 1 "2026-01-02T09:00:00.000Z" ].

Definition singleSlotRequests : list SlotRequest :=
  [ CreateSlot 900 "2026-01-10T10:00" "2026-01-10T11:00" (Some 1) "Resume review";
    BookSlot 7 1 "2026-01-02T09:00:00.000Z" ].

Definition backwardsSlotRequests : list SlotRequest :=
  [ CreateSlot 900 "2026-01-10T11:00" "2026-01-10T10:00" (Some 2) "Mock interview" ].

(** What the code keeps of the slot invariant. *)
Definition slotKept (s : MentorshipSlot) : Prop :=
  capacityInvariant s /\ slotStart s <> "" /\ slotEnd s <> "".

(** The stores after the slot is created, and after student 7 booked it. *)
Definition pairSlotStore : Store := serveAll emptyStore (firstn 1 pairSlotRequests).
Definition pairSlotBooked : Store := serveAll emptyStore pairSlotRequests.
Definition singleSlotBooked : Store := serveAll emptyStore singleSlotRequests.

(** Wording of the analytics claims: the bucket of a profile, and a
    student with at least one SELECTED application. *)
Definition bucketOf (profile : StudentProfile) : string :=
  if String.eqb (branch profile) "" then "Unknown" else branch profile.

Definition isPlaced (apps : list Application) (profile : StudentProfile) : bool :=
  existsb (fun a => (studentId a =? userId profile) && isSelected a) apps.

Definition selectedApplication (id : Z) (student drive : Z) : Application :=
  {| app_id := id; driveId := drive; studentId := student; app_status := SELECTED;
     appliedAt := "2026-01-01T10:00:00.000Z"; updatedAt := "2026-01-05T10:00:00.000Z" |}.

(** Student 7 is SELECTED by two drives. *)
Definition twiceSelectedStore : Store :=
  {| users := []; studentProfiles := [csStudent]; drives := [csDrive; closedDrive];
     nextDriveId := 3;
     applications := [selectedApplication 1 7 1; selectedApplication 2 7 2];
     nextApplicationId := 3;
     mentorshipSlots := []; nextSlotId := 1;
     mentorshipBookings := []; nextBookingId := 1 |}.

Definition inBucket (b : string) (profile : StudentProfile) : bool :=
  String.eqb (bucketOf profile) b.

(** Wording of the skill-gap claims: the count stored for a key, the
    lower-cased skills of the placed entries, and the occurrences of a key
    in a list. *)
Fixpoint lookupFreq (k : string) (freq : list (string * Z)) : Z :=
  match freq with
  | [] => 0
  | (k', n) :: rest => if String.eqb k k' then n else lookupFreq k rest
  end.

Definition occurrences (k : string) (l : list string) : Z :=
  Z.of_nat (length (List.filter (String.eqb k) l)).

Definition allSkills (placedList : list StudentProfile) : list string :=
  flat_map (fun p => map toLowerCase (skills p)) placedList.

(** Student 7 (JavaScript, React) is SELECTED twice, student 9 (Python)
    once; student 8 asks for the skill gap. *)
Definition pythonStudent : StudentProfile :=
  {| userId := 9; branch := "CS"; cgpa := 8%Q; currentBacklogs := 0;
     skills := ["Python"]; experience := ""; projects := "";
     education := []; personalInfo := [] |}.

Definition newStudent : StudentProfile :=
  {| userId := 8; branch := "CS"; cgpa := 8%Q; currentBacklogs := 0;
     skills := ["REACT"]; experience := ""; projects := "";
     education := []; personalInfo := [] |}.

Definition skillStore : Store :=
  {| users := []; studentProfiles := [csStudent; newStudent; pythonStudent];
     drives := [csDrive; closedDrive]; nextDriveId := 3;
     applications := [selectedApplication 1 7 1; selectedApplication 2 7 2;
                      selectedApplication 3 9 1];
     nextApplicationId := 4;
     mentorshipSlots := []; nextSlotId := 1;
     mentorshipBookings := []; nextBookingId := 1 |}.

(** A placed student whose profile lists one skill in two spellings. *)
Definition javaStudent : StudentProfile :=
  {| userId := 9; branch := "CS"; cgpa := 8%Q; currentBacklogs := 0;
     skills := ["Java"; "java"]; experience := ""; projects := "";
     education := []; personalInfo := [] |}.

Definition repeatedSkillStore : Store :=
  {| users := []; studentProfiles := [newStudent; javaStudent];
     drives := [csDrive]; nextDriveId := 2;
     applications := [selectedApplication 1 9 1]; nextApplicationId := 2;
     mentorshipSlots := []; nextSlotId := 1;
     mentorshipBookings := []; nextBookingId := 1 |}.

(** The body a student submits from the profile form. *)
Definition submittedBody : ProfileBody :=
  {| body_branch := "CS";
     body_cgpa := Some 8.2%Q;
     body_currentBacklogs := Some 0;
     body_skills := Some ["Python"];
     body_experience := "Summer internship";
     body_projects := Some (inl "Placement portal");
     body_education := Some [];
     body_personalInfo := Some [] |}.

(** The profile requests a student can send. *)
Inductive ProfileRequest :=
| GetProfile (uid : Z)
| PutProfile (uid : Z) (body : ProfileBody).

Definition serveProfile (st : Store) (rq : ProfileRequest) : Store :=
  match rq with
  | GetProfile uid => fst (getProfile st uid)
  | PutProfile uid body => fst (putProfile st uid body)
  end.

(** ** Creating a drive (POST /api/tpo/drives) *)

Definition pushDrive (st : Store) (d : Drive) : Store :=
  {| users := users st;
     studentProfiles := studentProfiles st;
     drives := drives st ++ [d];
     nextDriveId := nextDriveId st + 1;
     applications := applications st;
     nextApplicationId := nextApplicationId st;
     mentorshipSlots := mentorshipSlots st;
     nextSlotId := nextSlotId st;
     mentorshipBookings := mentorshipBookings st;
     nextBookingId := nextBookingId st |}.

(** [nextDriveId++] without a push: what is left of a create that throws
    while the object literal is evaluated. *)
Definition skipDriveId (st : Store) : Store :=
  {| users := users st;
     studentProfiles := studentProfiles st;
     drives := drives st;
     nextDriveId := nextDriveId st + 1;
     applications := applications st;
     nextApplicationId := nextApplicationId st;
     mentorshipSlots := mentorshipSlots st;
     nextSlotId := nextSlotId st;
     mentorshipBookings := mentorshipBookings st;
     nextBookingId := nextBookingId st |}.

(** The body of the POST, with what the conversions of the handler make of
    it: [minCgpa] is [None] when the field is [undefined] and otherwise
    holds the outcome of [parseFloat(minCgpa)]; [maxBacklogs] holds the
    outcome of [parseInt(maxBacklogs)]. Such an outcome is a number, [None]
    for [NaN], or the [TypeError] thrown for a value without a primitive
    form (the object [{"toString": 1}]). [allowedBranches] is [None] unless
    [Array.isArray]; an empty string stands for a missing text. The texts
    that the handlers only copy (description, location, ctc) are not part
    of [Drive]. *)
Record DriveBody := {
  new_companyName : string;
  new_roleTitle : string;
  new_minCgpa : option (Completion (option Q));
  new_maxBacklogs : Completion (option Z);
  new_allowedBranches : option (list string);
  new_applicationDeadline : string
}.

(** The object literal is evaluated in order: [id: nextDriveId++] comes
    before the two conversions, so a conversion that throws leaves the
    counter advanced, and the [catch] answers 500. *)
Definition buildDrive (st : Store) (uid : Z) (body : DriveBody) : Completion Drive :=
  let* minCgpaParsed := default (Normal None) (new_minCgpa body) in
  let* maxBacklogsParsed := new_maxBacklogs body in
  Normal {| drive_id := nextDriveId st;
            companyName := new_companyName body;
            roleTitle := new_roleTitle body;
            minCgpa := orZeroQ minCgpaParsed;
            maxBacklogs := orZero maxBacklogsParsed;
            allowedBranches := default [] (new_allowedBranches body);
            applicationDeadline :=
              if String.eqb (new_applicationDeadline body) "" then None
              else Some (new_applicationDeadline body);
            createdBy := uid;
            drive_status := ACTIVE |}.

Definition createDrive (st : Store) (uid : Z) (body : DriveBody)
  : Store * Response Drive :=
  if String.eqb (new_companyName body) "" || negb (bool_decide (is_Some (new_minCgpa body)))
  then (st, Failure Validation "Company name and minimum CGPA are required")
  else
    match buildDrive st uid body with
    | Normal drive => (pushDrive st drive, Json Created drive)
    | Throw _ => (skipDriveId st, Failure InternalError "Internal server error")
    end.

(** ** Creating a slot from any body (POST /api/alumni/mentorship-slots) *)

Definition skipSlotId (st : Store) : Store :=
  {| users := users st;
     studentProfiles := studentProfiles st;
     drives := drives st;
     nextDriveId := nextDriveId st;
     applications := applications st;
     nextApplicationId := nextApplicationId st;
     mentorshipSlots := mentorshipSlots st;
     nextSlotId := nextSlotId st + 1;
     mentorshipBookings := mentorshipBookings st;
     nextBookingId := nextBookingId st |}.

(** The handler with the outcome of [parseInt(maxStudents)]: it is
    [createSlot] when the conversion gives a number or [NaN]; when it
    throws, [id: nextSlotId++] has been evaluated already, nothing is
    pushed, and the [catch] answers 500. *)
Definition postSlot (st : Store) (uid : Z) (start finish : string)
    (maxStudentsParsed : Completion (option Z)) (descr : string)
  : Store * Response MentorshipSlot :=
  match maxStudentsParsed with
  | Normal parsed => createSlot st uid start finish parsed descr
  | Throw _ =>
      if String.eqb start "" || String.eqb finish ""
      then (st, Failure Validation "Slot start and end times are required")
      else (skipSlotId st, Failure InternalError "Internal server error")
  end.

(** ** The applications of a student (GET /api/students/applications) *)

Record DriveSummary := {
  ds_id : Z;
  ds_companyName : string;
  ds_roleTitle : string
}.

(** Each application with [drive: { ... }] or [drive: null]. *)
Definition applicationsFor (st : Store) (uid : Z)
  : Response (list (Application * option DriveSummary)) :=
  Json OK
    (map (fun app =>
            (app,
             (fun drive => {| ds_id := drive_id drive;
                              ds_companyName := companyName drive;
                              ds_roleTitle := roleTitle drive |})
               <$> find (fun d => drive_id d =? driveId app) (drives st)))
         (List.filter (fun a => studentId a =? uid) (applications st))).

(** ** Listing slots (GET /api/mentorship/available-slots and
       GET /api/alumni/mentorship-slots) *)

(** [user?.name || fallback] *)
Definition nameOr (fallback : string) (user : option User) : string :=
  match user with
  | Some u => if String.eqb (name u) "" then fallback else name u
  | None => fallback
  end.

Definition slotIsOpen (slot : MentorshipSlot) : bool :=
  bool_decide (slot_status slot = AVAILABLE) && (currentBookings slot <? maxStudents slot).

(** Each open slot with [alumniName]. *)
Definition availableSlots (st : Store) : Response (list (MentorshipSlot * string)) :=
  Json OK
    (map (fun slot =>
            (slot, nameOr "Alumni" (find (fun u => user_id u =? alumniUserId slot) (users st))))
         (List.filter slotIsOpen (mentorshipSlots st))).

Record BookingRow := {
  row_booking : MentorshipBooking;
  studentName : string;
  studentEmail : string
}.

(** Each slot of the alumnus with its [bookings]. *)
Definition mySlots (st : Store) (uid : Z)
  : Response (list (MentorshipSlot * list BookingRow)) :=
  Json OK
    (map (fun slot =>
            (slot,
             map (fun b =>
                    let student := find (fun u => user_id u =? booking_studentId b) (users st) in
                    {| row_booking := b;
                       studentName := nameOr "Student" student;
                       studentEmail := from_option email "" student |})
                 (List.filter (fun b => slotId b =? slot_id slot) (mentorshipBookings st))))
         (List.filter (fun slot => alumniUserId slot =? uid) (mentorshipSlots st))).

(** ** The requests that write to the store *)

(** Registration, which appends to [users] and to nothing else, is
    modelled on its own table ([Accounts]) below. *)
Inductive Request :=
| CreateDrive (uid : Z) (body : DriveBody)
| Apply (uid id : Z) (now : string)
| Mentorship (rq : SlotRequest)
| Profile (rq : ProfileRequest)
| PostSlot (uid : Z) (start finish : string) (maxStudentsParsed : Completion (option Z))
    (descr : string).

Definition handle (st : Store) (rq : Request) : Store :=
  match rq with
  | CreateDrive uid body => fst (createDrive st uid body)
  | Apply uid id now => fst (applyToDrive st uid id now)
  | Mentorship rq => serve st rq
  | Profile rq => serveProfile st rq
  | PostSlot uid start finish m descr => fst (postSlot st uid start finish m descr)
  end.

Definition handleAll (st : Store) (rqs : list Request) : Store :=
  fold_left handle rqs st.

(** The store when the server starts: users and profiles are seeded, the
    other tables are empty. *)
Definition freshStore (st : Store) : Prop :=
  drives st = [] /\ applications st = [] /\
  mentorshipSlots st = [] /\ mentorshipBookings st = [].

(** What the handlers keep of the drives, of the applications, and of the
    slots with their bookings. *)
Definition drivesKept (st : Store) : Prop :=
  NoDup (map drive_id (drives st)) /\
  forall d, In d (drives st) -> drive_id d < nextDriveId st /\ drive_status d = ACTIVE.

Definition applicationsKept (st : Store) : Prop :=
  NoDup (map (fun a => (driveId a, studentId a)) (applications st)) /\
  NoDup (map app_id (applications st)) /\
  forall a, In a (applications st) ->
    app_id a < nextApplicationId st /\ app_status a = APPLIED /\
    driveExists st (driveId a).

Definition bookingsOn (st : Store) (id : Z) : list MentorshipBooking :=
  List.filter (fun b => slotId b =? id) (mentorshipBookings st).

Definition slotsKept (st : Store) : Prop :=
  NoDup (map slot_id (mentorshipSlots st)) /\
  (forall s, In s (mentorshipSlots st) -> slot_id s < nextSlotId st) /\
  NoDup (map (fun b => (slotId b, booking_studentId b)) (mentorshipBookings st)) /\
  NoDup (map booking_id (mentorshipBookings st)) /\
  (forall b, In b (mentorshipBookings st) ->
     booking_id b < nextBookingId st /\ slotId b < nextSlotId st) /\
  forall s, In s (mentorshipSlots st) ->
    currentBookings s = Z.of_nat (length (bookingsOn st (slot_id s))).

(** A drive that asks for 6.5, on behalf of TPO 900. *)
Definition openDriveBody : DriveBody :=
  {| new_companyName := "Initech"; new_roleTitle := "Developer";
     new_minCgpa := Some (Normal (Some 6.5%Q)); new_maxBacklogs := Normal (Some 1);
     new_allowedBranches := None; new_applicationDeadline := "" |}.

Definition sampleRequests : list Request :=
  [ CreateDrive 900 openDriveBody;
    Apply 7 1 "2026-01-01T10:00:00.000Z";
    Apply 7 1 "2026-01-01T10:00:05.000Z";
    Mentorship (CreateSlot 901 "2026-01-10T10:00" "2026-01-10T11:00" (Some 1) "Resume review");
    Mentorship (BookSlot 7 1 "2026-01-02T09:00:00.000Z");
    Mentorship (BookSlot 8 1 "2026-01-02T09:01:00.000Z");
    Profile (PutProfile 8 submittedBody) ].

Definition seededStore : Store :=
  {| users := []; studentProfiles := [csStudent]; drives := []; nextDriveId := 1;
     applications := []; nextApplicationId := 1;
     mentorshipSlots := []; nextSlotId := 1;
     mentorshipBookings := []; nextBookingId := 1 |}.

Definition sampleStore : Store := handleAll seededStore sampleRequests.

(** What the handlers keep apart from the counters. *)
Definition sameTables (st st' : Store) : Prop :=
  users st' = users st /\ studentProfiles st' = studentProfiles st /\
  drives st' = drives st /\ applications st' = applications st /\
  mentorshipSlots st' = mentorshipSlots st /\
  mentorshipBookings st' = mentorshipBookings st.

(** The shapes of a step: nothing, one row pushed on one table (with the
    slot updated when the row is a booking), or an id skipped. *)
Inductive Effect (st : Store) : Store -> Prop :=
| NoEffect : Effect st st
| DrivePushed (d : Drive) :
    drive_id d = nextDriveId st -> drive_status d = ACTIVE ->
    Effect st (pushDrive st d)
| ApplicationPushed (a : Application) :
    app_id a = nextApplicationId st -> app_status a = APPLIED ->
    driveExists st (driveId a) -> ~ alreadyApplied st (studentId a) (driveId a) ->
    Effect st (pushApplication st a)
| SlotPushed (s : MentorshipSlot) :
    slot_id s = nextSlotId st -> currentBookings s = 0 -> slot_status s = AVAILABLE ->
    Effect st (pushSlot st s)
| BookingPushed (b : MentorshipBooking) (slot : MentorshipSlot) :
    booking_id b = nextBookingId st ->
    find (fun s => slot_id s =? slotId b) (mentorshipSlots st) = Some slot ->
    slot_status slot = AVAILABLE -> currentBookings slot < maxStudents slot ->
    ~ holdsBooking st (booking_studentId b) (slotId b) ->
    Effect st (pushBooking st b)
| DriveIdSkipped : Effect st (skipDriveId st)
| SlotIdSkipped : Effect st (skipSlotId st).

(** ** Job referrals (POST, GET and PATCH /api/alumni/jobs, GET /api/jobs) *)

(** The status of a job is the string the code stores: ['ACTIVE'] when the
    job is posted, then whatever the PATCH submits. *)
Record AlumniJob := {
  job_id : Z;
  job_alumniUserId : Z;
  job_companyName : string;
  jobTitle : string;
  job_description : string;
  job_location : string;
  job_ctc : string;
  applyLink : string;
  job_createdAt : string;
  expiryDate : option string;
  job_status : string
}.

(** The table [alumniJobs] and its counter. *)
Record JobBoard := {
  alumniJobs : list AlumniJob;
  nextJobId : Z
}.

(** The body of the POST; an empty string stands for a missing text. *)
Record JobBody := {
  post_companyName : string;
  post_jobTitle : string;
  post_description : string;
  post_location : string;
  post_ctc : string;
  post_applyLink : string;
  post_expiryDate : string
}.

Definition postJob (jb : JobBoard) (uid : Z) (body : JobBody) (now : string)
  : JobBoard * Response AlumniJob :=
  if String.eqb (post_companyName body) "" || String.eqb (post_jobTitle body) ""
  then (jb, Failure Validation "Company name and job title are required")
  else
    let job :=
      {| job_id := nextJobId jb;
         job_alumniUserId := uid;
         job_companyName := post_companyName body;
         jobTitle := post_jobTitle body;
         job_description := post_description body;
         job_location := post_location body;
         job_ctc := post_ctc body;
         applyLink := post_applyLink body;
         job_createdAt := now;
         expiryDate := if String.eqb (post_expiryDate body) "" then None
                       else Some (post_expiryDate body);
         job_status := "ACTIVE" |} in
    ({| alumniJobs := alumniJobs jb ++ [job]; nextJobId := nextJobId jb + 1 |},
     Json Created job).

(** Each ACTIVE job with [alumniName]. *)
Definition listActiveJobs (us : list User) (jb : JobBoard)
  : Response (list (AlumniJob * string)) :=
  Json OK
    (map (fun job =>
            (job, nameOr "Alumni" (find (fun u => user_id u =? job_alumniUserId job) us)))
         (List.filter (fun job => String.eqb (job_status job) "ACTIVE") (alumniJobs jb))).

Definition myJobs (jb : JobBoard) (uid : Z) : Response (list AlumniJob) :=
  Json OK (List.filter (fun job => job_alumniUserId job =? uid) (alumniJobs jb)).

Definition withStatus (job : AlumniJob) (status : string) : AlumniJob :=
  {| job_id := job_id job;
     job_alumniUserId := job_alumniUserId job;
     job_companyName := job_companyName job;
     jobTitle := jobTitle job;
     job_description := job_description job;
     job_location := job_location job;
     job_ctc := job_ctc job;
     applyLink := applyLink job;
     job_createdAt := job_createdAt job;
     expiryDate := expiryDate job;
     job_status := status |}.

(** [alumniJobs.findIndex(j => j.id === jobId && j.alumniUserId === uid)],
    then [alumniJobs[jobIndex].status = status] when [status] is truthy:
    the first job of that id and owner is the one that changes. *)
Fixpoint patchJob (jobId uid : Z) (status : string) (jobs : list AlumniJob)
  : option (list AlumniJob * AlumniJob) :=
  match jobs with
  | [] => None
  | j :: rest =>
      if (job_id j =? jobId) && (job_alumniUserId j =? uid)
      then
        let j' := if String.eqb status "" then j else withStatus j status in
        Some (j' :: rest, j')
      else
        match patchJob jobId uid status rest with
        | Some (rest', j') => Some (j :: rest', j')
        | None => None
        end
  end.

Definition setJobStatus (jb : JobBoard) (uid jobId : Z) (status : string)
  : JobBoard * Response AlumniJob :=
  match patchJob jobId uid status (alumniJobs jb) with
  | None => (jb, Failure NotFound "Job referral not found")
  | Some (jobs', job) =>
      ({| alumniJobs := jobs'; nextJobId := nextJobId jb |}, Json OK job)
  end.

Inductive JobRequest :=
| PostJob (uid : Z) (body : JobBody) (now : string)
| PatchJob (uid jobId : Z) (status : string).

Definition serveJob (jb : JobBoard) (rq : JobRequest) : JobBoard :=
  match rq with
  | PostJob uid body now => fst (postJob jb uid body now)
  | PatchJob uid jobId status => fst (setJobStatus jb uid jobId status)
  end.

Definition serveJobs (jb : JobBoard) (rqs : list JobRequest) : JobBoard :=
  fold_left serveJob rqs jb.

Definition emptyBoard : JobBoard := {| alumniJobs := []; nextJobId := 1 |}.

Definition internshipBody : JobBody :=
  {| post_companyName := "Hooli"; post_jobTitle := "Intern";
     post_description := ""; post_location := "Pune"; post_ctc := "";
     post_applyLink := ""; post_expiryDate := "" |}.

Definition jobRequests : list JobRequest :=
  [ PostJob 901 internshipBody "2026-01-01T10:00:00.000Z";
    PostJob 902 internshipBody "2026-01-01T11:00:00.000Z";
    PatchJob 902 1 "CLOSED";
    PatchJob 901 1 "closed" ].

Definition twoJobsBoard : JobBoard := serveJobs emptyBoard (firstn 2 jobRequests).

Definition internship901 : AlumniJob :=
  {| job_id := 1; job_alumniUserId := 901; job_companyName := "Hooli";
     jobTitle := "Intern"; job_description := ""; job_location := "Pune";
     job_ctc := ""; applyLink := ""; job_createdAt := "2026-01-01T10:00:00.000Z";
     expiryDate := None; job_status := "ACTIVE" |}.

(** ** Accounts (POST /api/auth/register, POST /api/auth/login,
       GET /api/auth/me) *)

(** [c.toUpperCase()] on an ASCII letter. *)
Definition upperAscii (c : ascii) : ascii :=
  let n := nat_of_ascii c in
  if ((97 <=? n) && (n <=? 122))%nat then ascii_of_nat (n - 32) else c.

Fixpoint toUpperCase (s : string) : string :=
  match s with
  | EmptyString => EmptyString
  | String c s' => String (upperAscii c) (toUpperCase s')
  end.

Definition roleName (r : Role) : string :=
  match r with
  | TPO => "TPO"
  | STUDENT => "STUDENT"
  | ALUMNI => "ALUMNI"
  end.

(** [['TPO', 'STUDENT', 'ALUMNI'].includes(normalizedRole)] *)
Definition roleOfName (s : string) : option Role :=
  if String.eqb s "TPO" then Some TPO
  else if String.eqb s "STUDENT" then Some STUDENT
  else if String.eqb s "ALUMNI" then Some ALUMNI
  else None.

(** A row of [users] with the hash that [User] leaves out, and the table
    with its counter. *)
Record Account := {
  account : User;
  passwordHash : string
}.

Record Accounts := {
  accountRows : list Account;
  nextUserId : Z
}.

(** [{ token, user }] *)
Record Session := {
  token : string;
  session_user : User
}.

(** The body of the register and login requests; an empty string stands
    for a missing field. *)
Record Credentials := {
  cred_name : string;
  cred_email : string;
  cred_phone : string;
  cred_password : string;
  cred_role : string
}.

(** [users.find(u => u.email.toLowerCase() === email.toLowerCase())] *)
Definition findByEmail (rows : list Account) (mail : string) : option Account :=
  find (fun a => String.eqb (toLowerCase (email (account a))) (toLowerCase mail)) rows.

Section Auth.
(** The libraries the handlers call: [bcrypt.hash(password, 10)], which
    draws a salt, [bcrypt.compare], and [jwt.sign] in [generateToken],
    which stamps the token with the time of the call ([iat], and [exp] two
    hours later). *)
Context (hash : string -> string -> string)
        (compare : string -> string -> bool)
        (sign : User -> Z -> string).

Definition register (tbl : Accounts) (salt : string) (now : Z) (body : Credentials)
  : Accounts * Response Session :=
  if String.eqb (cred_email body) "" || String.eqb (cred_password body) ""
     || String.eqb (cred_role body) ""
  then (tbl, Failure Validation "Email, password, and role are required")
  else
    match roleOfName (toUpperCase (cred_role body)) with
    | None => (tbl, Failure Validation "Invalid role")
    | Some normalizedRole =>
        match findByEmail (accountRows tbl) (cred_email body) with
        | Some existing => (tbl, Failure Conflict "User with this email already exists")
        | None =>
            let user :=
              {| user_id := nextUserId tbl;
                 name := cred_name body;
                 email := cred_email body;
                 phone := cred_phone body;
                 role := normalizedRole |} in
            ({| accountRows :=
                  accountRows tbl
                  ++ [{| account := user;
                         passwordHash := hash salt (cred_password body) |}];
                nextUserId := nextUserId tbl + 1 |},
             Json Created {| token := sign user now; session_user := user |})
        end
    end.

Definition login (tbl : Accounts) (now : Z) (body : Credentials) : Response Session :=
  if String.eqb (cred_email body) "" || String.eqb (cred_password body) ""
  then Failure Validation "Email and password are required"
  else
    match findByEmail (accountRows tbl) (cred_email body) with
    | None => Failure 401 "Invalid email or password"
    | Some a =>
        if negb (compare (cred_password body) (passwordHash a))
        then Failure 401 "Invalid email or password"
        else if negb (String.eqb (cred_role body) "")
                && negb (String.eqb (roleName (role (account a)))
                                    (toUpperCase (cred_role body)))
        then Failure 403 "You are not registered with this role"
        else Json OK {| token := sign (account a) now; session_user := account a |}
    end.

(** A sequence of registrations, each with its salt and its time. *)
Definition registerAll (tbl : Accounts) (rqs : list (string * Z * Credentials)) : Accounts :=
  fold_left (fun tbl '(salt, now, body) => fst (register tbl salt now body)) rqs tbl.
End Auth.

(** [users.find(u => u.id === req.user.id)] of GET /api/auth/me. *)
Definition me (tbl : Accounts) (uid : Z) : Response User :=
  match find (fun a => user_id (account a) =? uid) (accountRows tbl) with
  | None => Failure NotFound "User not found"
  | Some a => Json OK (account a)
  end.

(** What registration keeps of the table. *)
Definition accountsKept (tbl : Accounts) : Prop :=
  NoDup (map (fun a => toLowerCase (email (account a))) (accountRows tbl)) /\
  NoDup (map (fun a => user_id (account a)) (accountRows tbl)) /\
  forall a, In a (accountRows tbl) -> user_id (account a) < nextUserId tbl.

Definition noAccounts : Accounts := {| accountRows := []; nextUserId := 1 |}.

Definition adaCredentials : Credentials :=
  {| cred_name := "Ada"; cred_email := "Ada@Example.com"; cred_phone := "";
     cred_password := "s3cret"; cred_role := "student" |}.

(** Stand-ins for the libraries in the examples. *)
Definition plainHash (salt password : string) : string := password.

Definition plainCompare (password stored : string) : bool := String.eqb password stored.

Definition plainSign (u : User) (now : Z) : string := email u ++ " at " ++ pretty now.

(** The sum of one counter over the buckets of the branch statistics. *)
Definition sumOver (g : BranchStat -> Z) (m : gmap string BranchStat) : Z :=
  map_fold (fun _ b acc => g b + acc) 0 m.

(** ** The seeded students (the loop [for (let i = 1; i <= 142; i++)]) *)

Definition seedUser (i : nat) : User :=
  {| user_id := Z.of_nat i;
     name := "Test Student " ++ pretty i;
     email := "student" ++ pretty i ++ "@example.com";
     phone := "9876543210";
     role := STUDENT |}.

(** [random i] is the value that [Math.random()] returns in round [i]. *)
Definition seedProfile (random : nat -> Q) (i : nat) : StudentProfile :=
  {| userId := Z.of_nat i;
     branch := if (i mod 3 =? 0)%nat then "Electronics" else "Computer Science";
     cgpa := (7.5 + random i * 2.5)%Q;
     currentBacklogs := if (i mod 10 =? 0)%nat then 1 else 0;
     skills := ["JavaScript"; "React"];
     experience := "Academic projects";
     projects := "Built a demo application";
     education := [];
     personalInfo := [] |}.

Definition seedStore (random : nat -> Q) : Store :=
  {| users := map seedUser (seq 1 142);
     studentProfiles := map (seedProfile random) (seq 1 142);
     drives := []; nextDriveId := 1;
     applications := []; nextApplicationId := 1;
     mentorshipSlots := []; nextSlotId := 1;
     mentorshipBookings := []; nextBookingId := 1 |}.

(** ** The lists typed in the client forms
       ([text.split(',').map(s => s.trim()).filter(s => s)] in the drive
       and resume forms, without the filter in the React profile form) *)

(** [s.split(',')] *)
Fixpoint splitComma (s : string) : list string :=
  match s with
  | EmptyString => [EmptyString]
  | String c s' =>
      if Ascii.eqb c "," then EmptyString :: splitComma s'
      else match splitComma s' with
           | piece :: rest => String c piece :: rest
           | [] => [String c EmptyString]
           end
  end.

(** [s.trim()], white space being that of [isSpace] on ASCII. *)
Fixpoint trimStart (s : string) : string :=
  match s with
  | EmptyString => EmptyString
  | String c s' => if isSpace c then trimStart s' else s
  end.

Fixpoint trimEnd (s : string) : string :=
  match s with
  | EmptyString => EmptyString
  | String c s' =>
      match trimEnd s' with
      | EmptyString => if isSpace c then EmptyString else String c EmptyString
      | kept => String c kept
      end
  end.

Definition trim (s : string) : string := trimEnd (trimStart s).

(** The drive form and the resume form of [main.ts]. *)
Definition parseList (text : string) : list string :=
  List.filter (fun b => negb (String.eqb b "")) (map trim (splitComma text)).

(** The skills box of [StudentFeatures.tsx]: shown as [skills.join(', ')],
    read back as [text.split(',').map(s => s.trim())]. *)
Definition parseSkills (text : string) : list string := map trim (splitComma text).

Fixpoint joinWith (sep : string) (l : list string) : string :=
  match l with
  | [] => ""
  | x :: rest =>
      match rest with
      | [] => x
      | _ => x ++ sep ++ joinWith sep rest
      end
  end.

Fixpoint hasComma (s : string) : bool :=
  match s with
  | EmptyString => false
  | String c s' => Ascii.eqb c "," || hasComma s'
  end.

(** ** ASCII text *)

(** The strings of this file stand for JS strings of ASCII characters, on
    which [toLowerCase], [toUpperCase] and [\s] are what JS computes. *)
Definition asciiChar (c : ascii) : bool := (nat_of_ascii c <? 128)%nat.

Definition asciiText (s : string) : bool := forallb asciiChar (list_ascii_of_string s).


(** ** The scoring rule of the specification (section 4.5) *)












(** ** Names that every JS object inherits *)

(** The members of [Object.prototype]. Read through [obj[name]] on an
    object literal they are found although the object has no entry of that
    name, so the counting idioms [if (!obj[k]) obj[k] = ...] and
    [(obj[k] || 0) + 1] do not start such a key at zero. The finite maps of
    [countProfile] and [bump] are the objects [branchStats] and
    [skillFrequency] for keys that are none of these names. *)
Definition inheritedNames : list string :=
  [ "constructor"; "__proto__"; "toString"; "toLocaleString"; "valueOf";
    "hasOwnProperty"; "isPrototypeOf"; "propertyIsEnumerable";
    "__defineGetter__"; "__defineSetter__"; "__lookupGetter__"; "__lookupSetter__" ].

Definition ownName (k : string) : bool := negb (includes inheritedNames k).

(** * Properties *)

(** ** Numbers and strings *)

Lemma Qltb_false_iff (x y : Q) : Qltb x y = false <-> (y <= x)%Q.
Proof.
  unfold Qltb, Qle. rewrite Z.ltb_ge. reflexivity.
Qed.

Lemma includes_In (arr : list string) (x : string) :
  includes arr x = true <-> In x arr.
Proof.
  unfold includes. rewrite existsb_exists. split.
  - intros (y & Hy & Heq). apply String.eqb_eq in Heq. now subst.
  - intros Hin. exists x. split; [assumption | apply String.eqb_refl].
Qed.

Lemma includes_false (arr : list string) (x : string) :
  includes arr x = false <-> ~ In x arr.
Proof.
  rewrite <- includes_In. destruct (includes arr x); split; congruence.
Qed.

(** ** Eligibility *)

Lemma branchCheck_iff (drive : Drive) (profile : StudentProfile) :
  (0 <? length (allowedBranches drive))%nat
    && negb (includes (allowedBranches drive) (branch profile)) = false
  <-> allowedBranches drive = [] \/ In (branch profile) (allowedBranches drive).
Proof.
  rewrite andb_false_iff, negb_false_iff, includes_In. split.
  - intros [Hlen | Hin]; [left | now right].
    destruct (allowedBranches drive); [reflexivity | discriminate].
  - intros [Hnil | Hin]; [left | now right].
    now rewrite Hnil.
Qed.

Lemma eligibleStudentsFilter_iff (drive : Drive) (profile : StudentProfile) :
  eligibleStudentsFilter drive profile = true <-> meetsCriteria profile drive.
Proof.
  unfold eligibleStudentsFilter, meetsCriteria.
  rewrite <- Qltb_false_iff, <- Z.ltb_ge, <- branchCheck_iff.
  destruct (Qltb _ _), (maxBacklogs drive <? currentBacklogs profile), (_ && _);
    simpl; intuition congruence.
Qed.

Lemma eligibleDrivesFilter_split (profile : StudentProfile) (drive : Drive) :
  eligibleDrivesFilter profile drive
  = eligibleStudentsFilter drive profile && bool_decide (drive_status drive = ACTIVE).
Proof.
  unfold eligibleDrivesFilter, eligibleStudentsFilter.
  destruct (Qltb _ _); [reflexivity |].
  destruct (maxBacklogs drive <? currentBacklogs profile); [reflexivity |].
  now destruct ((0 <? length (allowedBranches drive))%nat
                && negb (includes (allowedBranches drive) (branch profile))).
Qed.

(** C1. The filter of the eligible-students listing holds of a profile and
    a drive exactly when the profile meets the three criteria of the drive
    (CGPA at least the minimum, backlogs at most the maximum, branch allowed
    or no branch list); the filter of the eligible-drives listing holds
    exactly when the same criteria are met and the drive is ACTIVE, the
    listing being of ACTIVE drives. *)
Theorem eligibility_iff (profile : StudentProfile) (drive : Drive) :
  (eligibleStudentsFilter drive profile = true <->
     (minCgpa drive <= cgpa profile)%Q /\
     currentBacklogs profile <= maxBacklogs drive /\
     (allowedBranches drive = [] \/ In (branch profile) (allowedBranches drive)))
  /\
  (eligibleDrivesFilter profile drive = true <->
     ((minCgpa drive <= cgpa profile)%Q /\
      currentBacklogs profile <= maxBacklogs drive /\
      (allowedBranches drive = [] \/ In (branch profile) (allowedBranches drive)))
     /\ drive_status drive = ACTIVE).
Proof.
  split.
  - apply eligibleStudentsFilter_iff.
  - rewrite eligibleDrivesFilter_split, andb_true_iff, bool_decide_eq_true.
    now rewrite eligibleStudentsFilter_iff.
Qed.

(** The listings are made of the filtered rows. *)
Lemma eligibleStudentsFor_rows (st : Store) (id : Z) (drive : Drive) :
  find (fun d => drive_id d =? id) (drives st) = Some drive ->
  exists body,
    eligibleStudentsFor st id = Json OK body /\
    map es_userId (eligibleStudents body)
    = map userId (List.filter (eligibleStudentsFilter drive) (studentProfiles st)) /\
    eligibleCount body
    = length (List.filter (eligibleStudentsFilter drive) (studentProfiles st)).
Proof.
  intros Hfind. unfold eligibleStudentsFor. rewrite Hfind.
  eexists. split; [reflexivity |]. simpl. split.
  - now rewrite map_map.
  - apply length_map.
Qed.

Lemma eligibleDrivesFor_rows (st : Store) (uid : Z) (profile : StudentProfile) :
  find (fun p => userId p =? uid) (studentProfiles st) = Some profile ->
  branch profile <> "" ->
  exists rows,
    eligibleDrivesFor st uid = Json OK (None, rows) /\
    map ed_drive rows = List.filter (eligibleDrivesFilter profile) (drives st).
Proof.
  intros Hfind Hbranch. unfold eligibleDrivesFor. rewrite Hfind.
  destruct (String.eqb_spec (branch profile) "") as [Heq | _]; [contradiction |].
  eexists. split; [reflexivity |].
  rewrite map_map. simpl. apply map_id.
Qed.

(** The scenario of the specification. *)
Example scenario_eligible :
  eligibleStudentsFilter csDrive csStudent = true /\
  eligibleDrivesFilter csStudent csDrive = true /\
  eligibleDrivesFilter csStudent closedDrive = false.
Proof. repeat split. Qed.

(** ** Applying to a drive *)

Lemma find_drive_None (st : Store) (id : Z) :
  find (fun d => drive_id d =? id) (drives st) = None <-> ~ driveExists st id.
Proof.
  unfold driveExists. split.
  - intros Hnone (d & Hin & Hid).
    apply (find_none _ _ Hnone) in Hin. simpl in Hin. lia.
  - intros Hno. destruct (find _ _) as [d |] eqn:Hfind; [| reflexivity].
    apply find_some in Hfind as [Hin Hid]. exfalso. apply Hno.
    exists d. split; [assumption | lia].
Qed.

Lemma find_application_None (st : Store) (uid id : Z) :
  find (fun a => (driveId a =? id) && (studentId a =? uid)) (applications st) = None
  <-> ~ alreadyApplied st uid id.
Proof.
  unfold alreadyApplied. split.
  - intros Hnone (a & Hin & Hd & Hs).
    apply (find_none _ _ Hnone) in Hin. simpl in Hin. lia.
  - intros Hno. destruct (find _ _) as [a |] eqn:Hfind; [| reflexivity].
    apply find_some in Hfind as [Hin Hid]. exfalso. apply Hno.
    exists a. split; [assumption | lia].
Qed.

Lemma applicationsOf_nil (st : Store) (uid id : Z) :
  ~ alreadyApplied st uid id -> applicationsOf st uid id = [].
Proof.
  intros Hno. unfold applicationsOf.
  destruct (List.filter _ _) as [| a l] eqn:Hf; [reflexivity |].
  assert (Hin : In a (List.filter
            (fun a => (driveId a =? id) && (studentId a =? uid)) (applications st)))
    by (rewrite Hf; now left).
  apply filter_In in Hin as [Hin Hid]. exfalso. apply Hno.
  exists a. split; [assumption | lia].
Qed.

Lemma applyToDrive_created (st : Store) (uid id : Z) (now : string) :
  driveExists st id -> ~ alreadyApplied st uid id ->
  applyToDrive st uid id now
  = (pushApplication st
       {| app_id := nextApplicationId st; driveId := id; studentId := uid;
          app_status := APPLIED; appliedAt := now; updatedAt := now |},
     Json Created
       {| app_id := nextApplicationId st; driveId := id; studentId := uid;
          app_status := APPLIED; appliedAt := now; updatedAt := now |}).
Proof.
  intros Hd Ha. unfold applyToDrive.
  destruct (find _ (drives st)) eqn:Hfd.
  - apply find_application_None in Ha. now rewrite Ha.
  - apply find_drive_None in Hfd. contradiction.
Qed.

Lemma applyToDrive_conflict (st : Store) (uid id : Z) (now : string) :
  driveExists st id -> alreadyApplied st uid id ->
  applyToDrive st uid id now
  = (st, Failure Conflict "You have already applied to this drive").
Proof.
  intros Hd Ha. unfold applyToDrive.
  destruct (find _ (drives st)) eqn:Hfd.
  - destruct (find _ (applications st)) eqn:Hfa; [reflexivity |].
    apply find_application_None in Hfa. contradiction.
  - apply find_drive_None in Hfd. contradiction.
Qed.

(** C2. Applying fails with NotFound when no drive has the id, fails with
    Conflict when the student already has an application for the drive, and
    otherwise appends one application in state APPLIED; applying again for
    the same pair then fails with Conflict, changes nothing, and the pair
    has exactly that one application. *)
Theorem applyToDrive_outcomes (st : Store) (uid id : Z) (now : string) :
  (~ driveExists st id ->
     applyToDrive st uid id now = (st, Failure NotFound "Drive not found"))
  /\
  (driveExists st id -> alreadyApplied st uid id ->
     applyToDrive st uid id now
     = (st, Failure Conflict "You have already applied to this drive"))
  /\
  (driveExists st id -> ~ alreadyApplied st uid id ->
     exists a st',
       applyToDrive st uid id now = (st', Json Created a) /\
       app_status a = APPLIED /\ driveId a = id /\ studentId a = uid /\
       applications st' = applications st ++ [a] /\
       applicationsOf st' uid id = [a] /\
       forall later,
         applyToDrive st' uid id later
         = (st', Failure Conflict "You have already applied to this drive")).
Proof.
  split; [| split].
  - intros Hno. apply find_drive_None in Hno.
    unfold applyToDrive. now rewrite Hno.
  - apply applyToDrive_conflict.
  - intros Hd Ha. eexists. eexists.
    split; [now apply applyToDrive_created |].
    repeat split.
    + unfold applicationsOf. simpl. rewrite List.filter_app.
      fold (applicationsOf st uid id). rewrite applicationsOf_nil by assumption.
      simpl. now rewrite !Z.eqb_refl.
    + intros later. apply applyToDrive_conflict.
      * exact Hd.
      * eexists. split; [simpl; apply in_or_app; right; now left |]. now simpl.
Qed.

(** Two applications in a row by student 7 to drive 1. *)
Lemma applyToDrive_twice :
  exists a st',
    applyToDrive drivesStore 7 1 "2026-01-01T10:00:00.000Z" = (st', Json Created a) /\
    statusOf (snd (applyToDrive st' 7 1 "2026-01-01T10:00:01.000Z")) = Conflict /\
    length (applicationsOf st' 7 1) = 1%nat.
Proof.
  destruct (applyToDrive_outcomes drivesStore 7 1 "2026-01-01T10:00:00.000Z")
    as (_ & _ & Hnew).
  destruct Hnew as (a & st' & Happly & _ & _ & _ & _ & Hone & Hagain).
  - exists csDrive. split; [now left | reflexivity].
  - intros (a & [] & _).
  - exists a, st'. split; [exact Happly |]. split.
    + now rewrite Hagain.
    + now rewrite Hone.
Defined.

(** C10. A student with no application to an existing drive gets an
    APPLIED application whatever the drive's status, deadline and criteria
    are: the reply of the handler is a function of the drive ids, of the
    applications and of the counter only, and the deadline of a drive
    enters neither this handler nor the two eligibility filters. *)
Theorem applyToDrive_checks_only_existence (st : Store) (uid id : Z) (now : string) :
  (forall drive,
     In drive (drives st) -> drive_id drive = id -> ~ alreadyApplied st uid id ->
     exists a st',
       applyToDrive st uid id now = (st', Json Created a) /\
       app_status a = APPLIED /\ driveId a = id /\ studentId a = uid /\
       In a (applications st'))
  /\
  (forall st2,
     map drive_id (drives st2) = map drive_id (drives st) ->
     applications st2 = applications st ->
     nextApplicationId st2 = nextApplicationId st ->
     snd (applyToDrive st2 uid id now) = snd (applyToDrive st uid id now))
  /\
  (forall profile drive deadline,
     eligibleDrivesFilter profile (withDeadline drive deadline)
     = eligibleDrivesFilter profile drive /\
     eligibleStudentsFilter (withDeadline drive deadline) profile
     = eligibleStudentsFilter drive profile).
Proof.
  split; [| split].
  - intros drive Hin Hid Hno. eexists. eexists.
    split; [apply applyToDrive_created; [now exists drive | exact Hno] |].
    repeat split. simpl. apply in_or_app. right. now left.
  - intros st2 Hids Happs Hnext. unfold applyToDrive.
    assert (Hsame : forall ds1 ds2 : list Drive,
               map drive_id ds1 = map drive_id ds2 ->
               is_Some (find (fun d => drive_id d =? id) ds1)
               <-> is_Some (find (fun d => drive_id d =? id) ds2)).
    { induction ds1 as [| d1 ds1 IH]; intros [| d2 ds2] Hmap; try discriminate.
      - reflexivity.
      - simpl in *. injection Hmap as Hhd Htl. rewrite Hhd.
        destruct (drive_id d2 =? id).
        + split; intros _; eexists; reflexivity.
        + now apply IH. }
    specialize (Hsame _ _ Hids). rewrite Happs, Hnext.
    destruct (find _ (drives st2)) as [d2 |], (find _ (drives st)) as [d |].
    + now destruct (find _ (applications st)).
    + destruct Hsame as [H _]. destruct H as [? H]; [now eexists | discriminate].
    + destruct Hsame as [_ H]. destruct H as [? H]; [now eexists | discriminate].
    + reflexivity.
  - intros profile drive deadline. split; reflexivity.
Qed.

(** Student 7 (CGPA 7.5, branch CS) applies to drive 2, which is CLOSED,
    past its deadline, asks for 9.5 and for the Electronics branch. *)
Lemma applyToDrive_closed_drive :
  eligibleStudentsFilter closedDrive csStudent = false /\
  drive_status closedDrive = CLOSED /\
  exists a st',
    applyToDrive drivesStore 7 2 "2026-01-01T10:00:00.000Z" = (st', Json Created a) /\
    app_status a = APPLIED.
Proof.
  split; [reflexivity |]. split; [reflexivity |].
  destruct (applyToDrive_checks_only_existence drivesStore 7 2
              "2026-01-01T10:00:00.000Z") as (Hnew & _).
  destruct (Hnew closedDrive) as (a & st' & Happly & Hst & _).
  - right. now left.
  - reflexivity.
  - intros (a & [] & _).
  - now exists a, st'.
Defined.

(** ** Mentorship slots *)

Lemma find_booking_None (st : Store) (uid id : Z) :
  find (fun b => (slotId b =? id) && (booking_studentId b =? uid)) (mentorshipBookings st)
  = None <-> ~ holdsBooking st uid id.
Proof.
  unfold holdsBooking. split.
  - intros Hnone (b & Hin & Hs & Hu).
    apply (find_none _ _ Hnone) in Hin. simpl in Hin. lia.
  - intros Hno. destruct (find _ _) as [b |] eqn:Hfind; [| reflexivity].
    apply find_some in Hfind as [Hin Hid]. exfalso. apply Hno.
    exists b. split; [assumption | lia].
Qed.

(** The slot that [updateSlot] changes is the one that [find] returns. *)
Lemma updateSlot_In (id : Z) (f : MentorshipSlot -> MentorshipSlot)
    (slots : list MentorshipSlot) (s' : MentorshipSlot) :
  In s' (updateSlot id f slots) ->
  In s' slots \/
  exists s, find (fun s => slot_id s =? id) slots = Some s /\ s' = f s.
Proof.
  induction slots as [| s rest IH]; simpl; [tauto |].
  destruct (slot_id s =? id) eqn:Hid; simpl.
  - intros [<- | Hin]; [right; now exists s | left; now right].
  - intros [<- | Hin]; [left; now left |].
    destruct (IH Hin) as [Hold | Hnew]; [left; now right | now right].
Qed.

Lemma find_updateSlot (id : Z) (f : MentorshipSlot -> MentorshipSlot)
    (slots : list MentorshipSlot) (s : MentorshipSlot) :
  (forall x, slot_id (f x) = slot_id x) ->
  find (fun s => slot_id s =? id) slots = Some s ->
  find (fun s => slot_id s =? id) (updateSlot id f slots) = Some (f s).
Proof.
  intros Hf. induction slots as [| x rest IH]; simpl; [discriminate |].
  destruct (slot_id x =? id) eqn:Hid; simpl.
  - intros [= <-]. now rewrite Hf, Hid.
  - rewrite Hid. exact IH.
Qed.

Lemma bookSlot_booked (st : Store) (uid id : Z) (now : string) (slot : MentorshipSlot) :
  find (fun s => slot_id s =? id) (mentorshipSlots st) = Some slot ->
  slot_status slot = AVAILABLE ->
  currentBookings slot < maxStudents slot ->
  ~ holdsBooking st uid id ->
  bookSlot st uid id now
  = (pushBooking st {| booking_id := nextBookingId st; slotId := id;
                       booking_studentId := uid; bookedAt := now;
                       booking_status := CONFIRMED |},
     Json Created {| booking_id := nextBookingId st; slotId := id;
                     booking_studentId := uid; bookedAt := now;
                     booking_status := CONFIRMED |}).
Proof.
  intros Hfind Hst Hcap Hno. unfold bookSlot. rewrite Hfind, Hst.
  rewrite bool_decide_eq_true_2 by reflexivity. simpl.
  destruct (Z.leb_spec (maxStudents slot) (currentBookings slot)); [lia |].
  apply find_booking_None in Hno. now rewrite Hno.
Qed.

(** Every request leaves the slots alone, adds one, or books the found one. *)
Lemma serve_slots (st : Store) (rq : SlotRequest) (s' : MentorshipSlot) :
  In s' (mentorshipSlots (serve st rq)) ->
  In s' (mentorshipSlots st)
  \/ (exists uid start finish m descr,
        rq = CreateSlot uid start finish m descr /\
        start <> "" /\ finish <> "" /\
        s' = {| slot_id := nextSlotId st; alumniUserId := uid; slotStart := start;
                slotEnd := finish; maxStudents := orOne m; currentBookings := 0;
                description := descr; slot_status := AVAILABLE |})
  \/ (exists s, In s (mentorshipSlots st) /\ slot_status s = AVAILABLE /\
                currentBookings s < maxStudents s /\ s' = bookedSlot s).
Proof.
  destruct rq as [uid start finish m descr | uid id now]; simpl.
  - unfold createSlot.
    destruct (String.eqb_spec start ""), (String.eqb_spec finish ""); simpl; auto.
    intros Hin. apply in_app_or in Hin as [Hold | [<- | []]]; [now left |].
    right. left. now exists uid, start, finish, m, descr.
  - unfold bookSlot.
    destruct (find _ (mentorshipSlots st)) as [slot |] eqn:Hfind; simpl; auto.
    destruct (decide (slot_status slot = AVAILABLE)) as [Hst | Hst].
    2: { rewrite bool_decide_eq_false_2 by assumption. simpl. auto. }
    rewrite bool_decide_eq_true_2 by assumption. simpl.
    destruct (Z.leb_spec (maxStudents slot) (currentBookings slot)); simpl; auto.
    destruct (find _ (mentorshipBookings st)); simpl; auto.
    intros Hin. apply updateSlot_In in Hin as [Hold | (s & Hs & ->)]; [now left |].
    right. right. exists s. rewrite Hfind in Hs. injection Hs as <-.
    apply find_some in Hfind as [Hin _]. auto.
Qed.

Lemma bookedSlot_capacity (s : MentorshipSlot) :
  capacityInvariant s -> slot_status s = AVAILABLE ->
  currentBookings s < maxStudents s -> capacityInvariant (bookedSlot s).
Proof.
  unfold capacityInvariant, bookedSlot. simpl.
  intros (Hmax & Hcb & Hfull) Hst Hlt. repeat split; try lia.
  - destruct (Z.leb_spec (maxStudents s) (currentBookings s + 1)); [lia |].
    rewrite Hst. discriminate.
  - intros Heq. destruct (Z.leb_spec (maxStudents s) (currentBookings s + 1)); [reflexivity | lia].
Qed.

Lemma orOne_positive (m : option Z) :
  match m with Some n => 0 <= n | None => True end -> 1 <= orOne m.
Proof.
  destruct m as [n |]; simpl; [| lia].
  intros Hn. destruct (Z.eqb_spec n 0); lia.
Qed.

Lemma serve_slotKept (st : Store) (rq : SlotRequest) :
  capacityNotNegative rq ->
  (forall s, In s (mentorshipSlots st) -> slotKept s) ->
  forall s, In s (mentorshipSlots (serve st rq)) -> slotKept s.
Proof.
  intros Hrq Hinv s' Hin.
  apply serve_slots in Hin
    as [Hold | [(uid & start & finish & m & descr & -> & Hs & Hf & ->) | (s & Hs & Hst & Hlt & ->)]].
  - now apply Hinv.
  - split; [| now split]. unfold capacityInvariant. simpl.
    pose proof (orOne_positive m Hrq). repeat split; try lia; discriminate.
  - destruct (Hinv s Hs) as (Hcap & Htimes). split; [| exact Htimes].
    now apply bookedSlot_capacity.
Qed.

(** C3 (as amended). Starting without slots, after any sequence of slot
    creations and bookings in which no submitted maxStudents is negative,
    every slot has maxStudents >= 1, 0 <= currentBookings <= maxStudents,
    and status FULL exactly when currentBookings = maxStudents; its start
    and end are present, their order is not constrained. *)
Theorem capacityInvariant_reachable (st0 : Store) (rqs : list SlotRequest)
    (s : MentorshipSlot) :
  mentorshipSlots st0 = [] ->
  Forall capacityNotNegative rqs ->
  In s (mentorshipSlots (serveAll st0 rqs)) ->
  1 <= maxStudents s /\
  0 <= currentBookings s <= maxStudents s /\
  (slot_status s = FULL <-> currentBookings s = maxStudents s) /\
  slotStart s <> "" /\ slotEnd s <> "".
Proof.
  intros Hempty Hrqs Hin.
  assert (Hall : forall s, In s (mentorshipSlots (serveAll st0 rqs)) -> slotKept s).
  { assert (Hstart : forall s, In s (mentorshipSlots st0) -> slotKept s)
      by (rewrite Hempty; intros ? []).
    clear Hempty Hin s. revert st0 Hstart. unfold serveAll.
    induction Hrqs as [| rq rqs Hrq _ IH]; intros st0 Hstart; simpl; [exact Hstart |].
    apply IH. now apply serve_slotKept. }
  destruct (Hall s Hin) as ((H1 & H2 & H3) & H4 & H5). auto.
Qed.

(** The slot for two students after one booking. *)
Lemma capacityInvariant_pairSlot :
  exists s,
    mentorshipSlots (serveAll emptyStore pairSlotRequests) = [s] /\
    currentBookings s = 1 /\ maxStudents s = 2 /\ slot_status s = AVAILABLE /\
    (slot_status s = FULL <-> currentBookings s = maxStudents s).
Proof.
  eexists. split; [reflexivity |].
  split; [reflexivity |]. split; [reflexivity |]. split; [reflexivity |].
  eapply (capacityInvariant_reachable emptyStore pairSlotRequests).
  - reflexivity.
  - repeat constructor; simpl; lia.
  - left. reflexivity.
Defined.

(** C3 (as stated) fails: a slot whose end precedes its start is accepted,
    and a negative maxStudents is stored as it is. *)
Lemma slotInvariant_not_kept :
  (exists s, In s (mentorshipSlots (serveAll emptyStore backwardsSlotRequests)) /\
             ~ slotInvariant s)
  /\
  (exists s, In s (mentorshipSlots
                     (serveAll emptyStore
                        [CreateSlot 900 "2026-01-10T10:00" "2026-01-10T11:00"
                                    (Some (-5)) "Mock interview"])) /\
             ~ slotInvariant s).
Proof.
  split.
  - eexists. split; [left; reflexivity |].
    intros (_ & Htimes). vm_compute in Htimes. discriminate.
  - eexists. split; [left; reflexivity |].
    intros ((Hmax & _) & _). simpl in Hmax. lia.
Qed.

(** C4. Booking a found slot that is AVAILABLE and below capacity, by a
    student without a booking on it, answers 201 with a CONFIRMED booking,
    appends that booking, adds exactly one to currentBookings, and leaves
    the slot FULL exactly when the new count equals maxStudents, AVAILABLE
    otherwise. *)
Theorem bookSlot_success (st : Store) (uid id : Z) (now : string)
    (slot : MentorshipSlot) :
  find (fun s => slot_id s =? id) (mentorshipSlots st) = Some slot ->
  slot_status slot = AVAILABLE ->
  currentBookings slot < maxStudents slot ->
  ~ holdsBooking st uid id ->
  exists booking st' slot',
    bookSlot st uid id now = (st', Json Created booking) /\
    booking_status booking = CONFIRMED /\
    slotId booking = id /\ booking_studentId booking = uid /\
    mentorshipBookings st' = mentorshipBookings st ++ [booking] /\
    find (fun s => slot_id s =? id) (mentorshipSlots st') = Some slot' /\
    currentBookings slot' = currentBookings slot + 1 /\
    maxStudents slot' = maxStudents slot /\
    (slot_status slot' = FULL <-> currentBookings slot' = maxStudents slot') /\
    (slot_status slot' = AVAILABLE <-> currentBookings slot' < maxStudents slot').
Proof.
  intros Hfind Hst Hlt Hno.
  eexists. eexists. exists (bookedSlot slot).
  split; [now apply (bookSlot_booked st uid id now slot) |].
  repeat split.
  - simpl. now apply find_updateSlot.
  - simpl. destruct (Z.leb_spec (maxStudents slot) (currentBookings slot + 1)); [lia |].
    rewrite Hst. discriminate.
  - simpl. intros Heq.
    destruct (Z.leb_spec (maxStudents slot) (currentBookings slot + 1)); [reflexivity | lia].
  - simpl. destruct (Z.leb_spec (maxStudents slot) (currentBookings slot + 1)); [discriminate | lia].
  - simpl. intros Hlt'.
    destruct (Z.leb_spec (maxStudents slot) (currentBookings slot + 1)); [lia | exact Hst].
Qed.

(** The first booking of the slot for two students. *)
Lemma bookSlot_success_pairSlot :
  exists booking st' slot',
    bookSlot pairSlotStore 7 1 "2026-01-02T09:00:00.000Z" = (st', Json Created booking) /\
    booking_status booking = CONFIRMED /\
    find (fun s => slot_id s =? 1) (mentorshipSlots st') = Some slot' /\
    currentBookings slot' = 1 /\
    slot_status slot' = AVAILABLE.
Proof.
  destruct (bookSlot_success pairSlotStore 7 1 "2026-01-02T09:00:00.000Z"
              {| slot_id := 1; alumniUserId := 900; slotStart := "2026-01-10T10:00";
                 slotEnd := "2026-01-10T11:00"; maxStudents := 2; currentBookings := 0;
                 description := "Mock interview"; slot_status := AVAILABLE |})
    as (booking & st' & slot' & Hbook & Hconf & _ & _ & _ & Hfind & Hcount & Hmax & _ & Havail).
  - reflexivity.
  - reflexivity.
  - simpl. lia.
  - intros (b & [] & _).
  - exists booking, st', slot'. repeat split; try assumption.
    apply Havail. rewrite Hcount, Hmax. simpl. lia.
Defined.

(** ** Booking twice *)

(** C6 (as amended). For a student who already holds a booking on a found
    slot, booking again fails with Conflict as long as the slot is AVAILABLE
    and below capacity; once the slot is FULL or at capacity the
    availability check, which comes first, answers Validation instead. The
    store is unchanged either way. *)
Theorem bookSlot_again (st : Store) (uid id : Z) (now : string) (slot : MentorshipSlot) :
  find (fun s => slot_id s =? id) (mentorshipSlots st) = Some slot ->
  holdsBooking st uid id ->
  (slot_status slot = AVAILABLE /\ currentBookings slot < maxStudents slot ->
     bookSlot st uid id now = (st, Failure Conflict "You have already booked this slot"))
  /\
  (slot_status slot <> AVAILABLE \/ maxStudents slot <= currentBookings slot ->
     bookSlot st uid id now = (st, Failure Validation "Slot is no longer available")).
Proof.
  intros Hfind Hheld. unfold bookSlot. rewrite Hfind. split.
  - intros [Hst Hlt]. rewrite bool_decide_eq_true_2 by assumption. simpl.
    destruct (Z.leb_spec (maxStudents slot) (currentBookings slot)); [lia |].
    destruct (find _ (mentorshipBookings st)) eqn:Hfb; [reflexivity |].
    apply find_booking_None in Hfb. contradiction.
  - intros [Hst | Hfull].
    + now rewrite bool_decide_eq_false_2 by assumption.
    + destruct (Z.leb_spec (maxStudents slot) (currentBookings slot)); [| lia].
      now rewrite orb_true_r.
Qed.

(** Student 7 books the slot for two students a second time. *)
Lemma bookSlot_again_pairSlot :
  holdsBooking pairSlotBooked 7 1 /\
  bookSlot pairSlotBooked 7 1 "2026-01-02T09:05:00.000Z"
  = (pairSlotBooked, Failure Conflict "You have already booked this slot").
Proof.
  assert (Hheld : holdsBooking pairSlotBooked 7 1).
  { eexists. split; [left; reflexivity |]. split; reflexivity. }
  split; [exact Hheld |].
  eapply (bookSlot_again pairSlotBooked 7 1).
  - reflexivity.
  - exact Hheld.
  - split; [reflexivity | simpl; lia].
Defined.

(** C6 (as stated) fails: student 7 holds the only seat of a slot, which is
    therefore FULL, and booking it again answers 400, not 409. *)
Lemma bookSlot_again_full_slot :
  holdsBooking singleSlotBooked 7 1 /\
  (exists slot, find (fun s => slot_id s =? 1) (mentorshipSlots singleSlotBooked)
                = Some slot /\
                slot_status slot = FULL /\ currentBookings slot = maxStudents slot) /\
  bookSlot singleSlotBooked 7 1 "2026-01-02T09:05:00.000Z"
  = (singleSlotBooked, Failure Validation "Slot is no longer available") /\
  statusOf (snd (bookSlot singleSlotBooked 7 1 "2026-01-02T09:05:00.000Z")) <> Conflict.
Proof.
  split.
  { eexists. split; [left; reflexivity |]. split; reflexivity. }
  split.
  { eexists. split; [reflexivity |]. split; reflexivity. }
  split; [reflexivity | discriminate].
Qed.

(** ** Analytics: branch statistics *)

Lemma isPlaced_iff (apps : list Application) (profile : StudentProfile) :
  isPlaced apps profile = true <->
  exists a, In a apps /\ studentId a = userId profile /\ app_status a = SELECTED.
Proof.
  unfold isPlaced, isSelected. rewrite existsb_exists. split.
  - intros (a & Hin & Ha). apply andb_true_iff in Ha as [Hid Hsel].
    apply bool_decide_eq_true in Hsel. exists a. repeat split; [assumption | lia | assumption].
  - intros (a & Hin & Hid & Hsel). exists a. split; [assumption |].
    apply andb_true_iff. split; [lia | now apply bool_decide_eq_true].
Qed.

(** The test [studentApps.length > 0] of the handler. *)
Lemma studentApps_nonempty (apps : list Application) (profile : StudentProfile) :
  Nat.ltb 0 (length (List.filter (fun a => (studentId a =? userId profile) && isSelected a)
                       apps))
  = isPlaced apps profile.
Proof.
  unfold isPlaced. induction apps as [| a apps IH]; [reflexivity |].
  simpl. destruct ((studentId a =? userId profile) && isSelected a); [reflexivity | exact IH].
Qed.

(** One profile adds one to [total] of its bucket, and one to [placed]
    when the student is placed; other buckets are untouched. *)
Lemma countProfile_lookup (apps : list Application) (m : gmap string BranchStat)
    (profile : StudentProfile) (b : string) :
  countProfile apps m profile !! b
  = if decide (bucketOf profile = b)
    then Some {| total := from_option total 0 (m !! b) + 1;
                 placed := from_option placed 0 (m !! b)
                           + (if isPlaced apps profile then 1 else 0) |}
    else m !! b.
Proof.
  unfold countProfile. fold (bucketOf profile). rewrite studentApps_nonempty.
  destruct (decide (bucketOf profile = b)) as [<- | Hne].
  - destruct (m !! bucketOf profile) as [bk |] eqn:Hm, (isPlaced apps profile);
      rewrite ?lookup_alter_eq, ?lookup_insert_eq, ?Hm; simpl;
      f_equal; f_equal; lia.
  - destruct (m !! bucketOf profile), (isPlaced apps profile);
      now rewrite ?lookup_alter_ne, ?lookup_insert_ne by assumption.
Qed.

Lemma countProfiles_lookup (apps : list Application) (ps : list StudentProfile)
    (m : gmap string BranchStat) (b : string) :
  fold_left (countProfile apps) ps m !! b
  = match List.filter (inBucket b) ps with
    | [] => m !! b
    | inside =>
        Some {| total := from_option total 0 (m !! b) + Z.of_nat (length inside);
                placed := from_option placed 0 (m !! b)
                          + Z.of_nat (length (List.filter (isPlaced apps) inside)) |}
    end.
Proof.
  revert m. induction ps as [| p ps IH]; intros m; [reflexivity |].
  cbn [fold_left List.filter]. rewrite IH, countProfile_lookup. unfold inBucket at 2.
  destruct (decide (bucketOf p = b)) as [Heq | Hne].
  - rewrite (proj2 (String.eqb_eq _ _) Heq).
    destruct (List.filter (inBucket b) ps) as [| q inside];
      cbn [from_option total placed List.filter length];
      destruct (isPlaced apps p); cbn [length]; f_equal; f_equal;
      rewrite ?Nat2Z.inj_succ; lia.
  - now rewrite (proj2 (String.eqb_neq _ _) Hne).
Qed.

(** C9. A bucket of the branch statistics counts in [total] the profiles
    of the branch and in [placed] those of them whose student has at least
    one SELECTED application, each profile once however many SELECTED
    applications there are; so [placed] never exceeds [total]. *)
Theorem branchStats_placed_le_total (st : Store) (b : string) (bucket : BranchStat) :
  branchStatsOf st !! b = Some bucket ->
  total bucket = Z.of_nat (length (List.filter (inBucket b) (studentProfiles st))) /\
  placed bucket
  = Z.of_nat (length (List.filter (isPlaced (applications st))
                        (List.filter (inBucket b) (studentProfiles st)))) /\
  0 <= placed bucket <= total bucket.
Proof.
  unfold branchStatsOf. rewrite countProfiles_lookup, lookup_empty.
  pose proof (List.filter_length_le (isPlaced (applications st))
                (List.filter (inBucket b) (studentProfiles st))) as Hle.
  destruct (List.filter (inBucket b) (studentProfiles st)) as [| p inside];
    [discriminate |].
  intros [= <-]. cbn [total placed from_option].
  apply Nat2Z.inj_le in Hle. cbn [List.filter length] in *.
  destruct (isPlaced (applications st) p); cbn [length] in *;
    rewrite ?Nat2Z.inj_succ in *;
    pose proof (Nat2Z.is_nonneg
                  (length (List.filter (isPlaced (applications st)) inside)));
    repeat split; lia.
Qed.

(** Student 7, SELECTED twice, counts once in the CS bucket. *)
Lemma branchStats_twice_selected :
  length (List.filter isSelected (applications twiceSelectedStore)) = 2%nat /\
  exists bucket,
    branchStatsOf twiceSelectedStore !! "CS" = Some bucket /\
    total bucket = 1 /\ placed bucket = 1.
Proof.
  split; [reflexivity |].
  assert (Hb : branchStatsOf twiceSelectedStore !! "CS"
               = Some {| total := 1; placed := 1 |}) by (vm_compute; reflexivity).
  eexists. split; [exact Hb |].
  destruct (branchStats_placed_le_total twiceSelectedStore "CS" _ Hb) as (Ht & Hp & _).
  split; [exact Ht | exact Hp].
Defined.

(** ** Sorting by descending key *)

Section SortDescending.
Context {A : Type} (key : A -> Z).

Lemma insertSorted_perm (cmp : A -> A -> Z) (x : A) (l : list A) :
  Permutation (insertSorted cmp x l) (x :: l).
Proof.
  induction l as [| y l IH]; simpl; [reflexivity |].
  destruct (0 <? cmp x y); [| reflexivity].
  rewrite IH. apply perm_swap.
Qed.

Lemma sortWith_perm (cmp : A -> A -> Z) (l : list A) :
  Permutation (sortWith cmp l) l.
Proof.
  induction l as [| x l IH]; simpl; [reflexivity |].
  rewrite insertSorted_perm. now constructor.
Qed.

Lemma insertSorted_descending (x : A) (l : list A) :
  descending key l -> descending key (insertSorted (byKeyDesc key) x l).
Proof.
  unfold descending, byKeyDesc.
  induction 1 as [| y l Hsorted IH Hall]; simpl.
  - constructor; constructor.
  - destruct (Z.ltb_spec 0 (key y - key x)) as [Hlt | Hge].
    + constructor; [exact IH |].
      eapply Permutation_Forall; [symmetry; apply insertSorted_perm |].
      constructor; [lia | exact Hall].
    + constructor; [now constructor |].
      constructor; [lia |].
      eapply List.Forall_impl; [| exact Hall]. simpl. intros; lia.
Qed.

Lemma sortWith_descending (l : list A) :
  descending key (sortWith (byKeyDesc key) l).
Proof.
  induction l as [| x l IH]; simpl; [constructor |].
  now apply insertSorted_descending.
Qed.

(** Stability: the elements of one key keep their order. *)
Lemma insertSorted_stable (k : Z) (x : A) (l : list A) :
  List.filter (fun a => key a =? k) (insertSorted (byKeyDesc key) x l)
  = List.filter (fun a => key a =? k) (x :: l).
Proof.
  unfold byKeyDesc. induction l as [| y l IH]; [reflexivity |].
  cbn [insertSorted].
  destruct (Z.ltb_spec 0 (key y - key x)) as [Hlt | Hge]; [| reflexivity].
  cbn [List.filter] in *. rewrite IH.
  destruct (Z.eqb_spec (key x) k), (Z.eqb_spec (key y) k); try reflexivity. lia.
Qed.

Lemma sortWith_stable (k : Z) (l : list A) :
  List.filter (fun a => key a =? k) (sortWith (byKeyDesc key) l)
  = List.filter (fun a => key a =? k) l.
Proof.
  induction l as [| x l IH]; [reflexivity |].
  cbn [sortWith fold_right]. fold (sortWith (byKeyDesc key) l).
  rewrite insertSorted_stable. cbn [List.filter]. now rewrite IH.
Qed.

End SortDescending.

(** ** PlacementBot *)

Lemma prefix_app (sub s : string) :
  String.prefix sub s = true <-> exists post, s = (sub ++ post)%string.
Proof.
  revert s. induction sub as [| c sub IH]; intros s.
  - split; [intros _; now exists s | intros _; now destruct s].
  - destruct s as [| d s]; simpl.
    + split; [discriminate | intros (post & Hpost); discriminate].
    + destruct (Ascii.ascii_dec c d) as [<- | Hne].
      * rewrite IH. split; intros (post & Hpost); exists post.
        -- subst s. reflexivity.
        -- change (String c s = String c (sub ++ post)%string) in Hpost.
           now injection Hpost.
      * split; [discriminate |].
        intros (post & Hpost).
        change (String d s = String c (sub ++ post)%string) in Hpost. congruence.
Qed.

(** [strIncludes s sub] holds exactly when [sub] is a substring of [s]. *)
Lemma strIncludes_substring (s sub : string) :
  strIncludes s sub = true <-> exists pre post, s = (pre ++ sub ++ post)%string.
Proof.
  induction s as [| c s IH]; cbn [strIncludes]; rewrite orb_true_iff, prefix_app.
  - split.
    + intros [(post & Hpost) | Hfalse]; [now exists ""%string, post | discriminate].
    + intros (pre & post & Heq). left. destruct pre; [now exists post | discriminate].
  - rewrite IH. split.
    + intros [(post & Hpost) | (pre & post & Heq)].
      * now exists ""%string, post.
      * exists (String c pre), post. subst s. reflexivity.
    + intros (pre & post & Heq). destruct pre as [| d pre].
      * left. now exists post.
      * right. change (String c s = String d (pre ++ sub ++ post)%string) in Heq.
        injection Heq as _ Heq. now exists pre, post.
Qed.

Lemma fold_count {X} (P : X -> bool) (c : Z) (l : list X) (s0 : Z) :
  fold_left (fun score x => if P x then score + c else score) l s0
  = s0 + c * Z.of_nat (length (List.filter P l)).
Proof.
  revert s0. induction l as [| x l IH]; intros s0; simpl; [lia |].
  rewrite IH. destruct (P x); cbn [length]; rewrite ?Nat2Z.inj_succ; lia.
Qed.

(** The scoring rule: two per tag found in the query, one per piece of the
    query found in the question of the FAQ. *)
Lemma faqScore_rule (query : string) (faq : FAQ) :
  faqScore query faq
  = 2 * Z.of_nat (length (List.filter (fun tag => strIncludes query (toLowerCase tag))
                            (tags faq)))
    + Z.of_nat (length (List.filter
                          (fun word => strIncludes (toLowerCase (question faq)) word)
                          (splitWhitespace query))).
Proof.
  unfold faqScore, wordScore, tagScore.
  rewrite (fold_count (fun word => strIncludes (toLowerCase (question faq)) word) 1).
  rewrite (fold_count (fun tag => strIncludes query (toLowerCase tag)) 2). lia.
Qed.

Lemma faqScore_nonneg (query : string) (faq : FAQ) : 0 <= faqScore query faq.
Proof. rewrite faqScore_rule. lia. Qed.

(** The tags of the served corpus are in lower case already. *)
Lemma faqs_tags_lower :
  Forall (fun faq => Forall (fun tag => toLowerCase tag = tag) (tags faq)) faqs.
Proof. repeat constructor. Qed.



(** The ranking: sorted by descending score, equal scores in corpus order,
    and made of the FAQs of positive score with their scores. *)
Lemma matchedFAQs_ranking (corpus : list FAQ) (query : string) :
  descending snd (matchedFAQs corpus query) /\
  (forall k, 0 < k ->
     map fst (List.filter (fun f => snd f =? k) (matchedFAQs corpus query))
     = List.filter (fun faq => faqScore query faq =? k) corpus) /\
  (forall f, In f (matchedFAQs corpus query) ->
     In (fst f) corpus /\ snd f = faqScore query (fst f) /\ 0 < snd f).
Proof.
  unfold matchedFAQs. split; [apply sortWith_descending | split].
  - intros k Hk. rewrite sortWith_stable.
    induction corpus as [| f corpus IH]; [reflexivity |]. simpl.
    destruct (Z.ltb_spec 0 (faqScore query f)) as [Hpos | Hle]; simpl.
    + destruct (faqScore query f =? k); simpl; now rewrite IH.
    + destruct (Z.eqb_spec (faqScore query f) k); [lia | exact IH].
  - intros f Hin.
    eapply Permutation_in in Hin; [| apply sortWith_perm].
    apply filter_In in Hin as [Hin Hpos]. apply in_map_iff in Hin as (faq & <- & Hin).
    simpl in *. repeat split; [assumption | lia].
Qed.


(** *** The handler's pieces and score against the rule *)










Example ask_nonsense :
  ask faqs "xyzzy" = Json OK {| bot_answer := fallbackAnswer;
                                relatedFAQs := WholeFAQs (firstn 3 faqs) |}.
Proof. vm_compute. reflexivity. Qed.

(** A leading blank makes an empty piece, which every question contains. *)
Example ask_leading_blank :
  map snd (matchedFAQs faqs (toLowerCase " xyzzy")) = [1; 1; 1; 1; 1].
Proof. vm_compute. reflexivity. Qed.

(** ** Analytics: skill gap *)

Lemma bump_lookup (k k' : string) (freq : list (string * Z)) :
  lookupFreq k' (bump k freq)
  = lookupFreq k' freq + (if String.eqb k' k then 1 else 0).
Proof.
  induction freq as [| [k0 n] rest IH]; simpl.
  - destruct (String.eqb k' k); lia.
  - destruct (String.eqb_spec k k0) as [-> | Hne]; simpl.
    + destruct (String.eqb k' k0); lia.
    + destruct (String.eqb_spec k' k0) as [-> | Hne'].
      * rewrite (proj2 (String.eqb_neq k0 k)) by congruence. lia.
      * exact IH.
Qed.

Lemma bump_keys (k : string) (freq : list (string * Z)) :
  map fst (bump k freq)
  = map fst freq ++ (if includes (map fst freq) k then [] else [k]).
Proof.
  unfold includes. induction freq as [| [k0 n] rest IH]; simpl; [reflexivity |].
  destruct (String.eqb_spec k k0) as [-> | Hne]; simpl.
  - now rewrite app_nil_r.
  - now rewrite IH.
Qed.

Lemma bump_NoDup (k : string) (freq : list (string * Z)) :
  NoDup (map fst freq) -> NoDup (map fst (bump k freq)).
Proof.
  intros Hnd. rewrite bump_keys.
  destruct (includes (map fst freq) k) eqn:Hin.
  - now rewrite app_nil_r.
  - apply includes_false in Hin.
    apply NoDup_app. split; [exact Hnd |]. split.
    + intros x Hx Hk. apply list_elem_of_In in Hx, Hk.
      destruct Hk as [<- | []]. contradiction.
    + apply NoDup_singleton.
Qed.

Lemma lookupFreq_In (k : string) (n : Z) (freq : list (string * Z)) :
  NoDup (map fst freq) -> In (k, n) freq -> lookupFreq k freq = n.
Proof.
  induction freq as [| [k0 n0] rest IH]; simpl; [intros _ [] |].
  intros Hnd [[= -> ->] | Hin].
  - now rewrite String.eqb_refl.
  - apply NoDup_cons in Hnd as [Hfresh Hnd].
    destruct (String.eqb_spec k k0) as [-> | _]; [| now apply IH].
    exfalso. apply Hfresh. apply list_elem_of_In.
    change k0 with (fst (k0, n)). now apply in_map.
Qed.

Lemma occurrences_app (k : string) (l1 l2 : list string) :
  occurrences k (l1 ++ l2) = occurrences k l1 + occurrences k l2.
Proof.
  unfold occurrences. rewrite List.filter_app, length_app. lia.
Qed.

Lemma countSkills_spec (student : StudentProfile) (freq : list (string * Z)) :
  (forall k, lookupFreq k (countSkills freq student)
             = lookupFreq k freq + occurrences k (map toLowerCase (skills student))) /\
  (NoDup (map fst freq) -> NoDup (map fst (countSkills freq student))).
Proof.
  unfold countSkills. revert freq.
  induction (skills student) as [| s ss IH]; intros freq; simpl.
  - split; [intros k; unfold occurrences; simpl; lia | auto].
  - destruct (IH (bump (toLowerCase s) freq)) as [Hlookup Hnd]. split.
    + intros k. rewrite Hlookup, bump_lookup. unfold occurrences. simpl.
      destruct (String.eqb k (toLowerCase s)); cbn [length];
        rewrite ?Nat2Z.inj_succ; lia.
    + intros H. apply Hnd. now apply bump_NoDup.
Qed.

Lemma skillFrequency_spec (placedList : list StudentProfile) :
  (forall k, lookupFreq k (skillFrequency placedList)
             = occurrences k (allSkills placedList)) /\
  NoDup (map fst (skillFrequency placedList)).
Proof.
  unfold skillFrequency.
  assert (Hgen : forall freq,
            (forall k, lookupFreq k (fold_left countSkills placedList freq)
                       = lookupFreq k freq + occurrences k (allSkills placedList)) /\
            (NoDup (map fst freq) ->
             NoDup (map fst (fold_left countSkills placedList freq)))).
  { induction placedList as [| p ps IH]; intros freq; simpl.
    - split; [intros k; unfold occurrences; simpl; lia | auto].
    - destruct (IH (countSkills freq p)) as [Hlookup Hnd].
      destruct (countSkills_spec p freq) as [Hone Hnd1]. split.
      + intros k. rewrite Hlookup, Hone, occurrences_app. lia.
      + auto. }
  destruct (Hgen []) as [Hlookup Hnd]. split.
  - intros k. rewrite Hlookup. simpl. lia.
  - apply Hnd. constructor.
Qed.

Lemma bump_positive (s : string) (freq : list (string * Z)) :
  (forall k n, In (k, n) freq -> 0 < n) ->
  forall k n, In (k, n) (bump s freq) -> 0 < n.
Proof.
  induction freq as [| [k0 n0] rest IH]; simpl.
  - intros _ k n [[= <- <-] | []]. lia.
  - intros Hall k n. destruct (String.eqb s k0); simpl.
    + intros [[= <- <-] | Hin].
      * specialize (Hall k0 n0 (or_introl eq_refl)). lia.
      * apply (Hall k n). now right.
    + intros [[= <- <-] | Hin].
      * apply (Hall k0 n0). now left.
      * apply (IH (fun k n H => Hall k n (or_intror H)) k n Hin).
Qed.

Lemma skillFrequency_positive (placedList : list StudentProfile) (k : string) (n : Z) :
  In (k, n) (skillFrequency placedList) -> 0 < n.
Proof.
  unfold skillFrequency.
  assert (Hgen : forall freq,
            (forall k n, In (k, n) freq -> 0 < n) ->
            forall k n, In (k, n) (fold_left countSkills placedList freq) -> 0 < n).
  { induction placedList as [| p ps IHp]; intros freq Hall; simpl; [exact Hall |].
    apply IHp. unfold countSkills. revert freq Hall.
    induction (skills p) as [| s ss IHs]; intros freq Hall; simpl; [exact Hall |].
    apply IHs. now apply bump_positive. }
  apply (Hgen [] (fun k n H => match H with end)).
Qed.

Lemma In_firstn {X} (n : nat) (l : list X) (x : X) : In x (firstn n l) -> In x l.
Proof.
  revert n. induction l as [| y l IH]; intros [| n]; simpl; try tauto.
  intros [-> | Hin]; [now left | right; now apply (IH n)].
Qed.

Lemma StronglySorted_firstn {X} (R : X -> X -> Prop) (n : nat) (l : list X) :
  StronglySorted R l -> StronglySorted R (firstn n l).
Proof.
  intros Hs. revert n. induction Hs as [| x l Hs IH Hall]; intros [| n]; simpl;
    try constructor.
  - apply IH.
  - rewrite List.Forall_forall in *. intros y Hy. apply Hall.
    now apply In_firstn in Hy.
Qed.

Lemma StronglySorted_map {X Y} (R : X -> X -> Prop) (S : Y -> Y -> Prop)
    (g : X -> Y) (l : list X) :
  (forall a b, R a b -> S (g a) (g b)) ->
  StronglySorted R l -> StronglySorted S (map g l).
Proof.
  intros HRS. induction 1 as [| x l Hs IH Hall]; simpl; constructor; [exact IH |].
  rewrite List.Forall_forall in *. intros y Hy.
  apply in_map_iff in Hy as (a & <- & Ha). auto.
Qed.

(** What the handler answers, whatever the applications are: a student
    is entered in [placedStudents] once per SELECTED application. *)
Lemma skillGap_answer (st : Store) (uid : Z) (profile : StudentProfile) :
  find (fun p => userId p =? uid) (studentProfiles st) = Some profile ->
  exists recs,
    skillGap st uid = Json OK recs /\
    (length recs <= 5)%nat /\
    StronglySorted (fun a b => frequency b <= frequency a) recs /\
    forall r, In r recs ->
      ~ In (skill r) (map toLowerCase (skills profile)) /\
      frequency r = occurrences (skill r) (allSkills (placedStudents st)) /\
      0 < frequency r /\
      percentage r = toFixed 1 (share (frequency r) (length (placedStudents st))).
Proof.
  intros Hfind. unfold skillGap. rewrite Hfind.
  eexists. split; [reflexivity |].
  set (placedList := placedStudents st).
  set (kept := List.filter _ (skillFrequency placedList)).
  destruct (skillFrequency_spec placedList) as [Hlookup Hnd].
  split; [| split].
  - rewrite length_map. unfold slice. simpl. apply firstn_le_length.
  - unfold slice. simpl skipn. simpl Nat.sub.
    apply StronglySorted_map with (R := fun a b : string * Z => snd b <= snd a).
    + intros [ka na] [kb nb]. simpl. auto.
    + apply StronglySorted_firstn. apply (sortWith_descending snd).
  - intros r Hr. apply in_map_iff in Hr as ([k n] & <- & Hkn).
    unfold slice in Hkn. simpl skipn in Hkn. apply In_firstn in Hkn.
    eapply Permutation_in in Hkn; [| apply sortWith_perm].
    apply filter_In in Hkn as [Hkn Hnot]. simpl in Hnot.
    apply negb_true_iff, includes_false in Hnot.
    assert (Hn : n = occurrences k (allSkills placedList)).
    { rewrite <- Hlookup. symmetry. now apply lookupFreq_In. }
    assert (Hpos : 0 < n) by now apply (skillFrequency_positive placedList k).
    simpl. split; [exact Hnot |]. split; [exact Hn |]. split; [exact Hpos |].
    reflexivity.
Qed.

(** The placed entries follow the SELECTED applications. *)
Lemma placedStudents_sublist (st : Store) :
  map userId (placedStudents st)
    `sublist_of` map studentId (List.filter isSelected (applications st)).
Proof.
  unfold placedStudents.
  induction (List.filter isSelected (applications st)) as [| a sel IH]; simpl.
  - constructor.
  - destruct (find _ (studentProfiles st)) as [p |] eqn:Hfind; simpl.
    + apply find_some in Hfind as [_ Hid].
      replace (userId p) with (studentId a) by lia. now constructor.
    + now constructor.
Qed.

Lemma placedStudents_placed (st : Store) (p : StudentProfile) :
  In p (placedStudents st) ->
  In p (studentProfiles st) /\ isPlaced (applications st) p = true.
Proof.
  unfold placedStudents. intros Hin.
  apply list_elem_of_In, list_elem_of_omap in Hin as (a & Ha & Hfind).
  apply list_elem_of_In, filter_In in Ha as [Ha Hsel].
  apply find_some in Hfind as [Hp Hid]. split; [exact Hp |].
  apply isPlaced_iff. exists a. split; [exact Ha |]. split; [lia |].
  now apply bool_decide_eq_true in Hsel.
Qed.



(** The percentage is computed in doubles, and a skill that one profile
    lists in two spellings is counted twice. *)
Example skillGap_two_spellings :
  exists r, skillGap repeatedSkillStore 8 = Json OK [r] /\ percentage r = "200.0".
Proof. eexists. split; vm_compute; reflexivity. Qed.

Example toFixed_of_the_double :
  toFixed 1 (percent 23 80) = "28.7" /\ toFixed 2 (percent 23 160) = "14.37".
Proof. split; vm_compute; reflexivity. Qed.

(** ** Student profile *)

Lemma readVar_experience {A} (v : A) :
  readVar "experience" v = Throw "ReferenceError: experience is not defined".
Proof. reflexivity. Qed.

Lemma buildProfile_throws (uid : Z) (body : ProfileBody) :
  buildProfile uid body = Throw "ReferenceError: experience is not defined".
Proof. reflexivity. Qed.

(** C5 (the code against the claim). Whatever the body, the PUT handler
    answers 500 and leaves the table as it was: the object literal reads
    the identifier [experience], which the destructuring does not bind. *)
Theorem putProfile_internal_error (st : Store) (uid : Z) (body : ProfileBody) :
  putProfile st uid body = (st, Failure InternalError "Internal server error").
Proof.
  unfold putProfile. now rewrite buildProfile_throws.
Qed.

(** Neither handler ever changes the table of profiles. *)
Lemma serveProfile_unchanged (st : Store) (rqs : list ProfileRequest) :
  fold_left serveProfile rqs st = st.
Proof.
  induction rqs as [| rq rqs IH]; simpl; [reflexivity |].
  assert (Hstep : serveProfile st rq = st).
  { destruct rq as [uid | uid body]; unfold serveProfile.
    - unfold getProfile. now destruct (find _ _).
    - unfold putProfile. now rewrite buildProfile_throws. }
  now rewrite Hstep.
Qed.

Example putProfile_submittedBody :
  putProfile drivesStore 143 submittedBody
  = (drivesStore, Failure InternalError "Internal server error") /\
  find (fun p => userId p =? 143) (studentProfiles (fst (putProfile drivesStore 143 submittedBody)))
  = None.
Proof. split; reflexivity. Qed.

(** ** What a request does to the store *)

Lemma NoDup_snoc {X} (l : list X) (x : X) :
  NoDup l -> ~ In x l -> NoDup (l ++ [x]).
Proof.
  intros Hnd Hfresh. apply NoDup_app. split; [exact Hnd |]. split.
  - intros y Hy Hx. apply list_elem_of_In in Hy, Hx.
    destruct Hx as [<- | []]. contradiction.
  - apply NoDup_singleton.
Qed.

Lemma serveProfile_same (st : Store) (rq : ProfileRequest) : serveProfile st rq = st.
Proof.
  destruct rq as [uid | uid body]; unfold serveProfile.
  - unfold getProfile. now destruct (find _ _).
  - unfold putProfile. now rewrite buildProfile_throws.
Qed.

Lemma handle_effect (st : Store) (rq : Request) : Effect st (handle st rq).
Proof.
  destruct rq as [uid body | uid id now | [uid start finish m descr | uid id now] | rq
                  | uid start finish m descr];
    simpl.
  - unfold createDrive. destruct (_ || _); simpl; [constructor |].
    unfold buildDrive.
    destruct (default (Normal None) (new_minCgpa body)); simpl; [| constructor].
    destruct (new_maxBacklogs body); simpl; now constructor.
  - unfold applyToDrive.
    destruct (find _ (drives st)) as [d |] eqn:Hd; [| constructor].
    destruct (find _ (applications st)) as [a |] eqn:Ha; [constructor |]. simpl.
    constructor; simpl; try reflexivity.
    + apply find_some in Hd as [Hin Hid]. exists d. split; [exact Hin | lia].
    + now apply find_application_None.
  - unfold createSlot. destruct (_ || _); simpl; [constructor |].
    now constructor.
  - unfold bookSlot.
    destruct (find _ (mentorshipSlots st)) as [slot |] eqn:Hslot; [| constructor].
    destruct (decide (slot_status slot = AVAILABLE)) as [Hst | Hst].
    2: { rewrite bool_decide_eq_false_2 by assumption. constructor. }
    rewrite bool_decide_eq_true_2 by assumption. simpl.
    destruct (Z.leb_spec (maxStudents slot) (currentBookings slot)); [constructor |].
    destruct (find _ (mentorshipBookings st)) as [b |] eqn:Hb; [constructor |]. simpl.
    apply BookingPushed with slot; simpl; try assumption; try reflexivity.
    now apply find_booking_None.
  - rewrite serveProfile_same. constructor.
  - unfold postSlot, createSlot. destruct m as [parsed | err].
    + destruct (_ || _); simpl; [constructor |]. now constructor.
    + destruct (_ || _); simpl; constructor.
Qed.

(** ** Invariants of the tables *)

Lemma updateSlot_ids (id : Z) (slots : list MentorshipSlot) :
  map slot_id (updateSlot id bookedSlot slots) = map slot_id slots.
Proof.
  induction slots as [| s rest IH]; simpl; [reflexivity |].
  destruct (slot_id s =? id); simpl; [reflexivity | now rewrite IH].
Qed.

(** With distinct ids, only the slot of that id is replaced. *)
Lemma updateSlot_In_NoDup (id : Z) (slots : list MentorshipSlot) (s' : MentorshipSlot) :
  NoDup (map slot_id slots) ->
  In s' (updateSlot id bookedSlot slots) ->
  (In s' slots /\ slot_id s' <> id) \/
  (exists s, In s slots /\ slot_id s = id /\ s' = bookedSlot s).
Proof.
  induction slots as [| s rest IH]; simpl; [tauto |].
  intros Hnd. apply NoDup_cons in Hnd as [Hfresh Hnd].
  destruct (Z.eqb_spec (slot_id s) id) as [Hid | Hid]; simpl.
  - intros [<- | Hin].
    + right. exists s. auto.
    + left. split; [now right |]. intros Heq. apply Hfresh.
      apply list_elem_of_In, in_map_iff. exists s'. split; [lia | exact Hin].
  - intros [<- | Hin]; [left; auto |].
    destruct (IH Hnd Hin) as [[Hold Hne] | (s0 & Hs0 & Hid0 & ->)].
    + left. auto.
    + right. exists s0. auto.
Qed.

Lemma find_slot_NoDup (slots : list MentorshipSlot) (s : MentorshipSlot) :
  NoDup (map slot_id slots) -> In s slots ->
  find (fun x => slot_id x =? slot_id s) slots = Some s.
Proof.
  induction slots as [| x rest IH]; simpl; [intros _ [] |].
  intros Hnd. apply NoDup_cons in Hnd as [Hfresh Hnd].
  intros [-> | Hin]; [now rewrite Z.eqb_refl |].
  destruct (Z.eqb_spec (slot_id x) (slot_id s)) as [Heq | _]; [| now apply IH].
  exfalso. apply Hfresh. apply list_elem_of_In, in_map_iff. now exists s.
Qed.

Lemma drivesKept_step (st st' : Store) :
  Effect st st' -> drivesKept st -> drivesKept st'.
Proof.
  intros Heff [Hnd Hall]. destruct Heff as [| d Hid Hact | a | s | b slot | |];
    try (split; assumption).
  - unfold drivesKept. simpl. split.
    + rewrite map_app. simpl. apply NoDup_snoc; [exact Hnd |].
      intros Hin. apply in_map_iff in Hin as (x & Hx & Hin).
      specialize (Hall x Hin). lia.
    + intros x Hin. apply in_app_or in Hin as [Hin | [<- | []]].
      * specialize (Hall x Hin). split; [lia | tauto].
      * split; [lia | exact Hact].
  - (* a drive id is skipped *)
    split; [exact Hnd |]. intros x Hin. specialize (Hall x Hin). simpl. split; [lia | tauto].
Qed.

Lemma applicationsKept_step (st st' : Store) :
  Effect st st' -> applicationsKept st -> applicationsKept st'.
Proof.
  intros Heff (Hpairs & Hids & Hall).
  destruct Heff as [| d Hid Hact | a Hid Happlied Hdrive Hnew | s | b slot | |];
    try exact (conj Hpairs (conj Hids Hall)).
  - (* a drive is pushed: the drives of the applications still exist *)
    split; [exact Hpairs |]. split; [exact Hids |]. intros a Ha.
    destruct (Hall a Ha) as (Hlt & Hst & (x & Hx & Hxid)).
    split; [exact Hlt |]. split; [exact Hst |].
    exists x. split; [simpl; apply in_or_app; now left | exact Hxid].
  - unfold applicationsKept. simpl. rewrite !map_app. simpl.
    split; [| split].
    + apply NoDup_snoc; [exact Hpairs |].
      intros Hin. apply in_map_iff in Hin as (x & Hx & Hin).
      injection Hx as Hd Hs. apply Hnew. now exists x.
    + apply NoDup_snoc; [exact Hids |].
      intros Hin. apply in_map_iff in Hin as (x & Hx & Hin).
      destruct (Hall x Hin) as (Hlt & _). lia.
    + intros x Hin. apply in_app_or in Hin as [Hin | [<- | []]].
      * destruct (Hall x Hin) as (Hlt & Hst & Hex).
        split; [lia |]. split; assumption.
      * split; [lia |]. split; assumption.
Qed.

Lemma bookingsOn_none (st : Store) (id : Z) :
  (forall b, In b (mentorshipBookings st) -> slotId b < id) -> bookingsOn st id = [].
Proof.
  intros Hlt. unfold bookingsOn.
  induction (mentorshipBookings st) as [| b bs IH]; simpl; [reflexivity |].
  destruct (Z.eqb_spec (slotId b) id) as [Heq | _].
  - specialize (Hlt b (or_introl eq_refl)). lia.
  - apply IH. intros x Hx. apply Hlt. now right.
Qed.

Lemma slotsKept_step (st st' : Store) :
  Effect st st' -> slotsKept st -> slotsKept st'.
Proof.
  intros Heff Hkept.
  destruct Heff as [| d | a | s Hid Hzero Havail | b slot Hid Hfind Havail Hroom Hnew | |];
    try exact Hkept.
  - (* a slot is pushed *)
    destruct Hkept as (Hslots & Hlt & Hpairs & Hids & Hbook & Hcount).
    unfold slotsKept, bookingsOn. simpl. rewrite map_app. simpl.
    split; [| split; [| split; [exact Hpairs | split; [exact Hids | split]]]].
    + apply NoDup_snoc; [exact Hslots |].
      intros Hin. apply in_map_iff in Hin as (x & Hx & Hin).
      specialize (Hlt x Hin). lia.
    + intros x Hin. apply in_app_or in Hin as [Hin | [<- | []]]; [| lia].
      specialize (Hlt x Hin). lia.
    + intros x Hin. destruct (Hbook x Hin). lia.
    + intros x Hin. apply in_app_or in Hin as [Hin | [<- | []]].
      * now apply Hcount.
      * rewrite Hzero, Hid. fold (bookingsOn st (nextSlotId st)).
        rewrite bookingsOn_none; [reflexivity |].
        intros x Hx. now destruct (Hbook x Hx).
  - (* a booking is pushed and its slot counts it *)
    destruct Hkept as (Hslots & Hlt & Hpairs & Hids & Hbook & Hcount).
    pose proof (find_some _ _ Hfind) as [Hslot Hslotid].
    unfold slotsKept, bookingsOn. simpl. rewrite updateSlot_ids, !map_app. simpl.
    split; [exact Hslots |]. split; [| split; [| split; [| split]]].
    + intros x Hin.
      assert (Hx : In (slot_id x) (map slot_id (mentorshipSlots st))).
      { rewrite <- (updateSlot_ids (slotId b)). now apply in_map. }
      apply in_map_iff in Hx as (y & Hy & Hin'). rewrite <- Hy. now apply Hlt.
    + apply NoDup_snoc; [exact Hpairs |].
      intros Hin. apply in_map_iff in Hin as (x & Hx & Hin).
      injection Hx as Hs Hu. apply Hnew. now exists x.
    + apply NoDup_snoc; [exact Hids |].
      intros Hin. apply in_map_iff in Hin as (x & Hx & Hin).
      destruct (Hbook x Hin). lia.
    + intros x Hin. apply in_app_or in Hin as [Hin | [<- | []]].
      * destruct (Hbook x Hin). lia.
      * specialize (Hlt slot Hslot). lia.
    + intros x Hin. rewrite List.filter_app, length_app. simpl.
      apply updateSlot_In_NoDup in Hin as [[Hold Hne] | (s0 & Hs0 & Hs0id & ->)];
        [| | exact Hslots].
      * rewrite (proj2 (Z.eqb_neq _ _)) by congruence. simpl.
        rewrite Nat.add_0_r. now apply Hcount.
      * simpl. rewrite Hs0id, Z.eqb_refl. simpl.
        specialize (Hcount s0 Hs0). unfold bookingsOn in Hcount. rewrite Hs0id in Hcount.
        rewrite Nat2Z.inj_add. simpl. lia.
  - (* a slot id is skipped *)
    destruct Hkept as (Hslots & Hlt & Hpairs & Hids & Hbook & Hcount).
    unfold slotsKept, bookingsOn. simpl.
    split; [exact Hslots |]. split; [| split; [exact Hpairs | split; [exact Hids | split]]].
    + intros x Hin. specialize (Hlt x Hin). lia.
    + intros x Hin. destruct (Hbook x Hin). lia.
    + exact Hcount.
Qed.

Lemma fresh_kept (st : Store) :
  freshStore st -> drivesKept st /\ applicationsKept st /\ slotsKept st.
Proof.
  intros (Hd & Ha & Hs & Hb).
  unfold drivesKept, applicationsKept, slotsKept, bookingsOn.
  rewrite Hd, Ha, Hs, Hb. simpl.
  repeat match goal with |- _ /\ _ => split end;
    first [intros ? [] | constructor].
Qed.

Lemma handleAll_kept (st : Store) (rqs : list Request) :
  drivesKept st /\ applicationsKept st /\ slotsKept st ->
  drivesKept (handleAll st rqs) /\ applicationsKept (handleAll st rqs) /\
  slotsKept (handleAll st rqs).
Proof.
  unfold handleAll. revert st. induction rqs as [| rq rqs IH]; intros st; simpl; [auto |].
  intros (Hd & Ha & Hs). apply IH. pose proof (handle_effect st rq) as Heff.
  split; [eapply drivesKept_step; eauto |].
  split; [eapply applicationsKept_step; eauto | eapply slotsKept_step; eauto].
Qed.

(** ** What holds in every store the requests can reach *)

Lemma find_snoc {X} (f : X -> bool) (l : list X) (x : X) :
  find f (l ++ [x])
  = match find f l with
    | Some y => Some y
    | None => if f x then Some x else None
    end.
Proof.
  induction l as [| y l IH]; simpl; [reflexivity |].
  now destruct (f y).
Qed.

Lemma handleAll_profiles (st : Store) (rqs : list Request) :
  studentProfiles (handleAll st rqs) = studentProfiles st.
Proof.
  unfold handleAll. revert st. induction rqs as [| rq rqs IH]; intros st; simpl; [auto |].
  rewrite (IH (handle st rq)).
  now destruct (handle_effect st rq).
Qed.

(** X1. From a fresh store, whatever requests are served: no two
    applications are for the same (drive, student) pair, application ids
    are distinct, and the drive of every application exists. *)
Theorem applications_stay_unique (st0 : Store) (rqs : list Request) :
  freshStore st0 ->
  NoDup (map (fun a => (driveId a, studentId a)) (applications (handleAll st0 rqs))) /\
  NoDup (map app_id (applications (handleAll st0 rqs))) /\
  forall a, In a (applications (handleAll st0 rqs)) ->
    driveExists (handleAll st0 rqs) (driveId a).
Proof.
  intros Hfresh.
  destruct (handleAll_kept st0 rqs (fresh_kept st0 Hfresh)) as (_ & (Hp & Hi & Hall) & _).
  split; [exact Hp |]. split; [exact Hi |]. intros a Ha. now destruct (Hall a Ha) as (_ & _ & H).
Qed.

Lemma applications_stay_unique_sample :
  length (applications sampleStore) = 1%nat /\
  NoDup (map (fun a => (driveId a, studentId a)) (applications sampleStore)).
Proof.
  split; [reflexivity |].
  apply (applications_stay_unique seededStore sampleRequests).
  repeat split.
Defined.

Lemma no_selected (apps : list Application) :
  (forall a, In a apps -> app_status a = APPLIED) -> List.filter isSelected apps = [].
Proof.
  induction apps as [| a apps IH]; intros Hall; simpl; [reflexivity |].
  unfold isSelected at 1. rewrite (Hall a (or_introl eq_refl)).
  rewrite bool_decide_eq_false_2 by discriminate.
  apply IH. intros x Hx. apply Hall. now right.
Qed.

Lemma isPlaced_no_selected (apps : list Application) (p : StudentProfile) :
  List.filter isSelected apps = [] -> isPlaced apps p = false.
Proof.
  intros Hnone. unfold isPlaced.
  induction apps as [| a apps IH]; simpl in *; [reflexivity |].
  destruct (isSelected a); [discriminate |].
  rewrite andb_false_r. now apply IH.
Qed.

(** X2. No request moves an application past APPLIED: from a fresh store
    every application stays APPLIED, so the statistics count no selection
    and no placed student, and the skill gap of every student is empty. *)
Theorem applications_stay_applied (st0 : Store) (rqs : list Request) :
  freshStore st0 ->
  (forall a, In a (applications (handleAll st0 rqs)) -> app_status a = APPLIED) /\
  (exists body, stats (handleAll st0 rqs) = Json OK body /\
                selectedCount body = 0%nat /\
                forall b bucket, branchStats body !! b = Some bucket -> placed bucket = 0) /\
  (forall uid, skillGap (handleAll st0 rqs) uid = Json OK []).
Proof.
  intros Hfresh.
  destruct (handleAll_kept st0 rqs (fresh_kept st0 Hfresh)) as (_ & (_ & _ & Hall) & _).
  set (st := handleAll st0 rqs) in *.
  assert (Happlied : forall a, In a (applications st) -> app_status a = APPLIED)
    by (intros a Ha; now destruct (Hall a Ha) as (_ & H & _)).
  pose proof (no_selected _ Happlied) as Hnone.
  split; [exact Happlied |]. split.
  - eexists. split; [reflexivity |]. simpl. rewrite Hnone. split; [reflexivity |].
    intros b bucket. unfold branchStatsOf. rewrite countProfiles_lookup, lookup_empty.
    assert (Hzero : forall l, List.filter (isPlaced (applications st)) l = []).
    { intros l. induction l as [| x l IH]; simpl; [reflexivity |].
      now rewrite isPlaced_no_selected. }
    destruct (List.filter (inBucket b) (studentProfiles st)) as [| p inside] eqn:Hin;
      [discriminate |].
    cbv iota beta zeta. rewrite Hzero. now intros [= <-].
  - intros uid. unfold skillGap, placedStudents. rewrite Hnone. simpl.
    now destruct (find _ (studentProfiles st)).
Qed.

Lemma applications_stay_applied_sample :
  length (applications sampleStore) = 1%nat /\
  forall a, In a (applications sampleStore) -> app_status a = APPLIED.
Proof.
  split; [reflexivity |].
  apply (applications_stay_applied seededStore sampleRequests).
  repeat split.
Defined.

(** X3. From a fresh store, whatever requests are served: slot ids are
    distinct, no student holds two bookings on one slot, and the
    currentBookings of every slot is the number of bookings on it. *)
Theorem slots_count_their_bookings (st0 : Store) (rqs : list Request) :
  freshStore st0 ->
  NoDup (map slot_id (mentorshipSlots (handleAll st0 rqs))) /\
  NoDup (map (fun b => (slotId b, booking_studentId b))
           (mentorshipBookings (handleAll st0 rqs))) /\
  forall s, In s (mentorshipSlots (handleAll st0 rqs)) ->
    currentBookings s
    = Z.of_nat (length (bookingsOn (handleAll st0 rqs) (slot_id s))).
Proof.
  intros Hfresh.
  destruct (handleAll_kept st0 rqs (fresh_kept st0 Hfresh))
    as (_ & _ & (Hs & _ & Hp & _ & _ & Hc)).
  auto.
Qed.

Lemma slots_count_their_bookings_sample :
  exists s,
    mentorshipSlots sampleStore = [s] /\ slot_status s = FULL /\
    currentBookings s = Z.of_nat (length (bookingsOn sampleStore (slot_id s))).
Proof.
  eexists. split; [reflexivity |]. split; [reflexivity |].
  apply (slots_count_their_bookings seededStore sampleRequests).
  - repeat split.
  - left. reflexivity.
Defined.

(** X4. From a fresh store: under each slot of an alumnus, the listing of
    the alumnus shows exactly currentBookings bookings, all of that slot. *)
Theorem mySlots_shows_every_booking (st0 : Store) (rqs : list Request) (uid : Z)
    (body : list (MentorshipSlot * list BookingRow))
    (slot : MentorshipSlot) (rows : list BookingRow) :
  freshStore st0 ->
  mySlots (handleAll st0 rqs) uid = Json OK body ->
  In (slot, rows) body ->
  alumniUserId slot = uid /\
  Z.of_nat (length rows) = currentBookings slot /\
  forall row, In row rows -> slotId (row_booking row) = slot_id slot.
Proof.
  intros Hfresh Hbody Hin.
  destruct (handleAll_kept st0 rqs (fresh_kept st0 Hfresh))
    as (_ & _ & (_ & _ & _ & _ & _ & Hcount)).
  unfold mySlots in Hbody. injection Hbody as <-.
  apply in_map_iff in Hin as (s & Hs & Hin). injection Hs as -> <-.
  apply filter_In in Hin as [Hin Huid]. split; [lia |]. split.
  - rewrite length_map. symmetry. now apply Hcount.
  - intros row Hrow. apply in_map_iff in Hrow as (b & <- & Hb).
    apply filter_In in Hb as [_ Hb]. simpl. lia.
Qed.

Lemma mySlots_shows_every_booking_sample :
  exists slot rows,
    mySlots sampleStore 901 = Json OK [(slot, rows)] /\
    Z.of_nat (length rows) = currentBookings slot /\ currentBookings slot = 1.
Proof.
  eexists. eexists. split; [reflexivity |]. split; [| reflexivity].
  eapply (mySlots_shows_every_booking seededStore sampleRequests 901).
  - repeat split.
  - reflexivity.
  - left. reflexivity.
Defined.

(** X5. From a fresh store: a slot is in the listing of available slots
    exactly when a student who holds no booking on it can book it. *)
Theorem open_slots_are_bookable (st0 : Store) (rqs : list Request)
    (s : MentorshipSlot) (uid : Z) (now : string)
    (rows : list (MentorshipSlot * string)) :
  freshStore st0 ->
  In s (mentorshipSlots (handleAll st0 rqs)) ->
  ~ holdsBooking (handleAll st0 rqs) uid (slot_id s) ->
  availableSlots (handleAll st0 rqs) = Json OK rows ->
  (In s (map fst rows)
   <-> statusOf (snd (bookSlot (handleAll st0 rqs) uid (slot_id s) now)) = Created).
Proof.
  intros Hfresh Hin Hfree Hrows.
  destruct (handleAll_kept st0 rqs (fresh_kept st0 Hfresh)) as (_ & _ & (Hnd & _)).
  set (st := handleAll st0 rqs) in *.
  unfold availableSlots in Hrows. injection Hrows as <-.
  rewrite map_map. simpl. rewrite map_id, filter_In.
  unfold bookSlot. rewrite (find_slot_NoDup _ _ Hnd Hin).
  apply find_booking_None in Hfree. unfold slotIsOpen.
  destruct (decide (slot_status s = AVAILABLE)) as [Hst | Hst].
  - rewrite bool_decide_eq_true_2 by assumption. simpl.
    destruct (Z.leb_spec (maxStudents s) (currentBookings s)),
             (Z.ltb_spec (currentBookings s) (maxStudents s)); try lia.
    + simpl. split; [intros [_ H'] | intros H']; discriminate.
    + rewrite Hfree. simpl. split; auto.
  - rewrite bool_decide_eq_false_2 by assumption. simpl.
    split; [intros [_ H'] | intros H']; discriminate.
Qed.

Lemma open_slots_are_bookable_sample :
  statusOf (snd (bookSlot (handleAll seededStore (firstn 4 sampleRequests)) 8 1
                   "2026-01-02T09:01:00.000Z")) = Created.
Proof.
  eapply (open_slots_are_bookable seededStore (firstn 4 sampleRequests)
            {| slot_id := 1; alumniUserId := 901; slotStart := "2026-01-10T10:00";
               slotEnd := "2026-01-10T11:00"; maxStudents := 1; currentBookings := 0;
               description := "Resume review"; slot_status := AVAILABLE |} 8).
  - repeat split.
  - left. reflexivity.
  - intros (b & [] & _).
  - reflexivity.
  - left. reflexivity.
Defined.

Lemma find_updateSlot_other (id id' : Z) (slots : list MentorshipSlot) :
  id <> id' ->
  find (fun s => slot_id s =? id') (updateSlot id bookedSlot slots)
  = find (fun s => slot_id s =? id') slots.
Proof.
  intros Hne. induction slots as [| x rest IH]; simpl; [reflexivity |].
  destruct (Z.eqb_spec (slot_id x) id) as [Hx | Hx]; simpl.
  - destruct (Z.eqb_spec (slot_id x) id'); [lia | reflexivity].
  - now rewrite IH.
Qed.

Lemma handle_keeps_seats (st : Store) (rq : Request) (id : Z) (s : MentorshipSlot) :
  find (fun x => slot_id x =? id) (mentorshipSlots st) = Some s ->
  exists s',
    find (fun x => slot_id x =? id) (mentorshipSlots (handle st rq)) = Some s' /\
    currentBookings s <= currentBookings s' /\
    maxStudents s' = maxStudents s /\
    (slot_status s = FULL -> s' = s).
Proof.
  intros Hfind.
  destruct (handle_effect st rq) as [| d | a | x | b slot Hid Hslot Havail Hroom Hnew | |];
    try (exists s; simpl; repeat split; [assumption | lia]).
  - exists s. simpl. rewrite find_snoc, Hfind. repeat split. lia.
  - simpl. destruct (Z.eq_dec (slotId b) id) as [Heq | Hne].
    + subst id. rewrite Hfind in Hslot. injection Hslot as <-.
      exists (bookedSlot s). split; [now apply find_updateSlot |].
      simpl. split; [lia |]. split; [reflexivity |]. rewrite Havail. discriminate.
    + exists s. rewrite find_updateSlot_other by assumption.
      repeat split; [assumption | lia].
Qed.

(** X6. No request frees a seat or reopens a slot: the slot of an id keeps
    its maxStudents, its currentBookings never decreases, and once it is
    FULL it is never changed again. *)
Theorem seats_are_never_freed (st : Store) (rqs : list Request) (id : Z)
    (s : MentorshipSlot) :
  find (fun x => slot_id x =? id) (mentorshipSlots st) = Some s ->
  exists s',
    find (fun x => slot_id x =? id) (mentorshipSlots (handleAll st rqs)) = Some s' /\
    currentBookings s <= currentBookings s' /\
    maxStudents s' = maxStudents s /\
    (slot_status s = FULL -> s' = s).
Proof.
  unfold handleAll. revert st s. induction rqs as [| rq rqs IH]; intros st s Hfind; simpl.
  - exists s. repeat split; [assumption | lia].
  - destruct (handle_keeps_seats st rq id s Hfind) as (s1 & Hfind1 & Hle1 & Hmax1 & Hfull1).
    destruct (IH _ _ Hfind1) as (s2 & Hfind2 & Hle2 & Hmax2 & Hfull2).
    exists s2. split; [exact Hfind2 |]. split; [lia |]. split; [congruence |].
    intros Hfull. specialize (Hfull1 Hfull). subst s1. now apply Hfull2.
Qed.

Lemma seats_are_never_freed_sample :
  exists s',
    find (fun x => slot_id x =? 1) (mentorshipSlots singleSlotBooked) = Some s' /\
    find (fun x => slot_id x =? 1)
      (mentorshipSlots (handleAll singleSlotBooked
                          [Mentorship (BookSlot 8 1 "2026-01-03T09:00:00.000Z")]))
    = Some s'.
Proof.
  destruct (seats_are_never_freed singleSlotBooked
              [Mentorship (BookSlot 8 1 "2026-01-03T09:00:00.000Z")] 1
              {| slot_id := 1; alumniUserId := 900; slotStart := "2026-01-10T10:00";
                 slotEnd := "2026-01-10T11:00"; maxStudents := 1; currentBookings := 1;
                 description := "Resume review"; slot_status := FULL |} eq_refl)
    as (s' & Hfind & _ & _ & Hsame).
  exists s'. rewrite Hfind. rewrite (Hsame eq_refl). split; reflexivity.
Defined.

Lemma sameTables_refl (st : Store) : sameTables st st.
Proof. repeat split. Qed.

(** X7. A request that is not answered 201 changes no table: each of the
    four handlers that write to a table leaves every table as it was when
    it refuses, and the counters too unless the answer is 500; a create
    that fails with 500 has at most advanced its own id counter (it has
    when a conversion throws, see [createDrive_throws]). *)
Theorem refused_requests_change_nothing (st : Store) :
  (forall uid body,
     statusOf (snd (createDrive st uid body)) <> Created ->
     sameTables st (fst (createDrive st uid body)) /\
     (statusOf (snd (createDrive st uid body)) <> InternalError ->
      fst (createDrive st uid body) = st) /\
     (fst (createDrive st uid body) = st \/
      fst (createDrive st uid body) = skipDriveId st)) /\
  (forall uid id now,
     statusOf (snd (applyToDrive st uid id now)) <> Created ->
     fst (applyToDrive st uid id now) = st) /\
  (forall uid start finish m descr,
     statusOf (snd (postSlot st uid start finish m descr)) <> Created ->
     sameTables st (fst (postSlot st uid start finish m descr)) /\
     (statusOf (snd (postSlot st uid start finish m descr)) <> InternalError ->
      fst (postSlot st uid start finish m descr) = st) /\
     (fst (postSlot st uid start finish m descr) = st \/
      fst (postSlot st uid start finish m descr) = skipSlotId st)) /\
  (forall uid id now,
     statusOf (snd (bookSlot st uid id now)) <> Created ->
     fst (bookSlot st uid id now) = st).
Proof.
  split; [| split; [| split]].
  - intros uid body. unfold createDrive.
    destruct (_ || _); simpl; [intros _; split; [| split]; auto using sameTables_refl |].
    destruct (buildDrive st uid body); simpl; [congruence |].
    intros _. split; [repeat split | split; [congruence | now right]].
  - intros uid id now. unfold applyToDrive.
    destruct (find _ (drives st)); [| reflexivity].
    destruct (find _ (applications st)); simpl; congruence.
  - intros uid start finish m descr. unfold postSlot, createSlot.
    destruct m as [parsed | err]; destruct (_ || _); simpl; try congruence;
      intros _; (split; [| split]);
      solve [apply sameTables_refl | repeat split | congruence | now left | now right].
  - intros uid id now. unfold bookSlot.
    destruct (find _ (mentorshipSlots st)); [| reflexivity].
    destruct (_ || _); [reflexivity |].
    destruct (find _ (mentorshipBookings st)); simpl; congruence.
Qed.

(** A body whose [minCgpa] cannot be converted costs a drive id. *)
Example createDrive_throws :
  createDrive seededStore 900
    {| new_companyName := "Initech"; new_roleTitle := "";
       new_minCgpa := Some (Throw "TypeError: Cannot convert object to primitive value");
       new_maxBacklogs := Normal None; new_allowedBranches := None;
       new_applicationDeadline := "" |}
  = (skipDriveId seededStore, Failure InternalError "Internal server error").
Proof. reflexivity. Qed.

Lemma NoDup_map_inj {X Y} (f : X -> Y) (l : list X) (x y : X) :
  NoDup (map f l) -> In x l -> In y l -> f x = f y -> x = y.
Proof.
  induction l as [| z l IH]; simpl; [intros _ [] |].
  intros Hnd. apply NoDup_cons in Hnd as [Hfresh Hnd].
  intros [-> | Hx] [-> | Hy] Heq; try reflexivity.
  - exfalso. apply Hfresh. rewrite Heq. apply list_elem_of_In. now apply in_map.
  - exfalso. apply Hfresh. rewrite <- Heq. apply list_elem_of_In. now apply in_map.
  - now apply IH.
Qed.

Lemma find_drive_NoDup (ds : list Drive) (d : Drive) :
  NoDup (map drive_id ds) -> In d ds ->
  find (fun x => drive_id x =? drive_id d) ds = Some d.
Proof.
  induction ds as [| x rest IH]; simpl; [intros _ [] |].
  intros Hnd. apply NoDup_cons in Hnd as [Hfresh Hnd].
  intros [-> | Hin]; [now rewrite Z.eqb_refl |].
  destruct (Z.eqb_spec (drive_id x) (drive_id d)) as [Heq | _]; [| now apply IH].
  exfalso. apply Hfresh. apply list_elem_of_In, in_map_iff. now exists d.
Qed.

(** X8. From a fresh store with one profile per student, the two listings
    agree: a drive is listed for a student with a complete profile exactly
    when the student is listed for the drive (every drive is ACTIVE, since
    createDrive makes it so and nothing changes a drive). *)
Theorem listings_agree (st0 : Store) (rqs : list Request) (uid : Z)
    (profile : StudentProfile) (d : Drive) :
  freshStore st0 ->
  NoDup (map userId (studentProfiles st0)) ->
  find (fun p => userId p =? uid) (studentProfiles (handleAll st0 rqs)) = Some profile ->
  branch profile <> "" ->
  In d (drives (handleAll st0 rqs)) ->
  exists rows body,
    eligibleDrivesFor (handleAll st0 rqs) uid = Json OK (None, rows) /\
    eligibleStudentsFor (handleAll st0 rqs) (drive_id d) = Json OK body /\
    (In d (map ed_drive rows) <-> In uid (map es_userId (eligibleStudents body))).
Proof.
  intros Hfresh Hprofiles Hfind Hbranch Hd.
  destruct (handleAll_kept st0 rqs (fresh_kept st0 Hfresh)) as ((Hnd & Hactive) & _).
  pose proof (handleAll_profiles st0 rqs) as Hsame. rewrite <- Hsame in Hprofiles.
  set (st := handleAll st0 rqs) in *.
  destruct (eligibleDrivesFor_rows st uid profile Hfind Hbranch) as (rows & Hrows & Hmap).
  destruct (eligibleStudentsFor_rows st (drive_id d) d (find_drive_NoDup _ _ Hnd Hd))
    as (body & Hbody & Hids & _).
  exists rows, body. split; [exact Hrows |]. split; [exact Hbody |].
  rewrite Hmap, Hids, filter_In, in_map_iff.
  rewrite eligibleDrivesFilter_split.
  destruct (Hactive d Hd) as [_ Hact]. rewrite Hact.
  rewrite bool_decide_eq_true_2 by reflexivity. rewrite andb_true_r.
  apply find_some in Hfind as [Hin Huid]. split.
  - intros [_ Hok]. exists profile. split; [lia |]. apply filter_In. auto.
  - intros (p & Hp & Hpin). apply filter_In in Hpin as [Hpin Hok].
    assert (p = profile) as -> by (apply (NoDup_map_inj userId _ _ _ Hprofiles); auto; lia).
    auto.
Qed.

Lemma listings_agree_sample :
  exists rows body,
    eligibleDrivesFor sampleStore 7 = Json OK (None, rows) /\
    eligibleStudentsFor sampleStore 1 = Json OK body /\
    (In (nth 0 (drives sampleStore) csDrive) (map ed_drive rows)
     <-> In 7 (map es_userId (eligibleStudents body))).
Proof.
  apply (listings_agree seededStore sampleRequests 7 csStudent
           (nth 0 (drives sampleStore) csDrive)).
  - repeat split.
  - repeat constructor. intros H. apply list_elem_of_In in H. destruct H.
  - reflexivity.
  - discriminate.
  - left. reflexivity.
Defined.

(** X9. No request to the drives, applications, slots, bookings or
    profiles changes the table of profiles, so a student who has no profile
    is told to complete the profile, with no drive listed, whatever has
    been requested, profile writes included. *)
Theorem profiles_never_change (st : Store) (rqs : list Request) (uid : Z) :
  find (fun p => userId p =? uid) (studentProfiles st) = None ->
  studentProfiles (handleAll st rqs) = studentProfiles st /\
  find (fun p => userId p =? uid) (studentProfiles (handleAll st rqs)) = None /\
  eligibleDrivesFor (handleAll st rqs) uid
  = Json OK (Some "Please complete your profile first", []).
Proof.
  intros Hnone. pose proof (handleAll_profiles st rqs) as Hp.
  split; [exact Hp |]. split; [now rewrite Hp |].
  unfold eligibleDrivesFor. now rewrite Hp, Hnone.
Qed.

Lemma profiles_never_change_sample :
  eligibleDrivesFor sampleStore 8 = Json OK (Some "Please complete your profile first", []).
Proof.
  apply (profiles_never_change seededStore sampleRequests 8). reflexivity.
Defined.

Lemma NoDup_pairs_filter (apps : list Application) (uid : Z) :
  NoDup (map (fun a => (driveId a, studentId a)) apps) ->
  NoDup (map driveId (List.filter (fun a => studentId a =? uid) apps)).
Proof.
  induction apps as [| a apps IH]; simpl; [constructor |].
  intros Hnd. apply NoDup_cons in Hnd as [Hfresh Hnd].
  destruct (Z.eqb_spec (studentId a) uid) as [Heq | _]; [| now apply IH].
  simpl. apply NoDup_cons. split; [| now apply IH].
  intros Hin. apply Hfresh. apply list_elem_of_In in Hin.
  apply in_map_iff in Hin as (x & Hx & Hin). apply filter_In in Hin as [Hin Hxu].
  apply list_elem_of_In, in_map_iff. exists x. split; [| exact Hin].
  f_equal; lia.
Qed.

(** X10. From a fresh store, the applications listing of a student holds
    the applications of that student, each with the summary of its drive
    (never a null drive), and no drive twice. *)
Theorem applicationsFor_joins_drives (st0 : Store) (rqs : list Request) (uid : Z)
    (rows : list (Application * option DriveSummary)) :
  freshStore st0 ->
  applicationsFor (handleAll st0 rqs) uid = Json OK rows ->
  map fst rows
  = List.filter (fun a => studentId a =? uid) (applications (handleAll st0 rqs)) /\
  (forall app o, In (app, o) rows ->
     studentId app = uid /\ exists summary, o = Some summary /\ ds_id summary = driveId app) /\
  NoDup (map (fun r => driveId (fst r)) rows).
Proof.
  intros Hfresh Hrows.
  destruct (handleAll_kept st0 rqs (fresh_kept st0 Hfresh)) as (_ & (Hpairs & _ & Hall) & _).
  set (st := handleAll st0 rqs) in *.
  unfold applicationsFor in Hrows. injection Hrows as <-.
  assert (Hfst : forall l : list Application,
            map fst (map (fun app =>
              (app, (fun drive => {| ds_id := drive_id drive;
                                     ds_companyName := companyName drive;
                                     ds_roleTitle := roleTitle drive |})
                      <$> find (fun d => drive_id d =? driveId app) (drives st))) l) = l).
  { intros l. rewrite map_map. simpl. apply map_id. }
  split; [apply Hfst |]. split.
  - intros app o Hin. apply in_map_iff in Hin as (a & Ha & Hin).
    injection Ha as -> <-. apply filter_In in Hin as [Hin Huid].
    split; [lia |].
    destruct (Hall app Hin) as (_ & _ & Hex).
    destruct (find _ (drives st)) as [d |] eqn:Hd.
    + eexists. split; [reflexivity |]. simpl.
      apply find_some in Hd as [_ Hd]. lia.
    + apply find_drive_None in Hd. contradiction.
  - rewrite <- (map_map fst driveId), Hfst. now apply NoDup_pairs_filter.
Qed.

Lemma applicationsFor_joins_drives_sample :
  exists rows,
    applicationsFor sampleStore 7 = Json OK rows /\ length rows = 1%nat /\
    NoDup (map (fun r => driveId (fst r)) rows).
Proof.
  eexists. split; [reflexivity |]. split; [reflexivity |].
  apply (applicationsFor_joins_drives seededStore sampleRequests 7);
    [repeat split | reflexivity].
Defined.

Lemma applyToDrive_created_inv (st st' : Store) (uid id : Z) (now : string)
    (a : Application) :
  applyToDrive st uid id now = (st', Json Created a) ->
  find (fun x => (driveId x =? id) && (studentId x =? uid)) (applications st) = None /\
  st' = pushApplication st a /\
  driveId a = id /\ studentId a = uid /\ app_status a = APPLIED.
Proof.
  unfold applyToDrive.
  destruct (find _ (drives st)); [| discriminate].
  destruct (find _ (applications st)); [discriminate |].
  intros [= <- <-]. auto.
Qed.

(** X11. After a student has applied to a drive, the listing of eligible
    drives of that student shows the drive, when it shows it, with
    hasApplied set and status APPLIED, and the flags of the other drives
    are what they were. *)
Theorem applied_drive_is_flagged (st st' : Store) (uid id : Z) (now : string)
    (a : Application) (profile : StudentProfile) :
  applyToDrive st uid id now = (st', Json Created a) ->
  find (fun p => userId p =? uid) (studentProfiles st) = Some profile ->
  branch profile <> "" ->
  exists rows rows',
    eligibleDrivesFor st uid = Json OK (None, rows) /\
    eligibleDrivesFor st' uid = Json OK (None, rows') /\
    map ed_drive rows' = map ed_drive rows /\
    (forall row, In row rows' -> drive_id (ed_drive row) = id ->
       hasApplied row = true /\ applicationStatus row = Some APPLIED) /\
    (forall row, In row rows' -> drive_id (ed_drive row) <> id -> In row rows).
Proof.
  intros Happly Hfind Hbranch.
  apply applyToDrive_created_inv in Happly as (Hnone & -> & Hd & Hs & Hst).
  unfold eligibleDrivesFor. simpl. rewrite Hfind.
  destruct (String.eqb_spec (branch profile) "") as [Heq | _]; [contradiction |].
  eexists. eexists. split; [reflexivity |]. split; [reflexivity |].
  split; [now rewrite !map_map |]. split.
  - intros row Hrow Hid. apply in_map_iff in Hrow as (d & <- & _). simpl in *.
    rewrite find_snoc. rewrite Hid, Hnone, Hd, Hs, !Z.eqb_refl. simpl.
    now rewrite Hst.
  - intros row Hrow Hid. apply in_map_iff in Hrow as (d & <- & Hdin). simpl in *.
    apply in_map_iff. exists d. split; [| exact Hdin].
    rewrite find_snoc.
    destruct (find (fun x => (driveId x =? drive_id d) && (studentId x =? uid))
                (applications st)); [reflexivity |].
    rewrite Hd. destruct (Z.eqb_spec id (drive_id d)); [congruence | reflexivity].
Qed.

Lemma applied_drive_is_flagged_sample :
  exists rows',
    eligibleDrivesFor (handleAll seededStore (firstn 2 sampleRequests)) 7
    = Json OK (None, rows') /\
    forall row, In row rows' -> drive_id (ed_drive row) = 1 -> hasApplied row = true.
Proof.
  destruct (applied_drive_is_flagged
              (handleAll seededStore (firstn 1 sampleRequests))
              (handleAll seededStore (firstn 2 sampleRequests))
              7 1 "2026-01-01T10:00:00.000Z"
              {| app_id := 1; driveId := 1; studentId := 7; app_status := APPLIED;
                 appliedAt := "2026-01-01T10:00:00.000Z";
                 updatedAt := "2026-01-01T10:00:00.000Z" |}
              csStudent eq_refl eq_refl)
    as (rows & rows' & _ & Hrows' & _ & Hflag & _); [discriminate |].
  exists rows'. split; [exact Hrows' |].
  intros row Hrow Hid. now destruct (Hflag row Hrow Hid).
Defined.

(** ** Job referrals *)

Lemma patchJob_spec (jobId uid : Z) (status : string) (jobs : list AlumniJob) :
  match patchJob jobId uid status jobs with
  | None => forall j, In j jobs -> job_id j = jobId -> job_alumniUserId j <> uid
  | Some (jobs', j') =>
      exists before j after,
        jobs = before ++ j :: after /\ jobs' = before ++ j' :: after /\
        job_id j = jobId /\ job_alumniUserId j = uid /\
        j' = (if String.eqb status "" then j else withStatus j status)
  end.
Proof.
  induction jobs as [| j rest IH]; simpl; [intros ? [] |].
  destruct (Z.eqb_spec (job_id j) jobId) as [Hid | Hid];
    destruct (Z.eqb_spec (job_alumniUserId j) uid) as [Hu | Hu]; simpl;
    try (exists [], j, rest; repeat split; now auto);
    (destruct (patchJob jobId uid status rest) as [[rest' j'] |];
     [ destruct IH as (before & x & after & -> & -> & Hx & Hxu & Hj');
       exists (j :: before), x, after; repeat split; auto
     | intros y [<- | Hy]; [congruence | now apply IH] ]).
Qed.

Lemma setJobStatus_ids (jb : JobBoard) (uid jobId : Z) (status : string) :
  map (fun j => (job_id j, job_alumniUserId j))
      (alumniJobs (fst (setJobStatus jb uid jobId status)))
  = map (fun j => (job_id j, job_alumniUserId j)) (alumniJobs jb) /\
  map job_id (alumniJobs (fst (setJobStatus jb uid jobId status)))
  = map job_id (alumniJobs jb) /\
  nextJobId (fst (setJobStatus jb uid jobId status)) = nextJobId jb.
Proof.
  unfold setJobStatus. pose proof (patchJob_spec jobId uid status (alumniJobs jb)) as Hspec.
  destruct (patchJob jobId uid status (alumniJobs jb)) as [[jobs' j'] |]; [| auto].
  destruct Hspec as (before & j & after & Hjobs & -> & Hid & Hu & ->).
  rewrite Hjobs. simpl. rewrite !map_app. simpl.
  now destruct (String.eqb status "").
Qed.

(** X12. A job can only be changed by the alumnus who posted it: a PATCH by
    a user who owns no job of that id is answered 404 and changes nothing,
    and any PATCH leaves every job of another alumnus, and the ids and
    owners of all jobs, as they were. *)
Theorem only_the_owner_patches (jb : JobBoard) (uid jobId : Z) (status : string) :
  ((forall j, In j (alumniJobs jb) -> job_id j = jobId -> job_alumniUserId j <> uid) ->
   setJobStatus jb uid jobId status = (jb, Failure NotFound "Job referral not found"))
  /\
  (forall j, In j (alumniJobs jb) -> job_alumniUserId j <> uid ->
     In j (alumniJobs (fst (setJobStatus jb uid jobId status))))
  /\
  map (fun j => (job_id j, job_alumniUserId j))
      (alumniJobs (fst (setJobStatus jb uid jobId status)))
  = map (fun j => (job_id j, job_alumniUserId j)) (alumniJobs jb).
Proof.
  split; [| split; [| now destruct (setJobStatus_ids jb uid jobId status)]].
  - unfold setJobStatus.
    pose proof (patchJob_spec jobId uid status (alumniJobs jb)) as Hspec.
    destruct (patchJob jobId uid status (alumniJobs jb)) as [[jobs' j'] |]; [| reflexivity].
    destruct Hspec as (before & j & after & Hjobs & _ & Hid & Hu & _).
    intros Hnone. exfalso. apply (Hnone j); auto.
    rewrite Hjobs. apply in_or_app. right. now left.
  - unfold setJobStatus.
    pose proof (patchJob_spec jobId uid status (alumniJobs jb)) as Hspec.
    destruct (patchJob jobId uid status (alumniJobs jb)) as [[jobs' j'] |]; [| auto].
    destruct Hspec as (before & j & after & Hjobs & -> & Hid & Hu & _).
    rewrite Hjobs. simpl. intros x Hx Hxu. apply in_or_app.
    apply in_app_or in Hx as [Hx | [<- | Hx]]; [now left | congruence | right; now right].
Qed.

Lemma jobsKept_step (jb : JobBoard) (rq : JobRequest) :
  NoDup (map job_id (alumniJobs jb)) /\
  (forall j, In j (alumniJobs jb) -> job_id j < nextJobId jb) ->
  NoDup (map job_id (alumniJobs (serveJob jb rq))) /\
  (forall j, In j (alumniJobs (serveJob jb rq)) -> job_id j < nextJobId (serveJob jb rq)).
Proof.
  intros [Hnd Hlt]. destruct rq as [uid body now | uid jobId status]; cbn [serveJob].
  - unfold postJob. destruct (_ || _); simpl; [auto |]. split.
    + rewrite map_app. simpl. apply NoDup_snoc; [exact Hnd |].
      intros Hin. apply in_map_iff in Hin as (x & Hx & Hin). specialize (Hlt x Hin). lia.
    + intros j Hj. apply in_app_or in Hj as [Hj | [<- | []]]; [| simpl; lia].
      specialize (Hlt j Hj). lia.
  - destruct (setJobStatus_ids jb uid jobId status) as (_ & Hids & Hnext).
    rewrite Hnext, Hids. split; [exact Hnd |].
    intros j Hj. apply (in_map job_id) in Hj. rewrite Hids in Hj.
    apply in_map_iff in Hj as (x & <- & Hx). now apply Hlt.
Qed.

Lemma serveJobs_kept (jb : JobBoard) (rqs : list JobRequest) :
  NoDup (map job_id (alumniJobs jb)) /\
  (forall j, In j (alumniJobs jb) -> job_id j < nextJobId jb) ->
  NoDup (map job_id (alumniJobs (serveJobs jb rqs))) /\
  (forall j, In j (alumniJobs (serveJobs jb rqs)) ->
     job_id j < nextJobId (serveJobs jb rqs)).
Proof.
  unfold serveJobs. revert jb.
  induction rqs as [| rq rqs IH]; intros jb Hjb; simpl; [exact Hjb |].
  apply IH. now apply jobsKept_step.
Qed.

(** X13. From the empty board, whatever is posted and patched, job ids are
    distinct and below the counter. *)
Theorem job_ids_stay_unique (rqs : list JobRequest) :
  NoDup (map job_id (alumniJobs (serveJobs emptyBoard rqs))) /\
  forall j, In j (alumniJobs (serveJobs emptyBoard rqs)) ->
    job_id j < nextJobId (serveJobs emptyBoard rqs).
Proof.
  apply serveJobs_kept. simpl. split; [constructor | intros ? []].
Qed.

(** X14. With distinct job ids, when the owner patches a job with a
    non-empty status, the job stays in the owner's own listing, and it is
    in the public listing of active jobs exactly when the new status is the
    string ACTIVE (any other spelling hides it). *)
Theorem patched_job_visibility (jb : JobBoard) (us : list User) (uid jobId : Z)
    (status : string) (j : AlumniJob) :
  NoDup (map job_id (alumniJobs jb)) ->
  In j (alumniJobs jb) -> job_id j = jobId -> job_alumniUserId j = uid ->
  status <> "" ->
  exists jb' mine active,
    setJobStatus jb uid jobId status = (jb', Json OK (withStatus j status)) /\
    myJobs jb' uid = Json OK mine /\
    listActiveJobs us jb' = Json OK active /\
    In (withStatus j status) mine /\
    ((exists row, In row active /\ job_id (fst row) = jobId) <-> status = "ACTIVE").
Proof.
  intros Hnd Hj Hid Hu Hstatus. unfold setJobStatus.
  pose proof (patchJob_spec jobId uid status (alumniJobs jb)) as Hspec.
  destruct (patchJob jobId uid status (alumniJobs jb)) as [[jobs' j'] |].
  2: { exfalso. now apply (Hspec j Hj Hid). }
  destruct Hspec as (before & x & after & Hjobs & -> & Hxid & Hxu & ->).
  assert (x = j) as ->.
  { apply (NoDup_map_inj job_id (alumniJobs jb)); auto; [| congruence].
    rewrite Hjobs. apply in_or_app. right. now left. }
  destruct (String.eqb_spec status "") as [Heq | _]; [contradiction |].
  assert (Hnd' : NoDup (map job_id (before ++ withStatus j status :: after))).
  { rewrite Hjobs in Hnd. now rewrite map_app in *. }
  assert (Hin' : In (withStatus j status) (before ++ withStatus j status :: after))
    by (apply in_or_app; right; now left).
  eexists. eexists. eexists.
  split; [reflexivity |]. split; [reflexivity |]. split; [reflexivity |]. simpl. split.
  - apply filter_In. split; [exact Hin' | simpl; lia].
  - split.
    + intros ([y alumni] & Hrow & Hyid). simpl in Hyid.
      apply in_map_iff in Hrow as (z & Hz & Hzin). injection Hz as -> _.
      apply filter_In in Hzin as [Hzin Hactive].
      assert (y = withStatus j status) as ->
        by (apply (NoDup_map_inj job_id _ _ _ Hnd'); auto; simpl; congruence).
      simpl in Hactive. now apply String.eqb_eq in Hactive.
    + intros ->. eexists. split.
      * apply in_map. apply filter_In. split; [exact Hin' | reflexivity].
      * simpl. exact Hid.
Qed.

Lemma patched_job_visibility_sample :
  exists jb' active,
    setJobStatus twoJobsBoard 901 1 "closed"
    = (jb', Json OK (withStatus internship901 "closed")) /\
    listActiveJobs [] jb' = Json OK active /\
    ~ exists row, In row active /\ job_id (fst row) = 1.
Proof.
  destruct (patched_job_visibility twoJobsBoard [] 901 1 "closed" internship901)
    as (jb' & mine & active & Hset & _ & Hactive & _ & Hiff).
  - apply (serveJobs_kept emptyBoard (firstn 2 jobRequests)).
    simpl. split; [constructor | intros ? []].
  - left. reflexivity.
  - reflexivity.
  - reflexivity.
  - discriminate.
  - exists jb', active. split; [exact Hset |]. split; [exact Hactive |].
    intros Hrow. apply Hiff in Hrow. discriminate.
Defined.

(** ** Accounts *)

Lemma toLowerCase_empty (s : string) : toLowerCase s = "" <-> s = "".
Proof. destruct s; simpl; split; congruence. Qed.

Lemma roleOfName_name (s : string) (r : Role) : roleOfName s = Some r -> roleName r = s.
Proof.
  unfold roleOfName.
  destruct (String.eqb_spec s "TPO") as [-> | _]; [now intros [= <-] |].
  destruct (String.eqb_spec s "STUDENT") as [-> | _]; [now intros [= <-] |].
  destruct (String.eqb_spec s "ALUMNI") as [-> | _]; [now intros [= <-] | discriminate].
Qed.

Lemma findByEmail_None (rows : list Account) (mail : string) :
  findByEmail rows mail = None ->
  ~ In (toLowerCase mail) (map (fun a => toLowerCase (email (account a))) rows).
Proof.
  intros Hnone Hin. apply in_map_iff in Hin as (a & Ha & Hin).
  apply (find_none _ _ Hnone) in Hin. simpl in Hin.
  rewrite Ha, String.eqb_refl in Hin. discriminate.
Qed.

Section AuthProperties.
Context (hash : string -> string -> string)
        (compare : string -> string -> bool)
        (sign : User -> Z -> string).

(** A registration is refused and changes nothing, or it appends one
    account whose email is new up to letter case. *)
Lemma register_cases (tbl : Accounts) (salt : string) (now : Z) (body : Credentials) :
  (fst (register hash sign tbl salt now body) = tbl /\
   statusOf (snd (register hash sign tbl salt now body)) <> Created)
  \/
  exists r,
    roleOfName (toUpperCase (cred_role body)) = Some r /\
    cred_email body <> "" /\ cred_password body <> "" /\
    findByEmail (accountRows tbl) (cred_email body) = None /\
    register hash sign tbl salt now body
    = ({| accountRows :=
            accountRows tbl
            ++ [{| account := {| user_id := nextUserId tbl; name := cred_name body;
                                 email := cred_email body; phone := cred_phone body;
                                 role := r |};
                   passwordHash := hash salt (cred_password body) |}];
          nextUserId := nextUserId tbl + 1 |},
       Json Created
         {| token := sign {| user_id := nextUserId tbl; name := cred_name body;
                             email := cred_email body; phone := cred_phone body;
                             role := r |} now;
            session_user := {| user_id := nextUserId tbl; name := cred_name body;
                               email := cred_email body; phone := cred_phone body;
                               role := r |} |}).
Proof.
  unfold register.
  destruct (String.eqb_spec (cred_email body) "") as [He | He];
    [left; split; [reflexivity | discriminate] |].
  destruct (String.eqb_spec (cred_password body) "") as [Hp | Hp];
    [left; split; [reflexivity | discriminate] |].
  destruct (String.eqb_spec (cred_role body) "") as [Hr | Hr];
    [left; split; [reflexivity | discriminate] |].
  simpl.
  destruct (roleOfName (toUpperCase (cred_role body))) as [r |];
    [| left; split; [reflexivity | discriminate]].
  destruct (findByEmail (accountRows tbl) (cred_email body)) eqn:Hfind;
    [left; split; [reflexivity | discriminate] |].
  right. exists r. auto.
Qed.

Lemma register_kept (tbl : Accounts) (salt : string) (now : Z) (body : Credentials) :
  accountsKept tbl -> accountsKept (fst (register hash sign tbl salt now body)).
Proof.
  intros (Hmails & Hids & Hlt).
  destruct (register_cases tbl salt now body) as [[-> _] | (r & _ & _ & _ & Hnone & ->)];
    [now repeat split |].
  unfold accountsKept. simpl. rewrite !map_app. simpl. split; [| split].
  - apply NoDup_snoc; [exact Hmails | now apply findByEmail_None].
  - apply NoDup_snoc; [exact Hids |].
    intros Hin. apply in_map_iff in Hin as (a & Ha & Hin). specialize (Hlt a Hin). lia.
  - intros a Ha. apply in_app_or in Ha as [Ha | [<- | []]]; [| simpl; lia].
    specialize (Hlt a Ha). lia.
Qed.

(** X15. Registration keeps the accounts apart: whatever is registered, no
    two accounts have the same email up to letter case, and user ids are
    distinct. *)
Theorem accounts_stay_unique (tbl : Accounts) (rqs : list (string * Z * Credentials)) :
  accountsKept tbl ->
  NoDup (map (fun a => toLowerCase (email (account a)))
           (accountRows (registerAll hash sign tbl rqs))) /\
  NoDup (map (fun a => user_id (account a)) (accountRows (registerAll hash sign tbl rqs))).
Proof.
  intros Hkept.
  assert (Hall : accountsKept (registerAll hash sign tbl rqs)).
  { unfold registerAll. revert tbl Hkept.
    induction rqs as [| [[salt now] body] rqs IH]; intros tbl Hkept; simpl; [exact Hkept |].
    apply IH. now apply register_kept. }
  destruct Hall as (Hm & Hi & _). auto.
Qed.

(** X16. An account that was registered can log in: with the same email in
    any letter case, the same password, and no role or the same role in any
    letter case, the login is answered 200 with the user that the
    registration returned and a token signed for that user at the time of
    the login, provided the library accepts a password against its own
    hash. *)
Theorem register_then_login (tbl tbl' : Accounts) (salt : string) (now now' : Z)
    (body body' : Credentials) (session : Session) :
  (forall s p, compare p (hash s p) = true) ->
  register hash sign tbl salt now body = (tbl', Json Created session) ->
  toLowerCase (cred_email body') = toLowerCase (cred_email body) ->
  cred_password body' = cred_password body ->
  cred_role body' = "" \/ toUpperCase (cred_role body') = toUpperCase (cred_role body) ->
  login compare sign tbl' now' body'
  = Json OK {| token := sign (session_user session) now';
               session_user := session_user session |}.
Proof.
  intros Hlib Hreg Hmail Hpw Hrole.
  destruct (register_cases tbl salt now body) as [[_ Hno] | (r & Hr & He & Hp & Hnone & Heq)].
  { rewrite Hreg in Hno. simpl in Hno. congruence. }
  rewrite Heq in Hreg. injection Hreg as <- <-.
  unfold login. simpl.
  destruct (String.eqb_spec (cred_email body') "") as [He' | _].
  { rewrite He' in Hmail. symmetry in Hmail.
    apply (proj1 (toLowerCase_empty (cred_email body))) in Hmail. congruence. }
  destruct (String.eqb_spec (cred_password body') "") as [Hp' | _]; [congruence |].
  simpl. unfold findByEmail in *. rewrite find_snoc, Hmail, Hnone. simpl.
  rewrite String.eqb_refl. cbn [passwordHash account role]. rewrite Hpw, Hlib. simpl.
  apply roleOfName_name in Hr.
  destruct Hrole as [-> | Hsame]; [reflexivity |].
  rewrite Hsame, Hr, String.eqb_refl. simpl. now rewrite andb_false_r.
Qed.

(** X17. A login succeeds only for an account of the table whose email is
    the submitted one up to letter case, whose hash the library accepts for
    the submitted password, and whose role is the submitted one when a role
    is submitted. *)
Theorem login_needs_the_password (tbl : Accounts) (now : Z) (body : Credentials)
    (session : Session) :
  login compare sign tbl now body = Json OK session ->
  exists a,
    In a (accountRows tbl) /\ account a = session_user session /\
    toLowerCase (email (account a)) = toLowerCase (cred_email body) /\
    compare (cred_password body) (passwordHash a) = true /\
    (cred_role body = "" \/ roleName (role (account a)) = toUpperCase (cred_role body)).
Proof.
  unfold login. destruct (_ || _); [discriminate |].
  destruct (findByEmail (accountRows tbl) (cred_email body)) as [a |] eqn:Hfind;
    [| discriminate].
  apply find_some in Hfind as [Hin Hmail]. apply String.eqb_eq in Hmail.
  destruct (compare (cred_password body) (passwordHash a)) eqn:Hpw; [| discriminate].
  simpl.
  destruct (String.eqb_spec (cred_role body) "") as [Hr | Hr]; simpl.
  - intros [= <-]. exists a. repeat split; auto.
  - destruct (String.eqb_spec (roleName (role (account a))) (toUpperCase (cred_role body)));
      simpl; [| discriminate].
    intros [= <-]. exists a. repeat split; auto.
Qed.
End AuthProperties.

Lemma accounts_stay_unique_sample :
  NoDup (map (fun a => toLowerCase (email (account a)))
           (accountRows (registerAll plainHash plainSign noAccounts
                           [("salt1", 1767261600, adaCredentials);
                            ("salt2", 1767261660, adaCredentials)]))) /\
  length (accountRows (registerAll plainHash plainSign noAccounts
                         [("salt1", 1767261600, adaCredentials);
                          ("salt2", 1767261660, adaCredentials)])) = 1%nat.
Proof.
  split; [| reflexivity].
  apply (accounts_stay_unique plainHash plainSign noAccounts).
  unfold accountsKept. simpl. repeat split; first [intros ? [] | constructor].
Defined.

Lemma register_then_login_sample :
  exists tbl' session,
    register plainHash plainSign noAccounts "salt1" 1767261600 adaCredentials
    = (tbl', Json Created session) /\
    login plainCompare plainSign tbl' 1767265200
      {| cred_name := ""; cred_email := "ADA@example.COM"; cred_phone := "";
         cred_password := "s3cret"; cred_role := "Student" |}
    = Json OK {| token := plainSign (session_user session) 1767265200;
                 session_user := session_user session |}.
Proof.
  eexists. eexists. split; [reflexivity |].
  eapply (register_then_login plainHash plainCompare plainSign noAccounts _ "salt1"
            1767261600 1767265200 adaCredentials).
  - intros s p. apply String.eqb_refl.
  - reflexivity.
  - reflexivity.
  - reflexivity.
  - right. reflexivity.
Defined.

Lemma login_needs_the_password_sample :
  exists a,
    In a (accountRows
            (fst (register plainHash plainSign noAccounts "salt1" 1767261600 adaCredentials)))
    /\ plainCompare "s3cret" (passwordHash a) = true.
Proof.
  destruct (login_needs_the_password plainCompare plainSign
              (fst (register plainHash plainSign noAccounts "salt1" 1767261600 adaCredentials))
              1767265200
              {| cred_name := ""; cred_email := "ada@example.com"; cred_phone := "";
                 cred_password := "s3cret"; cred_role := "" |}
              _ eq_refl) as (a & Hin & _ & _ & Hpw & _).
  exists a. split; [exact Hin | exact Hpw].
Defined.

(** ** PlacementBot: letter case and white space *)

Lemma lowerAscii_upperAscii (c : ascii) : lowerAscii (upperAscii c) = lowerAscii c.
Proof. destruct c as [[] [] [] [] [] [] [] []]; reflexivity. Qed.

Lemma lowerAscii_idem (c : ascii) : lowerAscii (lowerAscii c) = lowerAscii c.
Proof. destruct c as [[] [] [] [] [] [] [] []]; reflexivity. Qed.

Lemma isSpace_lowerAscii (c : ascii) : isSpace (lowerAscii c) = isSpace c.
Proof. destruct c as [[] [] [] [] [] [] [] []]; reflexivity. Qed.

Lemma toLowerCase_toUpperCase (s : string) : toLowerCase (toUpperCase s) = toLowerCase s.
Proof.
  induction s as [| c s IH]; simpl; [reflexivity |].
  now rewrite lowerAscii_upperAscii, IH.
Qed.

Lemma toLowerCase_idem (s : string) : toLowerCase (toLowerCase s) = toLowerCase s.
Proof.
  induction s as [| c s IH]; simpl; [reflexivity |].
  now rewrite lowerAscii_idem, IH.
Qed.

Lemma ask_by_lower_case (corpus : list FAQ) (q q' : string) :
  toLowerCase q' = toLowerCase q -> ask corpus q' = ask corpus q.
Proof.
  intros Heq. unfold ask. rewrite Heq.
  destruct (String.eqb_spec q' "") as [-> | Hq'], (String.eqb_spec q "") as [-> | Hq];
    try reflexivity.
  - symmetry in Heq. apply (proj1 (toLowerCase_empty q)) in Heq. contradiction.
  - apply (proj1 (toLowerCase_empty q')) in Heq. contradiction.
Qed.

(** X18. The bot does not tell the letter cases of ASCII text apart: a
    question of ASCII characters put in upper case or in lower case gets
    the reply of the question as typed. *)
Theorem ask_ignores_letter_case (corpus : list FAQ) (q : string) :
  asciiText q = true ->
  ask corpus (toUpperCase q) = ask corpus q /\
  ask corpus (toLowerCase q) = ask corpus q.
Proof.
  intros _. split; apply ask_by_lower_case.
  - apply toLowerCase_toUpperCase.
  - apply toLowerCase_idem.
Qed.

Lemma ask_ignores_letter_case_sample :
  ask faqs (toUpperCase "Can I apply with backlogs?") = ask faqs "Can I apply with backlogs?".
Proof.
  apply (ask_ignores_letter_case faqs "Can I apply with backlogs?"). reflexivity.
Defined.

Lemma strIncludes_empty (s : string) : strIncludes s "" = true.
Proof. destruct s; reflexivity. Qed.

Lemma splitGo_head (cur : string) (sep : bool) (s : string) :
  exists first rest, splitGo cur sep s = first :: rest.
Proof.
  revert cur sep. induction s as [| c s IH]; intros cur sep; simpl.
  - now exists cur, [].
  - destruct (isSpace c); [destruct sep |]; eauto.
Qed.

(** X19. A question that starts with white space scores at least 1 on every
    FAQ, the empty piece before the white space being found in every
    question: no FAQ is left out of the ranking and, with a FAQ in the
    corpus, the fallback answer is never given. *)
Theorem leading_blank_matches_everything (corpus : list FAQ) (c : ascii) (q : string) :
  isSpace c = true ->
  (forall faq, 1 <= faqScore (toLowerCase (String c q)) faq) /\
  length (matchedFAQs corpus (toLowerCase (String c q))) = length corpus /\
  (corpus <> [] ->
   exists faq related,
     In faq corpus /\
     ask corpus (String c q)
     = Json OK {| bot_answer := answer faq; relatedFAQs := QuestionsAndAnswers related |}).
Proof.
  intros Hspace.
  assert (Hscore : forall faq, 1 <= faqScore (toLowerCase (String c q)) faq).
  { intros faq. rewrite faqScore_rule. simpl toLowerCase.
    unfold splitWhitespace. simpl splitGo. rewrite isSpace_lowerAscii, Hspace.
    simpl. rewrite strIncludes_empty. cbn [length]. rewrite Nat2Z.inj_succ. lia. }
  remember (toLowerCase (String c q)) as query eqn:Hquery.
  assert (Hlen : length (matchedFAQs corpus query) = length corpus).
  { unfold matchedFAQs. rewrite (Permutation_length (sortWith_perm _ _)).
    induction corpus as [| f corpus IH]; simpl; [reflexivity |].
    specialize (Hscore f).
    destruct (Z.ltb_spec 0 (faqScore query f)); [| lia].
    simpl. now rewrite IH. }
  split; [exact Hscore |]. split; [exact Hlen |].
  intros Hcorpus. unfold ask. simpl String.eqb. cbv zeta. rewrite <- Hquery.
  destruct (matchedFAQs_ranking corpus query) as (_ & _ & Hrows).
  destruct (matchedFAQs corpus query) as [| best rest].
  - destruct corpus; [contradiction | discriminate].
  - destruct (Hrows best (or_introl eq_refl)) as (Hin & _).
    exists (fst best). eexists. split; [exact Hin | reflexivity].
Qed.

Lemma leading_blank_matches_everything_sample :
  length (matchedFAQs faqs (toLowerCase " xyzzy")) = 5%nat.
Proof.
  apply (leading_blank_matches_everything faqs " "%char "xyzzy"). reflexivity.
Defined.

(** X20. The bot never makes up an answer: to a non-empty question it gives
    the fallback answer or the answer of a FAQ of the corpus, with at most
    three related entries, each taken from a FAQ of the corpus. *)
Theorem ask_answers_from_the_corpus (corpus : list FAQ) (q : string) (reply : BotReply) :
  ask corpus q = Json OK reply ->
  (bot_answer reply = fallbackAnswer \/ exists faq, In faq corpus /\ bot_answer reply = answer faq)
  /\
  match relatedFAQs reply with
  | WholeFAQs fs => (length fs <= 3)%nat /\ forall f, In f fs -> In f corpus
  | QuestionsAndAnswers qas =>
      (length qas <= 3)%nat /\
      forall qa, In qa qas ->
        exists faq, In faq corpus /\ qa = (question faq, answer faq)
  end.
Proof.
  unfold ask. destruct (String.eqb q ""); [discriminate |]. cbv zeta.
  destruct (matchedFAQs_ranking corpus (toLowerCase q)) as (_ & _ & Hrows).
  destruct (matchedFAQs corpus (toLowerCase q)) as [| best rest].
  - intros [= <-]. simpl. split; [now left |]. unfold slice. simpl skipn. split.
    + apply firstn_le_length.
    + intros f Hf. now apply In_firstn in Hf.
  - intros [= <-]. simpl. split.
    + right. exists (fst best). split; [| reflexivity].
      now destruct (Hrows best (or_introl eq_refl)).
    + unfold slice. simpl skipn. rewrite length_map. split.
      * apply firstn_le_length.
      * intros qa Hqa. apply in_map_iff in Hqa as (f & <- & Hf).
        apply In_firstn in Hf.
        destruct (Hrows f (or_intror Hf)) as (Hin & _). now exists (fst f).
Qed.

Lemma ask_answers_from_the_corpus_sample :
  bot_answer {| bot_answer := fallbackAnswer; relatedFAQs := WholeFAQs (firstn 3 faqs) |}
  = fallbackAnswer \/
  exists faq, In faq faqs /\
    bot_answer {| bot_answer := fallbackAnswer; relatedFAQs := WholeFAQs (firstn 3 faqs) |}
    = answer faq.
Proof.
  apply (ask_answers_from_the_corpus faqs "xyzzy"). vm_compute. reflexivity.
Defined.

(** ** Analytics: the buckets of the branch statistics *)

Lemma sumOver_insert (g : BranchStat -> Z) (m : gmap string BranchStat)
    (i : string) (x : BranchStat) :
  sumOver g (<[i := x]> m) = g x + sumOver g (delete i m).
Proof.
  unfold sumOver. rewrite <- insert_delete_eq.
  rewrite map_fold_insert_L; [reflexivity | intros; lia | apply lookup_delete_eq].
Qed.

Lemma sumOver_lookup (g : BranchStat -> Z) (m : gmap string BranchStat) (i : string) :
  sumOver g m = from_option g 0 (m !! i) + sumOver g (delete i m).
Proof.
  destruct (m !! i) as [x |] eqn:Hi; simpl.
  - unfold sumOver. now rewrite (map_fold_delete_L _ _ i x m) by (intros; lia || exact Hi).
  - now rewrite delete_id.
Qed.

Lemma countProfile_insert (apps : list Application) (m : gmap string BranchStat)
    (p : StudentProfile) :
  countProfile apps m p
  = <[bucketOf p := {| total := from_option total 0 (m !! bucketOf p) + 1;
                       placed := from_option placed 0 (m !! bucketOf p)
                                 + (if isPlaced apps p then 1 else 0) |}]> m.
Proof.
  apply map_eq. intros b. rewrite countProfile_lookup.
  destruct (decide (bucketOf p = b)) as [<- | Hne].
  - now rewrite lookup_insert_eq.
  - now rewrite lookup_insert_ne.
Qed.

Lemma sumOver_countProfiles (apps : list Application) (ps : list StudentProfile)
    (m : gmap string BranchStat) :
  sumOver total (fold_left (countProfile apps) ps m)
  = sumOver total m + Z.of_nat (length ps) /\
  sumOver placed (fold_left (countProfile apps) ps m)
  = sumOver placed m + Z.of_nat (length (List.filter (isPlaced apps) ps)).
Proof.
  revert m. induction ps as [| p ps IH]; intros m; simpl; [lia |].
  destruct (IH (countProfile apps m p)) as [Ht Hp]. rewrite Ht, Hp.
  rewrite countProfile_insert, !sumOver_insert. simpl.
  rewrite (sumOver_lookup total m (bucketOf p)), (sumOver_lookup placed m (bucketOf p)).
  destruct (m !! bucketOf p), (isPlaced apps p); cbn [length from_option];
    rewrite ?Nat2Z.inj_succ; lia.
Qed.

(** X21. The branch statistics add up when no branch is a name that JS
    objects inherit: over all buckets, the totals sum to the number of
    profiles and the placed counts to the number of profiles of placed
    students, and a branch has a bucket exactly when some profile falls in
    it, the profiles without a branch falling in Unknown. *)
Theorem branchStats_add_up (st : Store) :
  (forall p, In p (studentProfiles st) -> ownName (bucketOf p) = true) ->
  exists body,
    stats st = Json OK body /\
    sumOver total (branchStats body) = Z.of_nat (totalStudents body) /\
    sumOver placed (branchStats body)
    = Z.of_nat (length (List.filter (isPlaced (applications st)) (studentProfiles st))) /\
    (forall b, branchStats body !! b = None
               <-> forall p, In p (studentProfiles st) -> bucketOf p <> b) /\
    branchStats body !! "" = None.
Proof.
  intros _. eexists. split; [reflexivity |]. simpl. unfold branchStatsOf.
  destruct (sumOver_countProfiles (applications st) (studentProfiles st) ∅) as [Ht Hp].
  assert (Hzero : forall g, sumOver g ∅ = 0) by (intros g; apply map_fold_empty).
  rewrite Ht, Hp, !Hzero.
  assert (Hnone : forall b,
            fold_left (countProfile (applications st)) (studentProfiles st) ∅ !! b = None
            <-> forall p, In p (studentProfiles st) -> bucketOf p <> b).
  { intros b. rewrite countProfiles_lookup, lookup_empty. split.
    - destruct (List.filter (inBucket b) (studentProfiles st)) as [| x l] eqn:Hf;
        [| discriminate].
      intros _ p Hp' Hb.
      assert (Hin : In p (List.filter (inBucket b) (studentProfiles st))).
      { apply filter_In. split; [exact Hp' |]. unfold inBucket. now apply String.eqb_eq. }
      now rewrite Hf in Hin.
    - intros Hall. destruct (List.filter (inBucket b) (studentProfiles st)) as [| x l] eqn:Hf;
        [reflexivity |].
      assert (Hin : In x (List.filter (inBucket b) (studentProfiles st)))
        by (rewrite Hf; now left).
      apply filter_In in Hin as [Hin Hb]. unfold inBucket in Hb.
      apply String.eqb_eq in Hb. now destruct (Hall x Hin). }
  repeat split; try lia; try (now apply Hnone).
  apply Hnone. intros p _. unfold bucketOf.
  destruct (String.eqb_spec (branch p) ""); [discriminate | assumption].
Qed.

Lemma branchStats_add_up_sample :
  exists body,
    stats skillStore = Json OK body /\
    sumOver total (branchStats body) = 3 /\ sumOver placed (branchStats body) = 2.
Proof.
  destruct (branchStats_add_up skillStore) as (body & Hstats & Htotal & Hplaced & _).
  - intros p [<- | [<- | [<- | []]]]; reflexivity.
  - exists body. split; [exact Hstats |]. rewrite Htotal, Hplaced.
    unfold stats in Hstats. injection Hstats as <-. split; reflexivity.
Defined.

(** ** Analytics: which skills are recommended *)

Lemma lookupFreq_found (k : string) (freq : list (string * Z)) :
  lookupFreq k freq <> 0 -> In (k, lookupFreq k freq) freq.
Proof.
  induction freq as [| [k0 n0] rest IH]; simpl; [congruence |].
  destruct (String.eqb_spec k k0) as [-> | _]; [now left | right; now apply IH].
Qed.

Lemma occurrences_In (k : string) (l : list string) :
  0 < occurrences k l -> In k l.
Proof.
  unfold occurrences. induction l as [| x l IH]; simpl; [lia |].
  destruct (String.eqb_spec k x) as [-> | _]; [now left | right; now apply IH].
Qed.

Lemma NoDup_map_filter {X Y} (f : X -> Y) (P : X -> bool) (l : list X) :
  NoDup (map f l) -> NoDup (map f (List.filter P l)).
Proof.
  induction l as [| x l IH]; simpl; [auto |].
  intros Hnd. apply NoDup_cons in Hnd as [Hfresh Hnd].
  destruct (P x); simpl; [| now apply IH].
  apply NoDup_cons. split; [| now apply IH].
  intros Hin. apply Hfresh. apply list_elem_of_In in Hin.
  apply in_map_iff in Hin as (y & Hy & Hin). apply filter_In in Hin as [Hin _].
  apply list_elem_of_In, in_map_iff. now exists y.
Qed.

Lemma NoDup_map_firstn {X Y} (f : X -> Y) (n : nat) (l : list X) :
  NoDup (map f l) -> NoDup (map f (firstn n l)).
Proof.
  revert n. induction l as [| x l IH]; intros [| n]; simpl; auto using NoDup_nil_2.
  intros Hnd. apply NoDup_cons in Hnd as [Hfresh Hnd].
  apply NoDup_cons. split; [| now apply IH].
  intros Hin. apply Hfresh. apply list_elem_of_In in Hin.
  apply in_map_iff in Hin as (y & Hy & Hin). apply In_firstn in Hin.
  apply list_elem_of_In, in_map_iff. now exists y.
Qed.

Lemma StronglySorted_app_inv {X} (R : X -> X -> Prop) (l1 l2 : list X) :
  StronglySorted R (l1 ++ l2) ->
  forall a b, In a l1 -> In b l2 -> R a b.
Proof.
  induction l1 as [| x l1 IH]; simpl; [intros _ ? ? [] |].
  intros Hs a b [<- | Ha] Hb.
  - apply StronglySorted_inv in Hs as [_ Hall].
    rewrite List.Forall_forall in Hall. apply Hall. apply in_or_app. now right.
  - apply StronglySorted_inv in Hs as [Hs _]. now apply IH.
Qed.

(** The entries the handler keeps and ranks. *)
Lemma skillGap_ranked (st : Store) (uid : Z) (profile : StudentProfile) :
  find (fun p => userId p =? uid) (studentProfiles st) = Some profile ->
  exists ranked,
    skillGap st uid = Json OK (map (recommend (length (placedStudents st))) (firstn 5 ranked)) /\
    descending snd ranked /\
    NoDup (map fst ranked) /\
    forall k n, In (k, n) ranked <->
      (n = occurrences k (allSkills (placedStudents st)) /\ 0 < n /\
       ~ In k (map toLowerCase (skills profile))).
Proof.
  intros Hfind. unfold skillGap. rewrite Hfind.
  destruct (skillFrequency_spec (placedStudents st)) as [Hlookup Hnd].
  exists (sortWith (byKeyDesc snd)
            (List.filter (fun e => negb (includes (map toLowerCase (skills profile)) (fst e)))
               (skillFrequency (placedStudents st)))).
  split; [reflexivity |]. split; [apply sortWith_descending |]. split.
  - rewrite sortWith_perm. now apply NoDup_map_filter.
  - intros k n. split.
    + intros Hin. eapply Permutation_in in Hin; [| apply sortWith_perm].
      apply filter_In in Hin as [Hin Hnot]. simpl in Hnot.
      apply negb_true_iff, includes_false in Hnot.
      split; [| split; [now apply (skillFrequency_positive (placedStudents st) k) | exact Hnot]].
      rewrite <- Hlookup. symmetry. now apply lookupFreq_In.
    + intros (Hn & Hpos & Hnot).
      eapply Permutation_in; [symmetry; apply sortWith_perm |].
      apply filter_In. split.
      * rewrite Hn, <- Hlookup. apply lookupFreq_found. rewrite Hlookup. lia.
      * simpl. now apply negb_true_iff, includes_false.
Qed.

(** X22. No skill is recommended twice, and every recommended skill is the
    lower-case spelling of a skill on the profile of a placed entry. *)
Theorem recommendations_are_distinct (st : Store) (uid : Z) (recs : list Recommendation) :
  skillGap st uid = Json OK recs ->
  NoDup (map skill recs) /\
  forall r, In r recs ->
    In (skill r) (allSkills (placedStudents st)) /\ toLowerCase (skill r) = skill r.
Proof.
  destruct (find (fun p => userId p =? uid) (studentProfiles st)) as [profile |] eqn:Hfind.
  2: { unfold skillGap. rewrite Hfind. intros [= <-]. split; [constructor | intros ? []]. }
  destruct (skillGap_ranked st uid profile Hfind) as (ranked & -> & _ & Hnd & Hrows).
  intros [= <-]. split.
  - rewrite map_map.
    rewrite (map_ext _ fst) by (now intros [k n]).
    now apply NoDup_map_firstn.
  - intros r Hr. apply in_map_iff in Hr as ([k n] & <- & Hkn). apply In_firstn in Hkn.
    apply Hrows in Hkn as (Hn & Hpos & _). simpl.
    assert (Hin : In k (allSkills (placedStudents st)))
      by (apply occurrences_In; lia).
    split; [exact Hin |].
    unfold allSkills in Hin. apply in_flat_map in Hin as (p & _ & Hk).
    apply in_map_iff in Hk as (s & <- & _). apply toLowerCase_idem.
Qed.

Lemma recommendations_are_distinct_sample :
  exists recs, skillGap skillStore 8 = Json OK recs /\ NoDup (map skill recs).
Proof.
  eexists. split; [reflexivity |].
  eapply (recommendations_are_distinct skillStore 8). reflexivity.
Defined.

(** X23. The recommendations are the top of the ranking when no skill of a
    placed entry is, in lower case, a name that JS objects inherit: a skill
    of the placed entries that the requester lacks is recommended with its
    frequency, or five skills are recommended and each is at least as
    frequent. *)
Theorem recommendations_are_the_top (st : Store) (uid : Z) (profile : StudentProfile)
    (k : string) :
  find (fun p => userId p =? uid) (studentProfiles st) = Some profile ->
  (forall s, In s (allSkills (placedStudents st)) -> ownName s = true) ->
  0 < occurrences k (allSkills (placedStudents st)) ->
  ~ In k (map toLowerCase (skills profile)) ->
  exists recs,
    skillGap st uid = Json OK recs /\
    ((exists r, In r recs /\ skill r = k /\
                frequency r = occurrences k (allSkills (placedStudents st)))
     \/
     (length recs = 5%nat /\
      forall r, In r recs ->
        occurrences k (allSkills (placedStudents st)) <= frequency r)).
Proof.
  intros Hfind _ Hpos Hnot.
  destruct (skillGap_ranked st uid profile Hfind) as (ranked & -> & Hdesc & _ & Hrows).
  eexists. split; [reflexivity |].
  assert (Hin : In (k, occurrences k (allSkills (placedStudents st))) ranked)
    by (apply Hrows; auto).
  rewrite <- (firstn_skipn 5 ranked) in Hin, Hdesc.
  apply in_app_or in Hin as [Hin | Hin].
  - left. eexists. split; [apply in_map; exact Hin |]. split; reflexivity.
  - right. split.
    + rewrite length_map, length_firstn.
      assert (0 < length (skipn 5 ranked))%nat by (destruct (skipn 5 ranked); [destruct Hin | simpl; lia]).
      rewrite length_skipn in H. lia.
    + intros r Hr. apply in_map_iff in Hr as ([k' n'] & <- & Hr). simpl.
      apply (StronglySorted_app_inv _ _ _ Hdesc _ _ Hr Hin).
Qed.

Lemma recommendations_are_the_top_sample :
  exists recs,
    skillGap skillStore 8 = Json OK recs /\
    ((exists r, In r recs /\ skill r = "python" /\ frequency r = 1)
     \/ (length recs = 5%nat /\ forall r, In r recs -> 1 <= frequency r)).
Proof.
  apply (recommendations_are_the_top skillStore 8 newStudent "python").
  - reflexivity.
  - intros s Hs. vm_compute in Hs.
    repeat (destruct Hs as [<- | Hs]; [reflexivity |]). destruct Hs.
  - vm_compute. reflexivity.
  - simpl. intros [H | []]. discriminate.
Defined.

(** ** The seeded students *)

Lemma seedProfile_eligible (random : nat -> Q) (d : Drive) (i : nat) :
  (0 <= random i)%Q -> (minCgpa d <= 7.5)%Q -> allowedBranches d = [] ->
  eligibleStudentsFilter d (seedProfile random i)
  = negb (maxBacklogs d <? (if (i mod 10 =? 0)%nat then 1 else 0)).
Proof.
  intros Hrandom Hmin Hbranches. unfold eligibleStudentsFilter. rewrite Hbranches.
  assert (Hcgpa : Qltb (cgpa (seedProfile random i)) (minCgpa d) = false).
  { apply Qltb_false_iff. simpl. apply Qle_trans with 7.5%Q; [exact Hmin |].
    rewrite <- (Qplus_0_r 7.5) at 1. apply Qplus_le_r.
    apply Qmult_le_0_compat; [exact Hrandom | discriminate]. }
  rewrite Hcgpa. simpl. now destruct (maxBacklogs d <? _).
Qed.

(** X24. The server starts with 142 seeded students of distinct ids, and
    whatever the random grades are, all of them are eligible for a drive
    that lists no branch, asks for 7.5 or less and allows one backlog; with
    no backlog allowed, the 14 students whose number is a multiple of ten
    drop out. *)
Theorem seeded_students_are_eligible (random : nat -> Q) (st : Store) (id : Z) (d : Drive) :
  (forall i, (0 <= random i)%Q) ->
  studentProfiles st = studentProfiles (seedStore random) ->
  find (fun x => drive_id x =? id) (drives st) = Some d ->
  (minCgpa d <= 7.5)%Q -> allowedBranches d = [] ->
  NoDup (map userId (studentProfiles st)) /\
  exists body,
    eligibleStudentsFor st id = Json OK body /\
    (1 <= maxBacklogs d -> eligibleCount body = 142%nat) /\
    (maxBacklogs d = 0 -> eligibleCount body = 128%nat).
Proof.
  intros Hrandom Hseed Hfind Hmin Hbranches. split.
  - rewrite Hseed. unfold seedStore. cbn [studentProfiles]. rewrite map_map.
    rewrite (map_ext _ Z.of_nat) by reflexivity.
    apply (NoDup_fmap_2 Z.of_nat). apply NoDup_ListNoDup, seq_NoDup.
  - destruct (eligibleStudentsFor_rows st id d Hfind) as (body & Hbody & _ & Hcount).
    exists body. split; [exact Hbody |]. rewrite Hcount, Hseed.
    unfold seedStore. cbn [studentProfiles].
    assert (Hfilter : forall l,
              length (List.filter (eligibleStudentsFilter d) (map (seedProfile random) l))
              = length (List.filter
                          (fun i => negb (maxBacklogs d <? (if (i mod 10 =? 0)%nat then 1 else 0)))
                          l)).
    { intros l. induction l as [| i l IH]; [reflexivity |].
      cbn [map List.filter]. rewrite seedProfile_eligible by auto.
      destruct (negb _); cbn [length]; now rewrite IH. }
    rewrite Hfilter. split.
    + intros Hmax.
      rewrite (filter_ext _ (fun _ => true)).
      * now rewrite forallb_filter_id.
      * intros i. destruct (i mod 10 =? 0)%nat;
          destruct (Z.ltb_spec (maxBacklogs d) 1), (Z.ltb_spec (maxBacklogs d) 0);
          simpl; try reflexivity; lia.
    + intros ->. vm_compute. reflexivity.
Qed.

Lemma seeded_students_are_eligible_sample :
  exists body,
    eligibleStudentsFor
      (fst (createDrive (seedStore (fun _ => 0%Q)) 900 openDriveBody)) 1 = Json OK body /\
    eligibleCount body = 142%nat.
Proof.
  destruct (seeded_students_are_eligible (fun _ => 0%Q)
              (fst (createDrive (seedStore (fun _ => 0%Q)) 900 openDriveBody)) 1
              {| drive_id := 1; companyName := "Initech"; roleTitle := "Developer";
                 minCgpa := 6.5%Q; maxBacklogs := 1; allowedBranches := [];
                 applicationDeadline := None; createdBy := 900; drive_status := ACTIVE |})
    as (_ & body & Hbody & Hall & _).
  - intros i. discriminate.
  - reflexivity.
  - reflexivity.
  - discriminate.
  - reflexivity.
  - exists body. split; [exact Hbody |]. apply Hall. simpl. lia.
Defined.

(** X25. In a table that registration has kept, the account that a
    registration creates is the one that GET /api/auth/me finds under the
    new id. *)
Theorem registered_user_is_found (hash : string -> string -> string)
    (sign : User -> Z -> string) (tbl tbl' : Accounts) (salt : string) (now : Z)
    (body : Credentials) (session : Session) :
  accountsKept tbl ->
  register hash sign tbl salt now body = (tbl', Json Created session) ->
  user_id (session_user session) = nextUserId tbl /\
  me tbl' (user_id (session_user session)) = Json OK (session_user session) /\
  me tbl (user_id (session_user session)) = Failure NotFound "User not found".
Proof.
  intros (_ & _ & Hlt) Hreg.
  destruct (register_cases hash sign tbl salt now body) as [[_ Hno] | (r & _ & _ & _ & _ & Heq)].
  { rewrite Hreg in Hno. simpl in Hno. congruence. }
  rewrite Heq in Hreg. injection Hreg as <- <-. simpl.
  assert (Hnone : find (fun a => user_id (account a) =? nextUserId tbl) (accountRows tbl)
                  = None).
  { destruct (find _ (accountRows tbl)) as [a |] eqn:Hfind; [| reflexivity].
    apply find_some in Hfind as [Hin Hid]. specialize (Hlt a Hin). lia. }
  unfold me. simpl. rewrite find_snoc, Hnone. simpl. now rewrite Z.eqb_refl.
Qed.

Lemma registered_user_is_found_sample :
  exists u,
    me (fst (register plainHash plainSign noAccounts "salt1" 1767261600 adaCredentials)) 1
    = Json OK u /\
    email u = "Ada@Example.com" /\ role u = STUDENT.
Proof.
  assert (Hkept : accountsKept noAccounts).
  { unfold accountsKept. simpl. repeat split; first [intros ? [] | constructor]. }
  pose proof (registered_user_is_found plainHash plainSign noAccounts _ "salt1"
                1767261600 adaCredentials _ Hkept eq_refl) as (_ & Hme & _).
  eexists. split; [exact Hme |]. split; reflexivity.
Defined.

(** ** The lists typed in the client forms *)

Lemma splitComma_cons (s : string) : exists piece rest, splitComma s = piece :: rest.
Proof.
  induction s as [| c s (piece & rest & IH)]; simpl; [eauto |].
  destruct (Ascii.eqb c ","); [eauto |]. rewrite IH. eauto.
Qed.

Lemma splitComma_pieces (s : string) :
  forall piece, In piece (splitComma s) -> hasComma piece = false.
Proof.
  induction s as [| c s IH]; simpl.
  - intros piece [<- | []]. reflexivity.
  - destruct (Ascii.eqb c ",") eqn:Hc.
    + intros piece [<- | Hin]; [reflexivity | now apply IH].
    + destruct (splitComma s) as [| p rest]; simpl.
      * intros piece [<- | []]. simpl. now rewrite Hc.
      * intros piece [<- | Hin].
        -- simpl. rewrite Hc. apply IH. now left.
        -- apply IH. now right.
Qed.

Lemma splitComma_app (x s : string) :
  hasComma x = false ->
  splitComma (x ++ String "," s) = x :: splitComma s.
Proof.
  induction x as [| c x IH]; [reflexivity |].
  cbn [hasComma]. intros Hx. apply orb_false_iff in Hx as [Hc Hx].
  change (String c x ++ String "," s)%string with (String c (x ++ String "," s)).
  cbn [splitComma]. now rewrite Hc, IH.
Qed.

Lemma splitComma_whole (x : string) : hasComma x = false -> splitComma x = [x].
Proof.
  induction x as [| c x IH]; [reflexivity |].
  cbn [hasComma splitComma]. intros Hx. apply orb_false_iff in Hx as [Hc Hx].
  now rewrite Hc, IH.
Qed.

Lemma trimEnd_idem (s : string) : trimEnd (trimEnd s) = trimEnd s.
Proof.
  induction s as [| c s IH]; [reflexivity |]. cbn [trimEnd].
  destruct (trimEnd s) as [| d kept] eqn:Hkept.
  - destruct (isSpace c) eqn:Hc; [reflexivity |]. cbn [trimEnd]. now rewrite Hc.
  - cbn [trimEnd] in *. now rewrite IH.
Qed.

Lemma trimStart_trimEnd (s : string) :
  trimStart (trimEnd (trimStart s)) = trimEnd (trimStart s).
Proof.
  induction s as [| c s IH]; [reflexivity |]. cbn [trimStart].
  destruct (isSpace c) eqn:Hc; [exact IH |]. cbn [trimEnd].
  destruct (trimEnd s); rewrite ?Hc; cbn [trimStart]; now rewrite Hc.
Qed.

Lemma trim_idem (s : string) : trim (trim s) = trim s.
Proof. unfold trim. now rewrite trimStart_trimEnd, trimEnd_idem. Qed.

Lemma trimStart_hasComma (s : string) : hasComma s = false -> hasComma (trimStart s) = false.
Proof.
  induction s as [| c s IH]; [reflexivity |]. cbn [trimStart hasComma].
  intros Hs. destruct (isSpace c); [| exact Hs].
  apply IH. now apply orb_false_iff in Hs.
Qed.

Lemma trimEnd_hasComma (s : string) : hasComma s = false -> hasComma (trimEnd s) = false.
Proof.
  induction s as [| c s IH]; [reflexivity |]. cbn [trimEnd hasComma].
  intros Hs. apply orb_false_iff in Hs as [Hc Hs]. specialize (IH Hs).
  destruct (trimEnd s).
  - destruct (isSpace c); [reflexivity |]. simpl. now rewrite Hc.
  - cbn [hasComma] in *. now rewrite Hc.
Qed.

(** X26. The list read from a drive or resume form holds no empty entry,
    no entry with a comma, and no entry with white space around it; blank
    text gives the empty list. *)
Theorem parseList_entries_are_clean (text : string) :
  (forall item, In item (parseList text) ->
     item <> "" /\ hasComma item = false /\ trim item = item) /\
  (trim text = "" -> hasComma text = false -> parseList text = []).
Proof.
  unfold parseList. split.
  - intros item Hin. apply filter_In in Hin as [Hin Hne].
    apply in_map_iff in Hin as (piece & <- & Hpiece). split; [| split].
    + intros Heq. rewrite Heq in Hne. discriminate.
    + apply trimEnd_hasComma, trimStart_hasComma. now apply (splitComma_pieces text).
    + apply trim_idem.
  - intros Hblank Hcomma. rewrite splitComma_whole by assumption. simpl.
    now rewrite Hblank.
Qed.

(** X27. The skills box of the profile form reads back what it shows: for a
    non-empty list of skills without commas or white space around them,
    parsing the joined text gives the list again; an emptied box, though,
    gives one empty skill. *)
Theorem parseSkills_joined (l : list string) :
  l <> [] ->
  (forall x, In x l -> hasComma x = false /\ trim x = x) ->
  parseSkills (joinWith ", " l) = l /\ parseSkills "" = [""].
Proof.
  intros Hne Hclean. split; [| reflexivity]. unfold parseSkills.
  induction l as [| x rest IH]; [contradiction |].
  destruct (Hclean x (or_introl eq_refl)) as [Hcomma Htrim].
  destruct rest as [| y rest'].
  - simpl. rewrite splitComma_whole by assumption. simpl. now rewrite Htrim.
  - change (joinWith ", " (x :: y :: rest'))
      with (x ++ String "," (String " " (joinWith ", " (y :: rest'))))%string.
    rewrite splitComma_app by assumption. cbn [map]. rewrite Htrim. f_equal.
    assert (Hrest : map trim (splitComma (joinWith ", " (y :: rest'))) = y :: rest').
    { apply IH; [discriminate |]. intros z Hz. apply Hclean. now right. }
    cbn [splitComma]. change (Ascii.eqb " " ",") with false. cbv iota.
    destruct (splitComma_cons (joinWith ", " (y :: rest'))) as (piece & more & Hsplit).
    rewrite Hsplit in *. cbn [map] in *. rewrite <- Hrest. f_equal.
Qed.

Lemma parseSkills_joined_sample :
  parseSkills (joinWith ", " ["React"; "Node.js"; "System Design"])
  = ["React"; "Node.js"; "System Design"].
Proof.
  apply (parseSkills_joined ["React"; "Node.js"; "System Design"]); [discriminate |].
  intros x [<- | [<- | [<- | []]]]; split; reflexivity.
Defined.
